(** * audit-core: the audit-trail feature pack

    A shallow embedding of the server side of the audit-core feature pack:
    the request-scoped audit context ([audit-context]), the strict write
    path ([write-audit]), the automatic deriver ([auto-audit]), the scope
    resolver ([scope-mode]) and the scope branch of the read API ([api/audit]).

    Conventions of the embedding.
    - A JavaScript string is a [string]; the model agrees with JavaScript on
      ASCII text (lengths are counted in 8-bit characters).
    - A JavaScript number is an integer [Z] (status codes, milliseconds,
      lengths); non-integral numbers and NaN are outside the model.
    - An optional or nullable field is an [option]: [None] stands for both
      [undefined] and [null], which the code only ever tests with [??],
      [!= null] or truthiness.
    - An [async] function is a computation in the monad [M] below; a rejected
      promise is the completion [Throw], and [await] is sequencing. *)

From Stdlib Require Import String Ascii List ZArith Bool Lia.
From Stdlib Require Import DecimalString.
From Stdlib Require Import Sorted Permutation.
Import ListNotations.

Open Scope string_scope.
Open Scope list_scope.
Open Scope Z_scope.

(* ================================================================= *)
(** ** JavaScript strings *)

Module JsString.

Definition chars (s : string) : list ascii := list_ascii_of_string s.
Definition str (l : list ascii) : string := string_of_list_ascii l.

Definition length (s : string) : Z := Z.of_nat (String.length s).

Definition in_range (lo hi c : ascii) : bool :=
  ((nat_of_ascii lo <=? nat_of_ascii c) && (nat_of_ascii c <=? nat_of_ascii hi))%nat.

Definition is_lower (c : ascii) : bool := in_range "a" "z" c.
Definition is_upper (c : ascii) : bool := in_range "A" "Z" c.
Definition is_digit (c : ascii) : bool := in_range "0" "9" c.

Definition upper_char (c : ascii) : ascii :=
  if is_lower c then ascii_of_nat (nat_of_ascii c - 32) else c.
Definition lower_char (c : ascii) : ascii :=
  if is_upper c then ascii_of_nat (nat_of_ascii c + 32) else c.

(** [s.toUpperCase()] and [s.toLowerCase()]. *)
Definition toUpperCase (s : string) : string := str (map upper_char (chars s)).
Definition toLowerCase (s : string) : string := str (map lower_char (chars s)).

(** Whether the list [l] begins with the list [p]. *)
Fixpoint starts (p l : list ascii) : bool :=
  match p, l with
  | [], _ => true
  | a :: p', b :: l' => Ascii.eqb a b && starts p' l'
  | _ :: _, [] => false
  end.

(** The clamping of a relative index done by [slice]: a negative index
    counts from the end. *)
Definition clamp (len i : Z) : Z :=
  if i <? 0 then Z.max (len + i) 0 else Z.min i len.

(** [s.slice(from, to)]. *)
Definition slice (s : string) (from to : Z) : string :=
  let len := length s in
  let a := clamp len from in
  let b := clamp len to in
  str (firstn (Z.to_nat (b - a)) (skipn (Z.to_nat a) (chars s))).

(** [s.slice(from)]. *)
Definition slice_from (s : string) (from : Z) : string :=
  slice s from (length s).

(** [s.startsWith(p)] and [s.endsWith(p)]. *)
Definition startsWith (s p : string) : bool :=
  String.eqb (str (firstn (String.length p) (chars s))) p.

Definition endsWith (s p : string) : bool :=
  (String.length p <=? String.length s)%nat
  && String.eqb (str (skipn (String.length s - String.length p) (chars s))) p.

(** [s.charAt(i)]: the empty string when out of range. *)
Definition charAt (s : string) (i : Z) : string :=
  if (0 <=? i) && (i <? length s) then slice s i (i + 1) else "".

(** White space removed by [trim] (ASCII part: TAB, LF, VT, FF, CR, SP). *)
Definition is_space (c : ascii) : bool :=
  let n := nat_of_ascii c in
  ((9 <=? n) && (n <=? 13) || (n =? 32))%nat.

Fixpoint trimStart_chars (l : list ascii) : list ascii :=
  match l with
  | c :: r => if is_space c then trimStart_chars r else l
  | [] => []
  end.

(** [s.trim()]. *)
Definition trim (s : string) : string :=
  str (rev (trimStart_chars (rev (trimStart_chars (chars s))))).

(** [s.split(sep)] for a one-character separator. *)
Fixpoint split (sep : ascii) (s : string) : list string :=
  match s with
  | EmptyString => [""]
  | String c r =>
      if Ascii.eqb c sep then "" :: split sep r
      else match split sep r with
           | h :: t => String c h :: t
           | [] => [String c ""]
           end
  end.

(** [parts.join(sep)] *)
Fixpoint join (sep : string) (parts : list string) : string :=
  match parts with
  | [] => ""
  | [p] => p
  | p :: rest => (p ++ sep ++ join sep rest)%string
  end.

(** The coercion of a string to a boolean: [Boolean(s)]. *)
Definition truthy (s : string) : bool := negb (String.eqb s "").

(** [String(n)] for an integer. *)
Definition of_Z (n : Z) : string := NilZero.string_of_int (Z.to_int n).

(** A sequence of character classes, each repeated a fixed number of
    times: the shape of the anchored patterns used by the code. *)
Fixpoint matches_groups (groups : list (nat * (ascii -> bool))) (l : list ascii) : bool :=
  match groups with
  | [] => match l with [] => true | _ => false end
  | (n, cls) :: rest =>
      (Nat.eqb (List.length (firstn n l)) n)
      && forallb cls (firstn n l)
      && matches_groups rest (skipn n l)
  end.

End JsString.

(* ================================================================= *)
(** ** JavaScript values, errors and completions *)

Module Js.

(** The values that reach the audit code as request and response bodies
    and as [details] payloads.  [JBigInt] is the standard example of a
    value that [JSON.stringify] refuses. *)
#[warnings="-register-all"]
Inductive JsValue : Type :=
| JUndefined
| JNull
| JBool (b : bool)
| JNum (n : Z)
| JBigInt (n : Z)
| JStr (s : string)
| JArr (items : list JsValue)
| JObj (fields : list (string * JsValue)).

(** [Boolean(v)]. *)
Definition truthy (v : JsValue) : bool :=
  match v with
  | JUndefined | JNull => false
  | JBool b => b
  | JNum n | JBigInt n => negb (n =? 0)
  | JStr s => JsString.truthy s
  | JArr _ | JObj _ => true
  end.

(** [v === null || v === undefined]. *)
Definition nullish (v : JsValue) : bool :=
  match v with
  | JUndefined | JNull => true
  | _ => false
  end.

Fixpoint lookup (k : string) (fields : list (string * JsValue)) : JsValue :=
  match fields with
  | [] => JUndefined
  | (k', v) :: rest => if String.eqb k k' then v else lookup k rest
  end.

(** [v.k] for a value [v] that is neither [null] nor [undefined]; the
    properties read by the code are own properties of plain objects. *)
Definition getProp (v : JsValue) (k : string) : JsValue :=
  match v with
  | JObj fields => lookup k fields
  | _ => JUndefined
  end.

Fixpoint assign (k : string) (v : JsValue) (fields : list (string * JsValue))
  : list (string * JsValue) :=
  match fields with
  | [] => [(k, v)]
  | (k', v') :: rest =>
      if String.eqb k k' then (k', v) :: rest else (k', v') :: assign k v rest
  end.

(** [obj.k = v] on a plain object: an existing key keeps its place, a new
    key is added last. *)
Definition setProp (obj : JsValue) (k : string) (v : JsValue) : JsValue :=
  match obj with
  | JObj fields => JObj (assign k v fields)
  | _ => obj
  end.

(** A thrown value: an [Error] with its name and message. *)
Inductive JsError : Type := Err (name message : string).

(** How an evaluation ends. *)
Inductive Completion (A : Type) : Type :=
| Normal (a : A)
| Throw (e : JsError).
Arguments Normal {A} a.
Arguments Throw {A} e.

End Js.
Export Js.

(* ================================================================= *)
(** ** Data model: the [audit_events] table and the request context *)

Inductive AuditActorType : Type := actor_user | actor_system | actor_api.
Inductive AuditOutcome : Type :=
  outcome_success | outcome_failure | outcome_denied | outcome_error.

(** The values of one insert into [audit_events]; [id] and [createdAt] are
    assigned by the database.  A column that an insert does not mention is
    [None]. *)
Record AuditRow : Type := {
  entityKind : string;
  entityId : option string;
  action : string;
  summary : string;
  details : option JsValue;
  changes : option JsValue;
  eventType : option string;
  outcome : option AuditOutcome;
  targetKind : option string;
  targetId : option string;
  targetName : option string;
  sessionId : option string;
  authMethod : option string;
  mfaMethod : option string;
  errorCode : option string;
  errorMessage : option string;
  actorId : option string;
  actorName : option string;
  actorType : AuditActorType;
  correlationId : option string;
  packName : option string;
  method : option string;
  path : option string;
  ipAddress : option string;
  userAgent : option string
}.

(** [AuditRequestContext]: the object stored in the AsyncLocalStorage. *)
Record AuditRequestContext : Type := {
  ctx_correlationId : option string;
  ctx_packName : option string;
  ctx_method : option string;
  ctx_path : option string;
  ctx_actorId : option string;
  ctx_ipAddress : option string;
  ctx_userAgent : option string;
  auditWrites : Z
}.

(** [store.auditWrites += 1]. *)
Definition bump (ctx : AuditRequestContext) : AuditRequestContext :=
  {| ctx_correlationId := ctx_correlationId ctx;
     ctx_packName := ctx_packName ctx;
     ctx_method := ctx_method ctx;
     ctx_path := ctx_path ctx;
     ctx_actorId := ctx_actorId ctx;
     ctx_ipAddress := ctx_ipAddress ctx;
     ctx_userAgent := ctx_userAgent ctx;
     auditWrites := auditWrites ctx + 1 |}.

Inductive LogLine : Type :=
| Warn (msg : string)
| Error (msg : string) (e : JsError).

(** What a request can observe and change: the store of the
    AsyncLocalStorage instance [als] (the context object of the running
    request, shared by everything that runs inside it), the rows of
    [audit_events] in insert order, the rows handed to an insert whether it
    succeeded or not, and the console. *)
Record World : Type := {
  als : option AuditRequestContext;
  audit_events : list AuditRow;
  insert_calls : list AuditRow;
  console : list LogLine
}.

Definition set_als (s : option AuditRequestContext) (w : World) : World :=
  {| als := s; audit_events := audit_events w;
     insert_calls := insert_calls w; console := console w |}.

Definition log_line (l : LogLine) (w : World) : World :=
  {| als := als w; audit_events := audit_events w;
     insert_calls := insert_calls w; console := console w ++ [l] |}.

(** ** The monad of asynchronous code *)

Definition M (A : Type) : Type := World -> Completion A * World.

Definition ret {A : Type} (a : A) : M A := fun w => (Normal a, w).

Definition throw {A : Type} (e : JsError) : M A := fun w => (Throw e, w).

Definition bind {A B : Type} (m : M A) (k : A -> M B) : M B :=
  fun w =>
    match m w with
    | (Normal a, w') => k a w'
    | (Throw e, w') => (Throw e, w')
    end.

(** [try { body } catch (e) { handler e }]. *)
Definition try_catch {A : Type} (body : M A) (handler : JsError -> M A) : M A :=
  fun w =>
    match body w with
    | (Normal a, w') => (Normal a, w')
    | (Throw e, w') => handler e w'
    end.

(** A synchronous evaluation that may throw, run at this point. *)
Definition lift {A : Type} (c : Completion A) : M A := fun w => (c, w).

Declare Scope js_scope.
Delimit Scope js_scope with js.
Notation "x <- m ;; k" := (bind m (fun x => k))
  (at level 61, m at next level, right associativity) : js_scope.
Notation "m ;; k" := (bind m (fun _ => k))
  (at level 61, right associativity) : js_scope.
Open Scope js_scope.

Definition console_warn (msg : string) : M unit :=
  fun w => (Normal tt, log_line (Warn msg) w).

Definition console_error (msg : string) (e : JsError) : M unit :=
  fun w => (Normal tt, log_line (Error msg e) w).

(** The storage collaborator: a Drizzle database or transaction.  It decides
    for each insert, from the current table and the row, whether to reject. *)
Record DbHandle : Type := {
  insert_rejects : list AuditRow -> AuditRow -> option JsError
}.

(** [await db.insert(auditEvents).values(row)]. *)
Definition insert_values (db : DbHandle) (row : AuditRow) : M unit :=
  fun w =>
    let calls := insert_calls w ++ [row] in
    match insert_rejects db (audit_events w) row with
    | Some e =>
        (Throw e,
         {| als := als w; audit_events := audit_events w;
            insert_calls := calls; console := console w |})
    | None =>
        (Normal tt,
         {| als := als w; audit_events := audit_events w ++ [row];
            insert_calls := calls; console := console w |})
    end.

(** [a ?? b]. *)
Definition nullish_or {A : Type} (a b : option A) : option A :=
  match a with
  | Some _ => a
  | None => b
  end.
Notation "a ?? b" := (nullish_or a b) (at level 45, right associativity) : js_scope.

(** [o?.f]. *)
Definition opt_chain {A B : Type} (o : option A) (f : A -> option B) : option B :=
  match o with
  | Some x => f x
  | None => None
  end.

(** The application's database module ['@/lib/db'], loaded on demand by the
    automatic deriver: the dynamic import may reject and [getDb()] may throw. *)
Record AppDbModule : Type := {
  import_db : Completion unit;
  getDb : Completion DbHandle
}.

(* ================================================================= *)
(** ** server/lib/audit-context *)

Definition getAuditContext : M (option AuditRequestContext) :=
  fun w => (Normal (als w), w).

Definition getAuditWrites : M Z :=
  fun w =>
    (Normal (match als w with
             | Some store => auditWrites store
             | None => 0
             end), w).

Definition markAuditWrite : M unit :=
  fun w =>
    match als w with
    | None => (Normal tt, w)
    | Some store => (Normal tt, set_als (Some (bump store)) w)
    end.

(** [{ ...meta, auditWrites: 0 }] *)
Definition fresh_context (meta : AuditRequestContext) : AuditRequestContext :=
  {| ctx_correlationId := ctx_correlationId meta;
     ctx_packName := ctx_packName meta;
     ctx_method := ctx_method meta;
     ctx_path := ctx_path meta;
     ctx_actorId := ctx_actorId meta;
     ctx_ipAddress := ctx_ipAddress meta;
     ctx_userAgent := ctx_userAgent meta;
     auditWrites := 0 |}.

(** [withAuditContext(meta, fn)]: [fn] runs with the store set to a fresh
    context object whose counter is 0; the caller's store is back in place
    when the run is over. *)
Definition withAuditContext {T : Type} (meta : AuditRequestContext) (fn : M T) : M T :=
  fun w =>
    let ctx := fresh_context meta in
    let outer := als w in
    match fn (set_als (Some ctx) w) with
    | (c, w') => (c, set_als outer w')
    end.

(* ================================================================= *)
(** ** server/lib/write-audit: the strict write path *)

Record WriteAuditEventInput : Type := {
  in_entityKind : string;
  in_entityId : option string;
  in_action : string;
  in_summary : string;
  in_details : option JsValue;
  in_changes : option JsValue;
  in_eventType : option string;
  in_outcome : option AuditOutcome;
  in_targetKind : option string;
  in_targetId : option string;
  in_targetName : option string;
  in_sessionId : option string;
  in_authMethod : option string;
  in_mfaMethod : option string;
  in_errorCode : option string;
  in_errorMessage : option string;
  in_actorId : string;
  in_actorName : option string;
  in_actorType : option AuditActorType;
  in_correlationId : option string;
  in_packName : option string;
  in_method : option string;
  in_path : option string;
  in_ipAddress : option string;
  in_userAgent : option string
}.

(** The row that [writeAuditEvent] hands to the insert.  [String(x)] is the
    identity on the string fields it is applied to. *)
Definition writeAuditEvent_values
  (ctx : option AuditRequestContext) (input : WriteAuditEventInput) : AuditRow :=
  let eventType :=
    match in_eventType input with
    | Some t =>
        if JsString.truthy (JsString.trim t) then JsString.trim t
        else in_action input
    | None => in_action input
    end in
  {| entityKind := in_entityKind input;
     entityId := in_entityId input;
     action := in_action input;
     summary := in_summary input;
     details := in_details input;
     changes := in_changes input;
     eventType := Some eventType;
     outcome := in_outcome input;
     targetKind := in_targetKind input;
     targetId := in_targetId input;
     targetName := in_targetName input;
     sessionId := in_sessionId input;
     authMethod := in_authMethod input;
     mfaMethod := in_mfaMethod input;
     errorCode := in_errorCode input;
     errorMessage := in_errorMessage input;
     actorId := Some (in_actorId input);
     actorName := in_actorName input;
     actorType := match in_actorType input with
                  | Some t => t
                  | None => actor_user
                  end;
     correlationId := in_correlationId input ?? opt_chain ctx ctx_correlationId;
     packName := in_packName input ?? opt_chain ctx ctx_packName;
     method := in_method input ?? opt_chain ctx ctx_method;
     path := in_path input ?? opt_chain ctx ctx_path;
     ipAddress := in_ipAddress input ?? opt_chain ctx ctx_ipAddress;
     userAgent := in_userAgent input ?? opt_chain ctx ctx_userAgent |}.

Definition writeAuditEvent (dbOrTx : DbHandle) (input : WriteAuditEventInput) : M unit :=
  ctx <- getAuditContext ;;
  insert_values dbOrTx (writeAuditEvent_values ctx input) ;;
  markAuditWrite.

(* ================================================================= *)
(** ** server/lib/auto-audit: the automatic deriver *)

Module AutoAudit.

Import JsString.

(** [methodToAction]: the [switch] on the upper-cased method. *)
Definition methodToAction (method : string) : string :=
  let m := toUpperCase method in
  if String.eqb m "GET" then "read"
  else if String.eqb m "POST" then "created"
  else if String.eqb m "PUT" || String.eqb m "PATCH" then "updated"
  else if String.eqb m "DELETE" then "deleted"
  else toLowerCase method.

(** [singularize]. *)
Definition singularize (word : string) : string :=
  if endsWith word "ies" then (slice word 0 (-3) ++ "y")%string
  else if endsWith word "ses" || endsWith word "xes" || endsWith word "zes"
  then slice word 0 (-2)
  else if endsWith word "s" && negb (endsWith word "ss") then slice word 0 (-1)
  else word.

Record Entity : Type := { kind : string; id : option string }.

Definition is_hex (c : ascii) : bool :=
  is_digit c || in_range "a" "f" c || in_range "A" "F" c.
Definition is_dash (c : ascii) : bool := Ascii.eqb c "-".

(** [/^[0-9a-f]{8}-[0-9a-f]{4}-[0-9a-f]{4}-[0-9a-f]{4}-[0-9a-f]{12}$/i.test(s)] *)
Definition uuidPattern (s : string) : bool :=
  matches_groups
    [(8, is_hex); (1, is_dash); (4, is_hex); (1, is_dash); (4, is_hex);
     (1, is_dash); (4, is_hex); (1, is_dash); (12, is_hex)]%nat
    (chars s).

(** [/^\d+$/.test(s)] *)
Definition numericPattern (s : string) : bool :=
  match chars s with
  | [] => false
  | l => forallb is_digit l
  end.

(** [path.replace(/^\/api\//, '')] *)
Definition replace_api_prefix (path : string) : string :=
  if startsWith path "/api/" then slice_from path 5 else path.

(** [extractEntityFromPath].  The array reads are in range at the places
    where the code makes them, so the default of [nth] is never returned. *)
Definition extractEntityFromPath (path : string) : Entity :=
  let cleaned := replace_api_prefix path in
  let segments := filter JsString.truthy (split "/" cleaned) in
  if (List.length segments =? 0)%nat then {| kind := "unknown"; id := None |}
  else
    let pathSegments := skipn 1 segments in
    if (List.length pathSegments =? 0)%nat
    then {| kind := nth 0 segments ""; id := None |}
    else
      let lastSegment := nth (List.length pathSegments - 1) pathSegments "" in
      if uuidPattern lastSegment || numericPattern lastSegment then
        let entityId := lastSegment in
        if (2 <=? List.length pathSegments)%nat then
          let kindSegment := nth (List.length pathSegments - 2) pathSegments "" in
          {| kind := singularize kindSegment; id := Some entityId |}
        else {| kind := nth 0 segments ""; id := Some entityId |}
      else {| kind := singularize lastSegment; id := None |}.

(** The truthiness of a [string | null]. *)
Definition some_truthy (o : option string) : bool :=
  match o with
  | Some s => JsString.truthy s
  | None => false
  end.

(** [buildSummary]; [packName] is not used by the code. *)
Definition buildSummary
  (action entityKind : string) (entityId : option string) (packName : option string)
  : string :=
  let actionVerb := (toUpperCase (charAt action 0) ++ slice_from action 1)%string in
  match entityId with
  | Some i =>
      if JsString.truthy i
      then (actionVerb ++ " " ++ entityKind ++ " (" ++ i ++ ")")%string
      else (actionVerb ++ " " ++ entityKind)%string
  | None => (actionVerb ++ " " ++ entityKind)%string
  end.

(** [truncateText(s, maxLength = 160)] *)
Definition truncateText (s : string) (maxLength : Z) : string :=
  let trimmed := trim s in
  if JsString.length trimmed <=? maxLength then trimmed
  else (slice trimmed 0 (maxLength - 1) ++ "…")%string.

(** [String(v)] for a primitive that is neither a string nor nullish. *)
Definition String_of_primitive (v : JsValue) : string :=
  match v with
  | JBool true => "true"
  | JBool false => "false"
  | JNum n | JBigInt n => of_Z n
  | JStr s => s
  | _ => ""
  end.

(** [typeof c === 'string' && c.trim()] *)
Definition nonblank_string (c : JsValue) : bool :=
  match c with
  | JStr s => JsString.truthy (trim s)
  | _ => false
  end.

(** [obj.exception?.k] *)
Definition exception_prop (obj : JsValue) (k : string) : JsValue :=
  if nullish (getProp obj "exception") then JUndefined
  else getProp (getProp obj "exception") k.

(** [extractErrorHint] *)
Definition extractErrorHint (responseBody : JsValue) : option string :=
  match responseBody with
  | JUndefined | JNull => None
  | JStr s => if JsString.truthy (trim s) then Some (trim s) else None
  | JBool _ | JNum _ | JBigInt _ => Some (String_of_primitive responseBody)
  | JArr _ | JObj _ =>
      let obj := responseBody in
      let candidates :=
        [getProp obj "error"; getProp obj "message"; getProp obj "detail";
         exception_prop obj "message"; exception_prop obj "name"] in
      match find nonblank_string candidates with
      | Some (JStr c) => Some (trim c)
      | _ => None
      end
  end.

Record SlowQueryRecord : Type := { sq_sql : string; sq_durationMs : Z }.

Record AutoAuditInput : Type := {
  responseStatus : Z;
  responseBody : JsValue;
  requestBody : JsValue;
  durationMs : option Z;
  input_actorId : option string;
  dbTimeMs : option Z;
  moduleTimeMs : option Z;
  slowQueries : option (list SlowQueryRecord)
}.

(** [[...qs].sort((a, b) => b.durationMs - a.durationMs)]: a stable sort,
    slowest first. *)
Fixpoint insert_slow (q : SlowQueryRecord) (sorted : list SlowQueryRecord)
  : list SlowQueryRecord :=
  match sorted with
  | [] => [q]
  | q' :: rest =>
      if sq_durationMs q <? sq_durationMs q' then q' :: insert_slow q rest
      else q :: sorted
  end.

Definition sort_slowest_first (qs : list SlowQueryRecord) : list SlowQueryRecord :=
  fold_right insert_slow [] qs.

Definition slow_query_value (q : SlowQueryRecord) : JsValue :=
  JObj [("sql", JStr (sq_sql q)); ("durationMs", JNum (sq_durationMs q))].

Definition error_marker : JsValue :=
  JObj [("_error", JStr "Could not serialize payload")].

Definition truncation_marker (str : string) (maxLength : Z) : JsValue :=
  JObj [("_truncated", JBool true);
        ("_originalLength", JNum (JsString.length str));
        ("_preview", JStr (slice str 0 maxLength))].

(** [['POST', 'PUT', 'PATCH', 'DELETE'].includes(method)] *)
Definition isWrite (method : string) : bool :=
  existsb (String.eqb method) ["POST"; "PUT"; "PATCH"; "DELETE"].

(** The action of a derived event, from the upper-cased method and the
    response status. *)
Definition derive_action (method : string) (status : Z) : string :=
  let isSuccess := (200 <=? status) && (status <? 300) in
  let isClientError := (400 <=? status) && (status <? 500) in
  let action := methodToAction method in
  if negb isSuccess then
    if isClientError then (action ++ "_rejected")%string
    else (action ++ "_failed")%string
  else action.

Section Serializer.

(** [JSON.stringify]: it throws (a BigInt, a cycle), returns [undefined]
    (nothing to serialize) or returns the serialization. *)
Variable JSON_stringify : JsValue -> Completion (option string).

(** [truncatePayload(payload, maxLength = 4000)]; reading [str.length] of
    [undefined] throws a TypeError inside the [try]. *)
Definition truncatePayload (payload : JsValue) (maxLength : Z) : JsValue :=
  if nullish payload then JNull
  else
    match JSON_stringify payload with
    | Normal (Some str) =>
        if JsString.length str <=? maxLength then payload
        else truncation_marker str maxLength
    | Normal None => error_marker
    | Throw _ => error_marker
    end.

(** The [details] object of a derived event. *)
Definition build_details (input : AutoAuditInput) (isSuccess : bool) : JsValue :=
  let details :=
    JObj [("responseStatus", JNum (responseStatus input));
          ("durationMs", match durationMs input with
                         | Some d => JNum d
                         | None => JNull
                         end);
          ("success", JBool isSuccess)] in
  let details :=
    match dbTimeMs input with
    | Some t => setProp details "dbTimeMs" (JNum t)
    | None => details
    end in
  let details :=
    match moduleTimeMs input with
    | Some t => setProp details "moduleTimeMs" (JNum t)
    | None => details
    end in
  let details :=
    match slowQueries input with
    | Some (q :: qs) =>
        let topSlowQueries := firstn 5 (sort_slowest_first (q :: qs)) in
        setProp details "slowQueries" (JArr (map slow_query_value topSlowQueries))
    | _ => details
    end in
  let details :=
    if negb (nullish (requestBody input))
    then setProp details "requestBody" (truncatePayload (requestBody input) 4000)
    else details in
  let details :=
    if negb (nullish (responseBody input))
    then setProp details "responseBody" (truncatePayload (responseBody input) 4000)
    else details in
  match durationMs input with
  | Some d =>
      if negb (d =? 0) && (500 <? d) then setProp details "isSlow" (JBool true)
      else details
  | None => details
  end.

(** The body of the [try] block up to the insert: the row of the derived
    event.  It throws a TypeError when the context has no path. *)
Definition derive_row
  (ctx : AuditRequestContext) (method : string) (input : AutoAuditInput)
  : Completion AuditRow :=
  let isSuccess := (200 <=? responseStatus input) && (responseStatus input <? 300) in
  let action := derive_action method (responseStatus input) in
  match ctx_path ctx with
  | None => Throw (Err "TypeError" "Cannot read properties of undefined (reading 'replace')")
  | Some p =>
      let ent := extractEntityFromPath p in
      let entityKind := kind ent in
      let entityId :=
        if String.eqb method "POST" && negb (some_truthy (id ent))
           && Js.truthy (responseBody input) && isSuccess
        then
          match getProp (responseBody input) "id" with
          | JStr i => if JsString.truthy i then Some i else id ent
          | _ => id ent
          end
        else id ent in
      let details := build_details input isSuccess in
      let summary := buildSummary action entityKind entityId (ctx_packName ctx) in
      let summary :=
        if negb isSuccess then
          match extractErrorHint (responseBody input) with
          | Some hint =>
              if JsString.truthy hint
              then (summary ++ " — " ++ truncateText hint 160)%string
              else summary
          | None => summary
          end
        else summary in
      Normal
        {| entityKind := entityKind;
           entityId := entityId;
           action := action;
           summary := summary;
           details := Some details;
           changes := None;
           eventType := None;
           outcome := None;
           targetKind := None;
           targetId := None;
           targetName := None;
           sessionId := None;
           authMethod := None;
           mfaMethod := None;
           errorCode := None;
           errorMessage := None;
           actorId := input_actorId input ?? ctx_actorId ctx ?? Some "system";
           actorName := None;
           actorType := actor_user;
           correlationId := ctx_correlationId ctx;
           packName := ctx_packName ctx;
           method := ctx_method ctx;
           path := ctx_path ctx;
           ipAddress := ctx_ipAddress ctx;
           userAgent := ctx_userAgent ctx |}
  end.

(** [writeAutoAuditEvent] *)
Definition writeAutoAuditEvent (app : AppDbModule) (input : AutoAuditInput) : M bool :=
  ctx <- getAuditContext ;;
  match ctx with
  | None =>
      console_warn "[auto-audit] No audit context available, skipping auto-audit" ;;
      ret false
  | Some ctx =>
      if 0 <? auditWrites ctx then ret false
      else
        match option_map toUpperCase (ctx_method ctx) with
        | None => ret false
        | Some method =>
            if negb (JsString.truthy method) then ret false
            else
              let isError := 400 <=? responseStatus input in
              if negb (isWrite method) && negb isError then ret false
              else
                try_catch
                  (lift (import_db app) ;;
                   db <- lift (getDb app) ;;
                   row <- lift (derive_row ctx method input) ;;
                   insert_values db row ;;
                   markAuditWrite ;;
                   ret true)
                  (fun error =>
                     console_error "[auto-audit] Failed to write auto-audit event:" error ;;
                     ret false)
        end
  end.

End Serializer.

End AutoAudit.

(** *** The first version of the deriver (src/server/lib/auto-audit.ts)

    It audits only successful write requests and stores no details.  Its
    path and summary helpers are the ones above, word for word. *)

Module AutoAuditLevel1.

Import JsString.

Definition methodToAction (method : string) : string :=
  let m := toUpperCase method in
  if String.eqb m "POST" then "created"
  else if String.eqb m "PUT" || String.eqb m "PATCH" then "updated"
  else if String.eqb m "DELETE" then "deleted"
  else toLowerCase method.

Record AutoAuditInput : Type := {
  responseStatus : Z;
  responseBody : JsValue;
  input_actorId : option string
}.

Definition derive_row
  (ctx : AuditRequestContext) (method : string) (input : AutoAuditInput)
  : Completion AuditRow :=
  let action := methodToAction method in
  match ctx_path ctx with
  | None => Throw (Err "TypeError" "Cannot read properties of undefined (reading 'replace')")
  | Some p =>
      let ent := AutoAudit.extractEntityFromPath p in
      let entityKind := AutoAudit.kind ent in
      let entityId :=
        if String.eqb method "POST" && negb (AutoAudit.some_truthy (AutoAudit.id ent))
           && Js.truthy (responseBody input)
        then
          match getProp (responseBody input) "id" with
          | JStr i => if JsString.truthy i then Some i else AutoAudit.id ent
          | _ => AutoAudit.id ent
          end
        else AutoAudit.id ent in
      let summary := AutoAudit.buildSummary action entityKind entityId (ctx_packName ctx) in
      Normal
        {| entityKind := entityKind;
           entityId := entityId;
           action := action;
           summary := summary;
           details := None;
           changes := None;
           eventType := None;
           outcome := None;
           targetKind := None;
           targetId := None;
           targetName := None;
           sessionId := None;
           authMethod := None;
           mfaMethod := None;
           errorCode := None;
           errorMessage := None;
           actorId := input_actorId input ?? ctx_actorId ctx ?? Some "system";
           actorName := None;
           actorType := actor_user;
           correlationId := ctx_correlationId ctx;
           packName := ctx_packName ctx;
           method := ctx_method ctx;
           path := ctx_path ctx;
           ipAddress := ctx_ipAddress ctx;
           userAgent := ctx_userAgent ctx |}
  end.

Definition writeAutoAuditEvent (app : AppDbModule) (input : AutoAuditInput) : M bool :=
  if (responseStatus input <? 200) || (300 <=? responseStatus input) then ret false
  else
    ctx <- getAuditContext ;;
    match ctx with
    | None =>
        console_warn "[auto-audit] No audit context available, skipping auto-audit" ;;
        ret false
    | Some ctx =>
        if 0 <? auditWrites ctx then ret false
        else
          match option_map toUpperCase (ctx_method ctx) with
          | None => ret false
          | Some method =>
              if negb (JsString.truthy method) || negb (AutoAudit.isWrite method)
              then ret false
              else
                try_catch
                  (lift (import_db app) ;;
                   db <- lift (getDb app) ;;
                   row <- lift (derive_row ctx method input) ;;
                   insert_values db row ;;
                   markAuditWrite ;;
                   ret true)
                  (fun error =>
                     console_error "[auto-audit] Failed to write auto-audit event:" error ;;
                     ret false)
          end
    end.

End AutoAuditLevel1.

(* ================================================================= *)
(** ** server/lib/scope-mode: the scope resolver *)

Module ScopeMode.

Inductive ScopeMode : Type := none | own | ldd | any.

Definition mode_name (m : ScopeMode) : string :=
  match m with
  | none => "none"
  | own => "own"
  | ldd => "ldd"
  | any => "any"
  end.

(** The answer of the permission-check collaborator. *)
Record ActionCheckResult : Type := { ok : bool }.

(** [checkAuditCoreAction(request, key)] for the request at hand: the
    collaborator [checkActionPermission], asked with the log prefix
    ['Audit-Core']. *)
Definition PermissionCheck : Type := string -> ActionCheckResult.

(** The [for] loop over [modes]: the keys probed so far, in order, and the
    mode returned from inside the loop, if any. *)
Fixpoint probe_modes
  (checkAuditCoreAction : PermissionCheck) (globalPrefix : string)
  (modes : list ScopeMode) (probed : list string)
  : list string * option ScopeMode :=
  match modes with
  | [] => (probed, None)
  | m :: rest =>
      let key := (globalPrefix ++ "." ++ mode_name m)%string in
      let res := checkAuditCoreAction key in
      if ok res then (probed ++ [key], Some m)
      else probe_modes checkAuditCoreAction globalPrefix rest (probed ++ [key])
  end.

(** [resolveAuditCoreScopeMode(request, { verb })], with the list of keys it
    asked the collaborator about. *)
Definition resolveAuditCoreScopeMode
  (checkAuditCoreAction : PermissionCheck) (verb : string)
  : list string * ScopeMode :=
  let globalPrefix := ("audit-core." ++ verb ++ ".scope")%string in
  let modes := [none; own; ldd; any] in
  match probe_modes checkAuditCoreAction globalPrefix modes [] with
  | (probed, Some m) => (probed, m)
  | (probed, None) => (probed, own)
  end.

End ScopeMode.

(* ================================================================= *)
(** ** server/api/audit: the scope branch of [GET /api/audit] *)

Module ApiAudit.

Import ScopeMode.

(** A row of [userOrgAssignments]. *)
Record UserOrgAssignment : Type := {
  userKey : string;
  divisionId : option string;
  departmentId : option string;
  locationId : option string
}.

Inductive OrgColumn : Type := col_divisionId | col_departmentId | col_locationId.

Definition column (c : OrgColumn) (r : UserOrgAssignment) : option string :=
  match c with
  | col_divisionId => divisionId r
  | col_departmentId => departmentId r
  | col_locationId => locationId r
  end.

Record OrgScopeIds : Type := {
  divisionIds : list string;
  departmentIds : list string;
  locationIds : list string
}.

(** [ids.includes(x)] *)
Definition includes (ids : list string) (x : string) : bool :=
  existsb (String.eqb x) ids.

(** [if (v && !ids.includes(v)) ids.push(v)] *)
Definition push_new (ids : list string) (v : option string) : list string :=
  match v with
  | Some x => if JsString.truthy x && negb (includes ids x) then ids ++ [x] else ids
  | None => ids
  end.

(** [fetchUserOrgScopeIds(db, userKey)]: the select on [user_key], then the
    loop over its rows. *)
Definition fetchUserOrgScopeIds
  (table : list UserOrgAssignment) (user : string) : OrgScopeIds :=
  let rows := filter (fun r => String.eqb (userKey r) user) table in
  fold_left
    (fun acc r =>
       {| divisionIds := push_new (divisionIds acc) (divisionId r);
          departmentIds := push_new (departmentIds acc) (departmentId r);
          locationIds := push_new (locationIds acc) (locationId r) |})
    rows
    {| divisionIds := []; departmentIds := []; locationIds := [] |}.

(** The conditions that the scope branch builds. *)
#[warnings="-register-all"]
Inductive SqlCondition : Type :=
| sql_false
    (* sql`false` *)
| eq_actorId (v : string)
    (* eq(auditEvents.actorId, v) *)
| exists_assignment (c : OrgColumn) (ids : list string)
    (* exists (select 1 from userOrgAssignments
               where userKey = auditEvents.actorId and <c> in (ids)) *)
| or_ (conditions : list SqlCondition).
    (* or(...conditions) *)

(** The scope branch of [GET]: what it pushes on [whereParts].  [user_sub]
    is [user.sub], which [GET] has checked to be non-empty. *)
Definition scope_whereParts
  (mode : ScopeMode) (user_sub : string) (table : list UserOrgAssignment)
  : list SqlCondition :=
  match mode with
  | none => [sql_false]
  | own =>
      if JsString.truthy user_sub then [eq_actorId user_sub] else [sql_false]
  | ldd =>
      let scopeIds := fetchUserOrgScopeIds table user_sub in
      let ownCondition :=
        if JsString.truthy user_sub then eq_actorId user_sub else sql_false in
      let lddParts := [] in
      let lddParts :=
        match divisionIds scopeIds with
        | [] => lddParts
        | ids => lddParts ++ [exists_assignment col_divisionId ids]
        end in
      let lddParts :=
        match departmentIds scopeIds with
        | [] => lddParts
        | ids => lddParts ++ [exists_assignment col_departmentId ids]
        end in
      let lddParts :=
        match locationIds scopeIds with
        | [] => lddParts
        | ids => lddParts ++ [exists_assignment col_locationId ids]
        end in
      match lddParts with
      | [] => [ownCondition]
      | _ => [or_ [ownCondition; or_ lddParts]]
      end
  | any => []
  end.

(** *** The meaning of a condition on a row of [audit_events]

    SQL's three-valued logic: [None] is the unknown truth value that a
    comparison with NULL yields. *)

Definition sql_or (a b : option bool) : option bool :=
  match a, b with
  | Some true, _ | _, Some true => Some true
  | Some false, Some false => Some false
  | _, _ => None
  end.

Definition sql_and (a b : option bool) : option bool :=
  match a, b with
  | Some false, _ | _, Some false => Some false
  | Some true, Some true => Some true
  | _, _ => None
  end.

(** [x = y] on nullable strings. *)
Definition sql_eq (x y : option string) : option bool :=
  match x, y with
  | Some a, Some b => Some (String.eqb a b)
  | _, _ => None
  end.

(** [x in (ids)] for a list of non-null strings. *)
Definition sql_in (x : option string) (ids : list string) : option bool :=
  match x with
  | Some a => Some (includes ids a)
  | None => None
  end.

Definition is_true (t : option bool) : bool :=
  match t with
  | Some true => true
  | _ => false
  end.

Fixpoint eval
  (table : list UserOrgAssignment) (event : AuditRow) (c : SqlCondition)
  : option bool :=
  match c with
  | sql_false => Some false
  | eq_actorId v => sql_eq (actorId event) (Some v)
  | exists_assignment col ids =>
      Some (existsb
              (fun r => is_true (sql_and (sql_eq (Some (userKey r)) (actorId event))
                                         (sql_in (column col r) ids)))
              table)
  | or_ conditions =>
      (fix eval_or (cs : list SqlCondition) : option bool :=
         match cs with
         | [] => Some false
         | c' :: rest => sql_or (eval table event c') (eval_or rest)
         end) conditions
  end.

(** A row is selected when the [where] clause is true on it. *)
Definition accepts
  (table : list UserOrgAssignment) (c : SqlCondition) (event : AuditRow) : bool :=
  is_true (eval table event c).

End ApiAudit.

(* ================================================================= *)
(** ** [JSON.stringify] on the modelled values

    The deriver is verified for every behaviour of the serializer; this
    instance is the built-in one on the values of [JsValue], used to run
    the code on concrete payloads.  The fields of an object are listed in
    property order. *)

Module Json.

Import JsString.

Definition hex_digit (n : nat) : ascii :=
  if (n <? 10)%nat then ascii_of_nat (48 + n) else ascii_of_nat (87 + n).

Definition quote_char : ascii := ascii_of_nat 34.
Definition backslash : ascii := ascii_of_nat 92.

Definition escape_char (c : ascii) : list ascii :=
  let n := nat_of_ascii c in
  if Ascii.eqb c quote_char then [backslash; quote_char]
  else if Ascii.eqb c backslash then [backslash; backslash]
  else if (n =? 8)%nat then [backslash; "b"%char]
  else if (n =? 9)%nat then [backslash; "t"%char]
  else if (n =? 10)%nat then [backslash; "n"%char]
  else if (n =? 12)%nat then [backslash; "f"%char]
  else if (n =? 13)%nat then [backslash; "r"%char]
  else if (n <? 32)%nat
  then [backslash; "u"%char; "0"%char; "0"%char; hex_digit (n / 16); hex_digit (n mod 16)]
  else [c].

Definition quote (s : string) : string :=
  str ([quote_char] ++ flat_map escape_char (chars s) ++ [quote_char]).

(** Runs the serializations of the parts in order; the first one that
    throws ends the whole. *)
Fixpoint sequence {A : Type} (cs : list (Completion A)) : Completion (list A) :=
  match cs with
  | [] => Normal []
  | Throw e :: _ => Throw e
  | Normal a :: rest =>
      match sequence rest with
      | Normal l => Normal (a :: l)
      | Throw e => Throw e
      end
  end.

Fixpoint JSON_stringify (v : JsValue) : Completion (option string) :=
  match v with
  | JUndefined => Normal None
  | JNull => Normal (Some "null")
  | JBool true => Normal (Some "true")
  | JBool false => Normal (Some "false")
  | JNum n => Normal (Some (of_Z n))
  | JBigInt _ => Throw (Err "TypeError" "Do not know how to serialize a BigInt")
  | JStr s => Normal (Some (quote s))
  | JArr items =>
      match sequence (map JSON_stringify items) with
      | Throw e => Throw e
      | Normal parts =>
          let shown :=
            map (fun p => match p with Some s => s | None => "null" end) parts in
          Normal (Some ("[" ++ join "," shown ++ "]")%string)
      end
  | JObj fields =>
      match sequence (map (fun kv => JSON_stringify (snd kv)) fields) with
      | Throw e => Throw e
      | Normal parts =>
          let shown :=
            flat_map
              (fun kp => match snd kp with
                         | Some s => [(quote (fst kp) ++ ":" ++ s)%string]
                         | None => []
                         end)
              (combine (map fst fields) parts) in
          Normal (Some ("{" ++ join "," shown ++ "}")%string)
      end
  end.

End Json.

(* ================================================================= *)
(** ** The specification's wording, as definitions

    These follow the sentences of the specification, not the code; the
    theorems below compare them with the code. *)

Module Spec.

(** Singularization, on the word read from its end: a trailing [ies]
    becomes [y]; a trailing [ses], [xes] or [zes] loses 2 characters; a
    trailing [s] is stripped unless the word ends in [ss]; otherwise the
    word is unchanged. *)
Definition singularize (word : string) : string :=
  match rev (JsString.chars word) with
  | "s" :: "e" :: "i" :: stem => JsString.str (rev stem ++ ["y"])
  | "s" :: "e" :: "s" :: stem => JsString.str (rev ("s" :: stem))
  | "s" :: "e" :: "x" :: stem => JsString.str (rev ("x" :: stem))
  | "s" :: "e" :: "z" :: stem => JsString.str (rev ("z" :: stem))
  | "s" :: "s" :: _ => word
  | "s" :: stem => JsString.str (rev stem)
  | _ => word
  end%char.

(** The segments of a path: the non-empty pieces between slashes, after a
    leading [/api/] has been stripped. *)
Definition strip_api (l : list ascii) : list ascii :=
  match l with
  | "/" :: "a" :: "p" :: "i" :: "/" :: rest => rest
  | _ => l
  end%char.

Fixpoint pieces (cur : list ascii) (l : list ascii) : list (list ascii) :=
  match l with
  | [] => [rev cur]
  | c :: rest =>
      if Ascii.eqb c "/" then rev cur :: pieces [] rest
      else pieces (c :: cur) rest
  end.

Definition segments (path : string) : list string :=
  map JsString.str
    (filter (fun p => match p with [] => false | _ => true end)
       (pieces [] (strip_api (JsString.chars path)))).

(** A path segment: not empty and without a slash. *)
Definition is_segment (s : string) : bool :=
  JsString.truthy s
  && forallb (fun c => negb (Ascii.eqb c "/")) (JsString.chars s).

(** A decimal digit; a hexadecimal digit, in either case. *)
Definition decimal_digit (c : ascii) : bool :=
  existsb (Ascii.eqb c) (JsString.chars "0123456789").

Definition hex_digit (c : ascii) : bool :=
  existsb (Ascii.eqb c) (JsString.chars "0123456789abcdefABCDEF").

(** Purely numeric: at least one character, and decimal digits only. *)
Definition purely_numeric (s : string) : bool :=
  negb (String.eqb s "") && forallb decimal_digit (JsString.chars s).

(** The shape of a UUID: 36 characters, of which those at the positions 8,
    13, 18 and 23 (from 0) are hyphens and all others hexadecimal digits;
    that is, groups of 8, 4, 4, 4 and 12 digits between hyphens. *)
Definition hyphen_positions : list nat := [8; 13; 18; 23]%nat.

Definition uuid_shaped (s : string) : bool :=
  (List.length (JsString.chars s) =? 36)%nat
  && forallb
       (fun ic : nat * ascii =>
          if existsb (Nat.eqb (fst ic)) hyphen_positions
          then Ascii.eqb (snd ic) "-"
          else hex_digit (snd ic))
       (combine (seq 0 36) (JsString.chars s)).

(** A segment that is an id: it matches the UUID pattern or is purely
    numeric. *)
Definition looks_like_id (s : string) : bool :=
  uuid_shaped s || purely_numeric s.

(** Entity extraction on the segments: the pack name is dropped; a final
    segment that looks like an id is the entity id and the segment before
    it, singularized, is the kind (the pack name when nothing precedes it);
    otherwise the final segment, singularized, is the kind; with nothing
    after the pack name, the pack name is the kind. *)
Definition extractEntity (segs : list string) : AutoAudit.Entity :=
  match segs with
  | [] => {| AutoAudit.kind := "unknown"; AutoAudit.id := None |}
  | pack :: remaining =>
      match rev remaining with
      | [] => {| AutoAudit.kind := pack; AutoAudit.id := None |}
      | final :: before =>
          if looks_like_id final then
            {| AutoAudit.kind := match before with
                                 | preceding :: _ => singularize preceding
                                 | [] => pack
                                 end;
               AutoAudit.id := Some final |}
          else {| AutoAudit.kind := singularize final; AutoAudit.id := None |}
      end
  end.

(** The requests that the deriver skips: no context is established, or
    the write counter is above 0, or the method is not a write method and
    the status is below 400. *)
Definition skipped (input : AutoAudit.AutoAuditInput) (w : World) : Prop :=
  als w = None
  \/ exists ctx : AuditRequestContext,
       als w = Some ctx
       /\ (0 < auditWrites ctx
           \/ ((forall m : string,
                  ctx_method ctx = Some m ->
                  ~ In (JsString.toUpperCase m) ["POST"; "PUT"; "PATCH"; "DELETE"])
               /\ AutoAudit.responseStatus input < 400)).

(** The permission key of a scope mode: [audit-core.<verb>.scope.<mode>]. *)
Definition scope_key (verb : string) (m : ScopeMode.ScopeMode) : string :=
  ("audit-core." ++ verb ++ ".scope." ++ ScopeMode.mode_name m)%string.

(** The order in which the modes are probed. *)
Definition probe_order : list ScopeMode.ScopeMode :=
  [ScopeMode.none; ScopeMode.own; ScopeMode.ldd; ScopeMode.any].

(** The modes asked about when probing stops at the first granted one. *)
Fixpoint asked_until (granted : ScopeMode.ScopeMode -> bool)
  (modes : list ScopeMode.ScopeMode) : list ScopeMode.ScopeMode :=
  match modes with
  | [] => []
  | m :: rest => if granted m then [m] else m :: asked_until granted rest
  end.

(** The caller's ids in one dimension. *)
Definition ids_of (c : ApiAudit.OrgColumn) (ids : ApiAudit.OrgScopeIds) : list string :=
  match c with
  | ApiAudit.col_divisionId => ApiAudit.divisionIds ids
  | ApiAudit.col_departmentId => ApiAudit.departmentIds ids
  | ApiAudit.col_locationId => ApiAudit.locationIds ids
  end.

(** Two assignment rows have a division (department, location) in common. *)
Definition shares (c : ApiAudit.OrgColumn) (a b : ApiAudit.UserOrgAssignment) : Prop :=
  exists d : string,
    d <> "" /\ ApiAudit.column c a = Some d /\ ApiAudit.column c b = Some d.

(** The events visible under [ldd]: those of the caller, and those whose
    actor has an assignment row that shares a division, a department or a
    location with one of the caller's rows. *)
Definition ldd_visible
  (table : list ApiAudit.UserOrgAssignment) (caller : string) (event : AuditRow) : Prop :=
  actorId event = Some caller
  \/ exists a b : ApiAudit.UserOrgAssignment,
       In a table /\ In b table
       /\ actorId event = Some (ApiAudit.userKey a)
       /\ ApiAudit.userKey b = caller
       /\ (shares ApiAudit.col_divisionId a b
           \/ shares ApiAudit.col_departmentId a b
           \/ shares ApiAudit.col_locationId a b).

(** The caller has no assignment in any of the three dimensions. *)
Definition no_assignments
  (table : list ApiAudit.UserOrgAssignment) (caller : string) : Prop :=
  forall (b : ApiAudit.UserOrgAssignment) (c : ApiAudit.OrgColumn),
    In b table -> ApiAudit.userKey b = caller ->
    ApiAudit.column c b = None \/ ApiAudit.column c b = Some "".

(** A column that defaults from the context: the value supplied in the
    input when there is one, otherwise the context's value, which is null
    when the context has none either. *)
Definition defaults_from (supplied context stored : option string) : Prop :=
  (forall v : string, supplied = Some v -> stored = Some v)
  /\ (supplied = None -> stored = context).

(** The stored event type: the trimmed event type of the input when that is
    not empty, otherwise the action. *)
Definition eventType_rule (input : WriteAuditEventInput) (stored : option string) : Prop :=
  (forall t : string,
     in_eventType input = Some t -> JsString.trim t <> "" ->
     stored = Some (JsString.trim t))
  /\ (in_eventType input = None
      \/ (exists t : string, in_eventType input = Some t /\ JsString.trim t = "") ->
      stored = Some (in_action input)).

End Spec.

(* ================================================================= *)
(** ** Sample requests, on which the code is run below *)

Module Fixture.

Definition ctx_of (method path : string) : AuditRequestContext :=
  {| ctx_correlationId := Some "corr-1";
     ctx_packName := Some "crm";
     ctx_method := Some method;
     ctx_path := Some path;
     ctx_actorId := Some "user-1";
     ctx_ipAddress := None;
     ctx_userAgent := None;
     auditWrites := 0 |}.

Definition inside (ctx : AuditRequestContext) : World :=
  {| als := Some ctx; audit_events := []; insert_calls := []; console := [] |}.

Definition outside : World :=
  {| als := None; audit_events := []; insert_calls := []; console := [] |}.

Definition accepting_db : DbHandle := {| insert_rejects := fun _ _ => None |}.

Definition connection_refused : JsError := Err "Error" "connection refused".

Definition rejecting_db : DbHandle :=
  {| insert_rejects := fun _ _ => Some connection_refused |}.

Definition app_with (db : DbHandle) : AppDbModule :=
  {| import_db := Normal tt; getDb := Normal db |}.

Definition app_without_db : AppDbModule :=
  {| import_db := Throw (Err "Error" "Cannot find module '@/lib/db'");
     getDb := Normal accepting_db |}.

Definition auto_input (status : Z) (request response : JsValue)
  : AutoAudit.AutoAuditInput :=
  {| AutoAudit.responseStatus := status;
     AutoAudit.responseBody := response;
     AutoAudit.requestBody := request;
     AutoAudit.durationMs := Some 12;
     AutoAudit.input_actorId := None;
     AutoAudit.dbTimeMs := None;
     AutoAudit.moduleTimeMs := None;
     AutoAudit.slowQueries := None |}.

Definition write_input (correlation eventType : option string) : WriteAuditEventInput :=
  {| in_entityKind := "contact";
     in_entityId := Some "123";
     in_action := "archived";
     in_summary := "Archived contact (123)";
     in_details := None;
     in_changes := None;
     in_eventType := eventType;
     in_outcome := None;
     in_targetKind := None;
     in_targetId := None;
     in_targetName := None;
     in_sessionId := None;
     in_authMethod := None;
     in_mfaMethod := None;
     in_errorCode := None;
     in_errorMessage := None;
     in_actorId := "user-1";
     in_actorName := None;
     in_actorType := None;
     in_correlationId := correlation;
     in_packName := None;
     in_method := None;
     in_path := None;
     in_ipAddress := None;
     in_userAgent := None |}.

(** A permission check that grants exactly the listed keys. *)
Definition grants (keys : list string) : ScopeMode.PermissionCheck :=
  fun key => {| ScopeMode.ok := existsb (String.eqb key) keys |}.

Definition assignment (user : string) (division department : option string)
  : ApiAudit.UserOrgAssignment :=
  {| ApiAudit.userKey := user;
     ApiAudit.divisionId := division;
     ApiAudit.departmentId := department;
     ApiAudit.locationId := None |}.

(** Alice and Bob share the division [d1]; Carol is in [d2]; Dave has a row
    without any assignment. *)
Definition org_table : list ApiAudit.UserOrgAssignment :=
  [assignment "alice" (Some "d1") (Some "sales");
   assignment "bob" (Some "d1") None;
   assignment "carol" (Some "d2") None;
   assignment "dave" None (Some "")].

Definition event_by (actor : string) : AuditRow :=
  writeAuditEvent_values None
    {| in_entityKind := "contact";
       in_entityId := None;
       in_action := "updated";
       in_summary := "Updated contact";
       in_details := None;
       in_changes := None;
       in_eventType := None;
       in_outcome := None;
       in_targetKind := None;
       in_targetId := None;
       in_targetName := None;
       in_sessionId := None;
       in_authMethod := None;
       in_mfaMethod := None;
       in_errorCode := None;
       in_errorMessage := None;
       in_actorId := actor;
       in_actorName := None;
       in_actorType := None;
       in_correlationId := None;
       in_packName := None;
       in_method := None;
       in_path := None;
       in_ipAddress := None;
       in_userAgent := None |}.

(** A text of 4001 characters. *)
Definition long_text : string := JsString.str (repeat "a"%char 4001).

End Fixture.

(* ================================================================= *)
(** ** server/auth: the caller of a request *)

Module Auth.

Import JsString.

(** What the code reads of a request: the value of the [hit_token] cookie
    and the [authorization] and [x-user-id] headers. *)
Record Request : Type := {
  cookie_hit_token : option string;
  header_authorization : option string;
  header_x_user_id : option string
}.

(** The claims that the code reads of a token payload, with the types a
    JWT gives them. *)
Record Payload : Type := {
  payload_sub : option string;
  payload_email : option string;
  payload_roles : option (list string);
  payload_exp : option Z
}.

Record User : Type := { sub : string; email : string; roles : list string }.

(** [a || b] on strings. *)
Definition string_or (a : option string) (b : string) : string :=
  match a with
  | Some s => if JsString.truthy s then s else b
  | None => b
  end.

(** The token after the cookie and the [authorization] header have been
    looked at. *)
Definition bearer_token (request : Request) : option string :=
  let token := cookie_hit_token request in
  if negb (AutoAudit.some_truthy token) then
    match header_authorization request with
    | Some authHeader =>
        if startsWith authHeader "Bearer " then Some (slice_from authHeader 7)
        else token
    | None => token
    end
  else token.

Section Decoder.

(** [JSON.parse(atob(part))], which throws on a part that is not the
    encoding of a payload, and [Date.now()]. *)
Variable parse_payload : string -> Completion Payload.
Variable now : Z.

(** [if (!token) return null], then the [try] block. *)
Definition user_of_token (token : option string) : option User :=
  match token with
  | None => None
  | Some token =>
      if negb (JsString.truthy token) then None
      else
        let parts := split "." token in
        if negb (List.length parts =? 3)%nat then None
        else
          match parse_payload (nth 1 parts "") with
          | Throw _ => None
          | Normal payload =>
              let expired :=
                match payload_exp payload with
                | Some exp => negb (exp =? 0) && (exp * 1000 <? now)
                | None => false
                end in
              if expired then None
              else
                Some {| sub := string_or (payload_sub payload)
                                 (string_or (payload_email payload) "");
                        email := string_or (payload_email payload) "";
                        roles := match payload_roles payload with
                                 | Some r => r
                                 | None => []
                                 end |}
          end
  end.

(** [extractUserFromRequest] of src/server/auth.ts, which trusts the
    [x-user-id] header. *)
Definition extractUserFromRequest (request : Request) : option User :=
  let token := bearer_token request in
  match header_x_user_id request with
  | Some xUserId =>
      if JsString.truthy xUserId
      then Some {| sub := xUserId; email := ""; roles := [] |}
      else user_of_token token
  | None => user_of_token token
  end.

(** [user?.sub || null] *)
Definition getUserId (request : Request) : option string :=
  match extractUserFromRequest request with
  | Some user => if JsString.truthy (sub user) then Some (sub user) else None
  | None => None
  end.

(** [roles.includes('admin')] *)
Definition isAdmin (request : Request) : bool :=
  match extractUserFromRequest request with
  | Some user => existsb (String.eqb "admin") (roles user)
  | None => false
  end.

(** The same three functions in dist/server/auth.js, which does not look
    at [x-user-id]. *)
Definition extractUserFromRequest_dist (request : Request) : option User :=
  user_of_token (bearer_token request).

Definition getUserId_dist (request : Request) : option string :=
  match extractUserFromRequest_dist request with
  | Some user => if JsString.truthy (sub user) then Some (sub user) else None
  | None => None
  end.

Definition isAdmin_dist (request : Request) : bool :=
  match extractUserFromRequest_dist request with
  | Some user => existsb (String.eqb "admin") (roles user)
  | None => false
  end.

(** The guard at the head of [GET]: the status of the error response, or
    [None] when the request goes on.  In src/server/api/audit.ts:
    [if (!user || !user.sub) return jsonError('Unauthorized', 401)]. *)
Definition GET_guard (request : Request) : option Z :=
  match extractUserFromRequest request with
  | Some user => if JsString.truthy (sub user) then None else Some 401
  | None => Some 401
  end.

(** In dist/server/api/audit.js: 401 without a user id, 403 without the
    admin role. *)
Definition GET_guard_dist (request : Request) : option Z :=
  match getUserId_dist request with
  | None => Some 401
  | Some _ => if negb (isAdmin_dist request) then Some 403 else None
  end.

End Decoder.

End Auth.

(* ================================================================= *)
(** ** server/api/audit: equality filters and pagination of [GET] *)

Module ApiAuditQuery.

Import JsString.

(** The columns of [audit_events] that [GET] filters by equality. *)
Inductive FilterColumn : Type :=
| col_entityKind | col_entityId | col_action | col_actorId | col_actorType
| col_correlationId | col_packName | col_method | col_eventType | col_outcome
| col_targetKind | col_targetId | col_sessionId.

Definition actorType_label (t : AuditActorType) : string :=
  match t with
  | actor_user => "user"
  | actor_system => "system"
  | actor_api => "api"
  end.

Definition outcome_label (o : AuditOutcome) : string :=
  match o with
  | outcome_success => "success"
  | outcome_failure => "failure"
  | outcome_denied => "denied"
  | outcome_error => "error"
  end.

(** The value of a column of a row, as text; the two enum columns by
    their labels. *)
Definition column_text (c : FilterColumn) (row : AuditRow) : option string :=
  match c with
  | col_entityKind => Some (entityKind row)
  | col_entityId => entityId row
  | col_action => Some (action row)
  | col_actorId => actorId row
  | col_actorType => Some (actorType_label (actorType row))
  | col_correlationId => correlationId row
  | col_packName => packName row
  | col_method => method row
  | col_eventType => eventType row
  | col_outcome => option_map outcome_label (outcome row)
  | col_targetKind => targetKind row
  | col_targetId => targetId row
  | col_sessionId => sessionId row
  end.

(** [eq(auditEvents.<column>, value)] *)
Inductive FilterCondition : Type := eq_column (c : FilterColumn) (value : string).

(** [String(url.searchParams.get(key) || '').trim()] *)
Definition text_param (get : string -> option string) (key : string) : string :=
  trim (match get key with
        | Some s => if JsString.truthy s then s else ""
        | None => ""
        end).

(** [if (value) whereParts.push(eq(column, value))] *)
Definition push_eq (c : FilterColumn) (value : string) : list FilterCondition :=
  if JsString.truthy value then [eq_column c value] else [].

(** The equality filters that [GET] pushes on [whereParts], in order; [get]
    is [url.searchParams.get]. *)
Definition equality_whereParts (get : string -> option string) : list FilterCondition :=
  let entityKind := text_param get "entityKind" in
  let entityId := text_param get "entityId" in
  let action := text_param get "action" in
  let actorId := text_param get "actorId" in
  let actorType := text_param get "actorType" in
  let correlationId := text_param get "correlationId" in
  let packName := text_param get "packName" in
  let method := toUpperCase (text_param get "method") in
  let eventType := text_param get "eventType" in
  let outcome := text_param get "outcome" in
  let targetKind := text_param get "targetKind" in
  let targetId := text_param get "targetId" in
  let sessionId := text_param get "sessionId" in
  push_eq col_entityKind entityKind
  ++ push_eq col_entityId entityId
  ++ push_eq col_action action
  ++ push_eq col_actorId actorId
  ++ push_eq col_actorType actorType
  ++ push_eq col_correlationId correlationId
  ++ push_eq col_packName packName
  ++ push_eq col_method method
  ++ push_eq col_eventType eventType
  ++ push_eq col_outcome outcome
  ++ push_eq col_targetKind targetKind
  ++ push_eq col_targetId targetId
  ++ push_eq col_sessionId sessionId.

(** The meaning of an equality condition on a row, for a value that the
    column's type admits: true when the column is not null and equal. *)
Definition filter_accepts (c : FilterCondition) (row : AuditRow) : bool :=
  match c with
  | eq_column col value =>
      ApiAudit.is_true (ApiAudit.sql_eq (column_text col row) (Some value))
  end.

(** [and(...parts)]: a row is selected when every part is true on it. *)
Definition filters_accept (parts : list FilterCondition) (row : AuditRow) : bool :=
  forallb (fun c => filter_accepts c row) parts.

(** [and(...whereParts)] for the scope conditions: no condition selects
    every row. *)
Definition where_accepts
  (table : list ApiAudit.UserOrgAssignment) (parts : list ApiAudit.SqlCondition)
  (event : AuditRow) : bool :=
  forallb (fun c => ApiAudit.accepts table c event) parts.

(** The scope conditions of a request: the mode is resolved for the verb
    [read], then compiled. *)
Definition GET_scope
  (check : ScopeMode.PermissionCheck) (user_sub : string)
  (table : list ApiAudit.UserOrgAssignment) : list ApiAudit.SqlCondition :=
  let mode := snd (ScopeMode.resolveAuditCoreScopeMode check "read") in
  ApiAudit.scope_whereParts mode user_sub table.

Record Pagination : Type := { page : Z; pageSize : Z; total : Z; totalPages : Z }.

Record Response (A : Type) : Type := { items : list A; pagination : Pagination }.
Arguments items {A} r.
Arguments pagination {A} r.

(** [Math.ceil(a / b)] for a positive [b]. *)
Definition ceil_div (a b : Z) : Z := - ((- a) / b).

Section Numbers.

(** [Number(s)] on a query parameter that is a whole number or not a
    number at all; [None] is NaN. *)
Variable Number : string -> option Z.

(** [Number(param || dflt) || dflt], for a default that is not 0. *)
Definition number_param (param : option string) (dflt : Z) : Z :=
  let n :=
    match param with
    | Some s => if JsString.truthy s then Number s else Some dflt
    | None => Some dflt
    end in
  match n with
  | Some k => if k =? 0 then dflt else k
  | None => dflt
  end.

Definition page_of (get : string -> option string) : Z :=
  Z.max 1 (number_param (get "page") 1).

Definition pageSize_of (get : string -> option string) : Z :=
  Z.min 100 (Z.max 1 (number_param (get "pageSize") 25)).

Definition offset_of (get : string -> option string) : Z :=
  (page_of get - 1) * pageSize_of get.

(** The end of [GET]: [matching] are the rows that the [where] clause
    selects, in the order of [orderBy(desc(createdAt))]; the count query
    counts them and the select takes [limit(pageSize).offset(offset)]. *)
Definition GET_response {A : Type} (get : string -> option string) (matching : list A)
  : Response A :=
  let total := Z.of_nat (List.length matching) in
  {| items := firstn (Z.to_nat (pageSize_of get))
                (skipn (Z.to_nat (offset_of get)) matching);
     pagination :=
       {| page := page_of get;
          pageSize := pageSize_of get;
          total := total;
          totalPages := ceil_div total (pageSize_of get) |} |}.

End Numbers.

(** The query parameter that a column is filtered by, and the value the
    column is compared with. *)
Definition param_key (c : FilterColumn) : string :=
  match c with
  | col_entityKind => "entityKind"
  | col_entityId => "entityId"
  | col_action => "action"
  | col_actorId => "actorId"
  | col_actorType => "actorType"
  | col_correlationId => "correlationId"
  | col_packName => "packName"
  | col_method => "method"
  | col_eventType => "eventType"
  | col_outcome => "outcome"
  | col_targetKind => "targetKind"
  | col_targetId => "targetId"
  | col_sessionId => "sessionId"
  end.

Definition filter_value (get : string -> option string) (c : FilterColumn) : string :=
  match c with
  | col_method => toUpperCase (text_param get "method")
  | _ => text_param get (param_key c)
  end.

End ApiAuditQuery.

(* ================================================================= *)
(** ** Comparing the two derivers *)

(** A row with its details set to null, which is how the deriver of
    src/server/api/audit.ts stores it. *)
Definition without_details (row : AuditRow) : AuditRow :=
  {| entityKind := entityKind row;
     entityId := entityId row;
     action := action row;
     summary := summary row;
     details := None;
     changes := changes row;
     eventType := eventType row;
     outcome := outcome row;
     targetKind := targetKind row;
     targetId := targetId row;
     targetName := targetName row;
     sessionId := sessionId row;
     authMethod := authMethod row;
     mfaMethod := mfaMethod row;
     errorCode := errorCode row;
     errorMessage := errorMessage row;
     actorId := actorId row;
     actorName := actorName row;
     actorType := actorType row;
     correlationId := correlationId row;
     packName := packName row;
     method := method row;
     path := path row;
     ipAddress := ipAddress row;
     userAgent := userAgent row |}.

(* ================================================================= *)
(** ** Further sample requests *)

Module Sample.

Import JsString.

(** A payload decoder that knows two tokens' middle parts. *)
Definition parse_payload (part : string) : Completion Auth.Payload :=
  if String.eqb part "alice" then
    Normal {| Auth.payload_sub := Some "alice";
              Auth.payload_email := Some "alice@example.com";
              Auth.payload_roles := Some ["admin"];
              Auth.payload_exp := Some 2000 |}
  else if String.eqb part "old" then
    Normal {| Auth.payload_sub := Some "bob";
              Auth.payload_email := None;
              Auth.payload_roles := Some ["admin"];
              Auth.payload_exp := Some 1000 |}
  else Throw (Err "SyntaxError" "Unexpected token").

(** One and a half million milliseconds after the epoch. *)
Definition now : Z := 1500000.

Definition request (cookie authorization x_user_id : option string) : Auth.Request :=
  {| Auth.cookie_hit_token := cookie;
     Auth.header_authorization := authorization;
     Auth.header_x_user_id := x_user_id |}.

(** Query parameters given as a list of pairs. *)
Fixpoint query (params : list (string * string)) (key : string) : option string :=
  match params with
  | [] => None
  | (k, v) :: rest => if String.eqb key k then Some v else query rest key
  end.

(** [Number(s)] on the decimal numerals without sign. *)
Definition Number (s : string) : option Z :=
  if AutoAudit.numericPattern s
  then Some (Z.of_N (fold_left (fun acc c => 10 * acc + (N_of_ascii c - 48))
                       (chars s) 0))%N
  else None.

Definition slow (sql : string) (ms : Z) : AutoAudit.SlowQueryRecord :=
  {| AutoAudit.sq_sql := sql; AutoAudit.sq_durationMs := ms |}.

(** The input of a successful request that took [ms] milliseconds and
    recorded the slow queries [qs]. *)
Definition timed_input (ms : Z) (qs : list AutoAudit.SlowQueryRecord)
  : AutoAudit.AutoAuditInput :=
  {| AutoAudit.responseStatus := 200;
     AutoAudit.responseBody := JUndefined;
     AutoAudit.requestBody := JUndefined;
     AutoAudit.durationMs := Some ms;
     AutoAudit.input_actorId := None;
     AutoAudit.dbTimeMs := Some 7;
     AutoAudit.moduleTimeMs := None;
     AutoAudit.slowQueries := Some qs |}.

End Sample.

(* ================================================================= *)
(** * Properties *)

(** ** Strings *)

Section StringFacts.

Import JsString.

Lemma chars_str (l : list ascii) : chars (str l) = l.
Proof. apply list_ascii_of_string_of_list_ascii. Qed.

Lemma str_chars (s : string) : str (chars s) = s.
Proof. apply string_of_list_ascii_of_string. Qed.

Lemma length_chars (s : string) : List.length (chars s) = String.length s.
Proof.
  induction s as [|c s IH]; simpl; [reflexivity|].
  now rewrite IH.
Qed.

Lemma chars_append (a b : string) : chars (a ++ b)%string = chars a ++ chars b.
Proof.
  induction a as [|c a IH]; simpl; [reflexivity|].
  now rewrite IH.
Qed.

Lemma str_app (a b : list ascii) : str (a ++ b) = (str a ++ str b)%string.
Proof.
  induction a as [|c a IH]; simpl; [reflexivity|].
  now rewrite IH.
Qed.

Lemma eqb_str (l : list ascii) (p : string) :
  String.eqb (str l) p = true <-> l = chars p.
Proof.
  rewrite String.eqb_eq. split; intros H.
  - rewrite <- H. symmetry. apply chars_str.
  - rewrite H. apply str_chars.
Qed.

Lemma starts_iff (p l : list ascii) :
  starts p l = true <-> exists rest, l = p ++ rest.
Proof.
  revert l. induction p as [|a p IH]; intros l; simpl.
  - split; [intros _; now exists l | reflexivity].
  - destruct l as [|b l].
    + split; [discriminate | intros [rest H]; discriminate].
    + rewrite andb_true_iff, Ascii.eqb_eq, IH. split.
      * intros [-> [rest ->]]. now exists rest.
      * intros [rest H]. injection H as -> ->. split; [reflexivity | now exists rest].
Qed.

(** [endsWith] looks at the end of the word: it is a prefix test on the
    reversed characters. *)
Lemma endsWith_rev (w p : string) :
  endsWith w p = starts (rev (chars p)) (rev (chars w)).
Proof.
  apply eq_true_iff_eq. unfold endsWith.
  rewrite andb_true_iff, Nat.leb_le, eqb_str, starts_iff.
  rewrite <- !length_chars.
  set (l := chars w). set (q := chars p).
  split.
  - intros [Hlen Heq].
    remember (List.length l - List.length q)%nat as k.
    exists (rev (firstn k l)).
    rewrite <- Heq, <- rev_app_distr. now rewrite firstn_skipn.
  - intros [rest H].
    assert (Hl : l = rev rest ++ q).
    { rewrite <- (rev_involutive l), H, rev_app_distr. now rewrite rev_involutive. }
    split.
    + rewrite Hl, length_app. lia.
    + rewrite Hl, length_app.
      replace (List.length (rev rest) + List.length q - List.length q)%nat
        with (List.length (rev rest) + 0)%nat by lia.
      rewrite skipn_app, Nat.add_comm.
      replace (0 + List.length (rev rest) - List.length (rev rest))%nat with 0%nat by lia.
      rewrite skipn_all2 by (simpl; lia). reflexivity.
Qed.

(** Dropping the last [n] characters with [slice(0, -n)]. *)
Lemma slice_drop_last (w : string) (n : nat) :
  (0 < n)%nat ->
  slice w 0 (- Z.of_nat n) = str (rev (skipn n (rev (chars w)))).
Proof.
  intros Hn. unfold slice, clamp, JsString.length.
  rewrite <- length_chars. set (l := chars w).
  replace (0 <? 0) with false by reflexivity.
  replace (- Z.of_nat n <? 0) with true by (symmetry; apply Z.ltb_lt; lia).
  rewrite Z.min_l by lia. simpl (Z.to_nat 0). rewrite skipn_O.
  f_equal.
  rewrite skipn_rev, rev_involutive.
  f_equal. lia.
Qed.

End StringFacts.

(** ** Entity extraction *)

Section EntityFacts.

Import JsString.

Ltac ascii_cases a :=
  destruct a as [[] [] [] [] [] [] [] []]; try reflexivity.

(** The code's [singularize] computes what the specification's sentence
    describes. *)
Lemma singularize_refines (word : string) :
  AutoAudit.singularize word = Spec.singularize word.
Proof.
  unfold AutoAudit.singularize, Spec.singularize.
  rewrite !endsWith_rev.
  change (-3) with (- Z.of_nat 3). change (-2) with (- Z.of_nat 2).
  change (-1) with (- Z.of_nat 1).
  rewrite !slice_drop_last by lia.
  remember (rev (chars word)) as r eqn:Hr. clear Hr.
  destruct r as [|a r]; [reflexivity|].
  ascii_cases a.
  destruct r as [|b r]; [reflexivity|].
  ascii_cases b.
  - destruct r as [|c r]; [reflexivity|].
    ascii_cases c.
    cbn. now rewrite str_app.
Qed.

Lemma length_str (l : list ascii) : String.length (str l) = List.length l.
Proof. now rewrite <- length_chars, chars_str. Qed.

(** The regular-expression replace strips exactly a leading [/api/]. *)
Lemma replace_api_prefix_spec (l : list ascii) :
  AutoAudit.replace_api_prefix (str l) = str (Spec.strip_api l).
Proof.
  unfold AutoAudit.replace_api_prefix, startsWith, slice_from, slice, clamp,
    JsString.length.
  rewrite chars_str, length_str.
  destruct l as [|c1 l]; [reflexivity|]. ascii_cases c1.
  destruct l as [|c2 l]; [reflexivity|]. ascii_cases c2.
  destruct l as [|c3 l]; [reflexivity|]. ascii_cases c3.
  destruct l as [|c4 l]; [reflexivity|]. ascii_cases c4.
  destruct l as [|c5 l]; [reflexivity|]. ascii_cases c5.
  cbn [firstn str string_of_list_ascii String.length String.eqb Ascii.eqb Bool.eqb andb].
  cbn [Spec.strip_api].
  replace (5 <? 0) with false by reflexivity.
  replace (Z.of_nat (List.length (_ :: _ :: _ :: _ :: _ :: l)) <? 0) with false
    by (symmetry; apply Z.ltb_ge; lia).
  rewrite Z.min_id. rewrite !Z.min_l by (cbn [List.length]; lia).
  change (Z.to_nat 5) with 5%nat. cbn [skipn].
  f_equal. apply firstn_all2. cbn [List.length]. lia.
Qed.

Lemma split_not_nil (sep : ascii) (s : string) : split sep s <> [].
Proof.
  destruct s as [|c s]; simpl; [discriminate|].
  destruct (Ascii.eqb c sep); [discriminate|].
  destruct (split sep s); discriminate.
Qed.

(** [split] cuts the path at the slashes. *)
Lemma pieces_split (l cur : list ascii) :
  Spec.pieces cur l =
  match split "/" (str l) with
  | h :: t => (rev cur ++ chars h) :: map chars t
  | [] => [rev cur]
  end.
Proof.
  revert cur. induction l as [|c l IH]; intros cur; simpl.
  - now rewrite app_nil_r.
  - destruct (Ascii.eqb c "/").
    + rewrite (IH []). simpl. rewrite app_nil_r.
      destruct (split "/" (str l)) as [|h t] eqn:E; [|reflexivity].
      now apply split_not_nil in E.
    + rewrite (IH (c :: cur)). simpl.
      destruct (split "/" (str l)) as [|h t] eqn:E.
      * now apply split_not_nil in E.
      * simpl. now rewrite <- app_assoc.
Qed.

Lemma truthy_chars (s : string) :
  JsString.truthy s = match chars s with [] => false | _ => true end.
Proof. destruct s; reflexivity. Qed.

(** The segments of the code are the segments of the specification. *)
Lemma segments_refines (path : string) :
  filter JsString.truthy (split "/" (AutoAudit.replace_api_prefix path))
  = Spec.segments path.
Proof.
  unfold Spec.segments.
  rewrite <- (str_chars path) at 1. rewrite replace_api_prefix_spec.
  rewrite (pieces_split _ []). simpl rev. simpl app.
  generalize (Spec.strip_api (chars path)) as l. intros l.
  destruct (split "/" (str l)) as [|h t] eqn:E; [now apply split_not_nil in E|].
  change (chars h :: map chars t) with (map chars (h :: t)).
  generalize (h :: t) as ss. clear. intros ss.
  induction ss as [|x ss IH]; simpl; [reflexivity|].
  rewrite truthy_chars.
  destruct (chars x) as [|a l] eqn:Ex; simpl; rewrite IH; [reflexivity|].
  f_equal. change (String a (str l)) with (str (a :: l)).
  now rewrite <- Ex, str_chars.
Qed.

Lemma nth_last (A : Type) (l : list A) (x d : A) :
  nth (List.length (l ++ [x]) - 1) (l ++ [x]) d = x.
Proof.
  rewrite length_app. simpl.
  replace (List.length l + 1 - 1)%nat with (List.length l) by lia.
  rewrite app_nth2 by lia. now rewrite Nat.sub_diag.
Qed.

Lemma nth_before_last (A : Type) (l : list A) (y x d : A) :
  nth (List.length (l ++ [y; x]) - 2) (l ++ [y; x]) d = y.
Proof.
  rewrite length_app. simpl.
  replace (List.length l + 2 - 2)%nat with (List.length l) by lia.
  rewrite app_nth2 by lia. now rewrite Nat.sub_diag.
Qed.

(** Reading the last segments by index is reading the reversed list from
    its head. *)
Lemma is_digit_spec (c : ascii) : JsString.is_digit c = Spec.decimal_digit c.
Proof. destruct c as [[] [] [] [] [] [] [] []]; reflexivity. Qed.

Lemma is_hex_spec (c : ascii) : AutoAudit.is_hex c = Spec.hex_digit c.
Proof. destruct c as [[] [] [] [] [] [] [] []]; reflexivity. Qed.

Lemma numericPattern_refines (s : string) :
  AutoAudit.numericPattern s = Spec.purely_numeric s.
Proof.
  unfold AutoAudit.numericPattern, Spec.purely_numeric.
  destruct s as [|c s]; [reflexivity|].
  cbn [JsString.chars list_ascii_of_string String.eqb negb andb].
  generalize (c :: list_ascii_of_string s). intros l.
  induction l as [|x l IH]; [reflexivity|].
  cbn [forallb]. now rewrite IH, is_digit_spec.
Qed.

Lemma matches_groups_length
  (groups : list (nat * (ascii -> bool))) (l : list ascii) :
  JsString.matches_groups groups l = true ->
  List.length l = list_sum (map fst groups).
Proof.
  revert l. induction groups as [|[n cls] groups IH]; intros l.
  - cbn. destruct l; [reflexivity | discriminate].
  - cbn [JsString.matches_groups]. intros H.
    apply andb_true_iff in H. destruct H as [H Hrest].
    apply andb_true_iff in H. destruct H as [Hn _].
    apply Nat.eqb_eq in Hn. apply IH in Hrest.
    change (list_sum (map fst ((n, cls) :: groups)))
      with (n + list_sum (map fst groups))%nat.
    rewrite <- (firstn_skipn n l) at 1. rewrite length_app. lia.
Qed.

Lemma uuidPattern_refines (s : string) :
  AutoAudit.uuidPattern s = Spec.uuid_shaped s.
Proof.
  unfold AutoAudit.uuidPattern, Spec.uuid_shaped.
  destruct (Nat.eqb_spec (List.length (JsString.chars s)) 36) as [Hlen | Hlen].
  - generalize dependent (JsString.chars s). intros l Hlen.
    do 36 (destruct l as [|? l]; [discriminate Hlen|]).
    destruct l; [|discriminate Hlen].
    cbn [JsString.matches_groups firstn skipn forallb List.length Nat.eqb andb
         combine seq existsb fst snd orb Spec.hyphen_positions].
    unfold AutoAudit.is_dash. rewrite !is_hex_spec.
    rewrite ?andb_true_r. rewrite <- ?andb_assoc. reflexivity.
  - cbn [andb].
    destruct (JsString.matches_groups _ (JsString.chars s)) eqn:Hmatch; [|reflexivity].
    apply matches_groups_length in Hmatch. contradiction Hlen.
Qed.

Lemma looks_like_id_refines (s : string) :
  AutoAudit.uuidPattern s || AutoAudit.numericPattern s = Spec.looks_like_id s.
Proof.
  unfold Spec.looks_like_id.
  now rewrite uuidPattern_refines, numericPattern_refines.
Qed.

Lemma extractEntityFromPath_refines (path : string) :
  AutoAudit.extractEntityFromPath path = Spec.extractEntity (Spec.segments path).
Proof.
  unfold AutoAudit.extractEntityFromPath.
  rewrite segments_refines.
  destruct (Spec.segments path) as [|pack remaining]; [reflexivity|].
  cbn [List.length Nat.eqb skipn nth Spec.extractEntity].
  rewrite <- (rev_involutive remaining).
  destruct (rev remaining) as [|final before]; [reflexivity|].
  rewrite rev_involutive. cbn [rev].
  rewrite nth_last.
  replace (List.length (rev before ++ [final]) =? 0)%nat with false
    by (symmetry; apply Nat.eqb_neq; rewrite length_app; cbn [List.length]; lia).
  rewrite looks_like_id_refines.
  destruct (Spec.looks_like_id final).
  - destruct before as [|preceding before].
    + reflexivity.
    + cbn [rev]. rewrite <- app_assoc. cbn [app].
      rewrite nth_before_last, singularize_refines.
      replace (2 <=? List.length (rev before ++ [preceding; final]))%nat with true
        by (symmetry; apply Nat.leb_le; rewrite length_app; cbn [List.length]; lia).
      reflexivity.
  - now rewrite singularize_refines.
Qed.

Lemma pieces_segment (l cur rest : list ascii) :
  forallb (fun c => negb (Ascii.eqb c "/")) l = true ->
  Spec.pieces cur (l ++ rest) = Spec.pieces (rev l ++ cur) rest.
Proof.
  revert cur. induction l as [|c l IH]; intros cur H; [reflexivity|].
  cbn [forallb] in H. apply andb_true_iff in H. destruct H as [Hc Hl].
  apply negb_true_iff in Hc. cbn [app Spec.pieces]. rewrite Hc.
  rewrite (IH _ Hl). cbn [rev]. now rewrite <- app_assoc.
Qed.

Lemma is_segment_chars (s : string) :
  Spec.is_segment s = true ->
  JsString.chars s <> []
  /\ forallb (fun c => negb (Ascii.eqb c "/")) (JsString.chars s) = true.
Proof.
  unfold Spec.is_segment. rewrite andb_true_iff, truthy_chars.
  intros [H1 H2]. split; [|assumption].
  destruct (JsString.chars s); [discriminate H1 | discriminate].
Qed.

(** Cutting a path that was joined from segments gives the segments back. *)
Lemma pieces_of_joined (segs : list string) :
  forallb Spec.is_segment segs = true ->
  filter (fun p => match p with [] => false | _ => true end)
    (Spec.pieces [] (chars (join "/" segs)))
  = map chars segs.
Proof.
  induction segs as [|s segs IH]; intros H; [reflexivity|].
  cbn [forallb] in H. apply andb_true_iff in H. destruct H as [Hs Hsegs].
  destruct (is_segment_chars s Hs) as [Hne Hfree].
  destruct segs as [|s' segs].
  - cbn [join map]. rewrite <- (app_nil_r (chars s)) at 1.
    rewrite pieces_segment by assumption.
    cbn [Spec.pieces filter]. rewrite app_nil_r, rev_involutive.
    destruct (chars s); [now contradiction Hne | reflexivity].
  - change (join "/" (s :: s' :: segs)) with (s ++ "/" ++ join "/" (s' :: segs))%string.
    rewrite !chars_append, pieces_segment by assumption.
    cbn [chars list_ascii_of_string app Spec.pieces Ascii.eqb Bool.eqb andb].
    cbn [filter]. rewrite app_nil_r, rev_involutive.
    specialize (IH Hsegs).
    destruct (chars s) eqn:E; [now contradiction Hne|].
    cbn [map]. rewrite E. f_equal. exact IH.
Qed.

Lemma segments_of_joined (segs : list string) :
  forallb Spec.is_segment segs = true ->
  Spec.segments ("/api/" ++ join "/" segs) = segs.
Proof.
  intros H. unfold Spec.segments.
  change (chars ("/api/" ++ join "/" segs))
    with ("/"%char :: "a"%char :: "p"%char :: "i"%char :: "/"%char
          :: chars (join "/" segs)).
  cbn [Spec.strip_api]. rewrite (pieces_of_joined segs H), map_map.
  rewrite <- (map_id segs) at 2. apply map_ext. intros s. apply str_chars.
Qed.

End EntityFacts.

(** C5.  Entity extraction from the path.  For every path,
    [extractEntityFromPath] returns what the specification describes on
    the path's segments (a leading [/api/] stripped, the pack name dropped,
    a final UUID or numeric segment taken as the id with the singularized
    segment before it as the kind, the pack name standing in when nothing
    precedes or follows), and [singularize] is the specification's
    singularization: [ies] becomes [y], [ses]/[xes]/[zes] lose 2
    characters, a final [s] is stripped unless the word ends in [ss].  The
    segments that are ids are those of 36 characters with hyphens at the
    positions 8, 13, 18 and 23 and hexadecimal digits of either case
    elsewhere, and those that are not empty and hold decimal digits only:
    the two tests of the code accept exactly these.  So a path
    [/api/<pack>/.../<resource>/<id>] gives the singular of the resource
    with the id, and a path that ends in a resource gives its singular
    with a null id.  The three example paths give contact/123, entry/456
    and item/null; a UUID in lower or upper case is an id, while a segment
    that misses the shape by one character, and a numeral followed by a
    letter, are kinds. *)
Theorem extractEntityFromPath_meets_spec :
  (forall path : string,
     AutoAudit.extractEntityFromPath path
     = Spec.extractEntity (Spec.segments path))
  /\ (forall word : string, AutoAudit.singularize word = Spec.singularize word)
  /\ (forall segment : string,
        AutoAudit.uuidPattern segment = Spec.uuid_shaped segment
        /\ AutoAudit.numericPattern segment = Spec.purely_numeric segment)
  /\ (forall stem : string,
        AutoAudit.singularize (stem ++ "ies") = (stem ++ "y")%string
        /\ AutoAudit.singularize (stem ++ "ses") = (stem ++ "s")%string
        /\ AutoAudit.singularize (stem ++ "xes") = (stem ++ "x")%string
        /\ AutoAudit.singularize (stem ++ "zes") = (stem ++ "z")%string
        /\ AutoAudit.singularize (stem ++ "ss") = (stem ++ "ss")%string)
  /\ (forall (pack resource : string) (parents : list string),
        forallb Spec.is_segment (pack :: parents ++ [resource]) = true ->
        (forall ident : string,
           Spec.is_segment ident = true -> Spec.looks_like_id ident = true ->
           AutoAudit.extractEntityFromPath
             ("/api/" ++ JsString.join "/" (pack :: parents ++ [resource; ident]))
           = {| AutoAudit.kind := AutoAudit.singularize resource;
                AutoAudit.id := Some ident |})
        /\ (Spec.looks_like_id resource = false ->
            AutoAudit.extractEntityFromPath
              ("/api/" ++ JsString.join "/" (pack :: parents ++ [resource]))
            = {| AutoAudit.kind := AutoAudit.singularize resource;
                 AutoAudit.id := None |}))
  /\ (AutoAudit.extractEntityFromPath "/api/crm/contacts/123"
      = {| AutoAudit.kind := "contact"; AutoAudit.id := Some "123" |}
      /\ AutoAudit.extractEntityFromPath "/api/forms/xyz/entries/456"
         = {| AutoAudit.kind := "entry"; AutoAudit.id := Some "456" |}
      /\ AutoAudit.extractEntityFromPath "/api/vault/folders/abc/items"
         = {| AutoAudit.kind := "item"; AutoAudit.id := None |})
  /\ (AutoAudit.extractEntityFromPath
        "/api/crm/contacts/123e4567-e89b-12d3-a456-426614174000"
      = {| AutoAudit.kind := "contact";
           AutoAudit.id := Some "123e4567-e89b-12d3-a456-426614174000" |}
      /\ AutoAudit.extractEntityFromPath
           "/api/crm/contacts/123E4567-E89B-12D3-A456-426614174ABC"
         = {| AutoAudit.kind := "contact";
              AutoAudit.id := Some "123E4567-E89B-12D3-A456-426614174ABC" |}
      /\ AutoAudit.extractEntityFromPath
           "/api/crm/contacts/123e4567-e89b-12d3-a456-42661417400g"
         = {| AutoAudit.kind := "123e4567-e89b-12d3-a456-42661417400g";
              AutoAudit.id := None |}
      /\ AutoAudit.extractEntityFromPath
           "/api/crm/contacts/123e4567-e89b-12d3-a456-4266141740"
         = {| AutoAudit.kind := "123e4567-e89b-12d3-a456-4266141740";
              AutoAudit.id := None |}
      /\ AutoAudit.extractEntityFromPath
           "/api/crm/contacts/123e4567e89b-12d3-a456-4266141740000"
         = {| AutoAudit.kind := "123e4567e89b-12d3-a456-4266141740000";
              AutoAudit.id := None |}
      /\ AutoAudit.extractEntityFromPath "/api/crm/contacts/12a"
         = {| AutoAudit.kind := "12a"; AutoAudit.id := None |}).
Proof.
  split; [exact extractEntityFromPath_refines|].
  split; [exact singularize_refines|].
  split; [intros segment; split;
          [apply uuidPattern_refines | apply numericPattern_refines]|].
  split; [|split; [|split; repeat split; reflexivity]].
  - intros stem. rewrite !singularize_refines. unfold Spec.singularize.
    rewrite !chars_append, !rev_app_distr.
    cbn [JsString.chars list_ascii_of_string rev app].
    rewrite rev_involutive.
    repeat split; now rewrite str_app, str_chars.
  - intros pack resource parents Hsegs. split.
    + intros ident Hident Hid.
      rewrite extractEntityFromPath_refines, segments_of_joined.
      * cbn [Spec.extractEntity]. rewrite rev_app_distr. cbn [rev app].
        now rewrite Hid, singularize_refines.
      * change (pack :: parents ++ [resource; ident])
          with ((pack :: parents) ++ [resource; ident]).
        change (pack :: parents ++ [resource])
          with ((pack :: parents) ++ [resource]) in Hsegs.
        rewrite forallb_app in *. apply andb_true_iff in Hsegs.
        destruct Hsegs as [H1 H2]. rewrite H1. cbn [forallb] in *.
        rewrite andb_true_r in H2. now rewrite Hident, H2.
    + intros Hid.
      rewrite extractEntityFromPath_refines, segments_of_joined by assumption.
      cbn [Spec.extractEntity]. rewrite rev_app_distr. cbn [rev app].
      now rewrite Hid, singularize_refines.
Qed.

Lemma extractEntityFromPath_meets_spec_witness :
  AutoAudit.extractEntityFromPath
    ("/api/" ++ JsString.join "/" ("crm" :: ["accounts"] ++ ["contacts"; "42"]))
  = {| AutoAudit.kind := AutoAudit.singularize "contacts"; AutoAudit.id := Some "42" |}
  /\ AutoAudit.extractEntityFromPath
       ("/api/" ++ JsString.join "/"
          ("crm" :: ["accounts"]
           ++ ["contacts"; "9f1c2b3a-0d4e-4f5a-8b6c-7d8e9f0a1b2c"]))
     = {| AutoAudit.kind := AutoAudit.singularize "contacts";
          AutoAudit.id := Some "9f1c2b3a-0d4e-4f5a-8b6c-7d8e9f0a1b2c" |}
  /\ AutoAudit.extractEntityFromPath
       ("/api/" ++ JsString.join "/" ("crm" :: ["accounts"] ++ ["contacts"]))
     = {| AutoAudit.kind := AutoAudit.singularize "contacts"; AutoAudit.id := None |}.
Proof.
  destruct extractEntityFromPath_meets_spec as (_ & _ & _ & _ & Hform & _).
  destruct (Hform "crm" "contacts" ["accounts"] eq_refl) as [Hwith Hwithout].
  split; [|split].
  - apply Hwith; reflexivity.
  - apply Hwith; reflexivity.
  - apply Hwithout; reflexivity.
Defined.

(** ** The action of a derived event *)

Lemma eqb_false_of_neq (a b : string) : a <> b -> String.eqb a b = false.
Proof. intros H. now apply String.eqb_neq. Qed.




(** The first version of [methodToAction] has no case for GET. *)
Lemma methodToAction_level1_other (method : string) :
  ~ In (JsString.toUpperCase method) ["POST"; "PUT"; "PATCH"; "DELETE"] ->
  AutoAuditLevel1.methodToAction method = JsString.toLowerCase method.
Proof.
  intros H. unfold AutoAuditLevel1.methodToAction. simpl in H.
  rewrite !eqb_false_of_neq; [reflexivity | | | |]; intros E; apply H; rewrite E; tauto.
Qed.

(** ** The audit context outside any request *)

(** C10.  Outside any established audit context the accessors are total
    and change nothing: [getAuditContext()] returns null,
    [getAuditWrites()] returns 0, and [markAuditWrite()] returns normally
    and leaves the world as it was. *)
Theorem accessors_outside_context (w : World) :
  als w = None ->
  getAuditContext w = (Normal None, w)
  /\ getAuditWrites w = (Normal 0, w)
  /\ markAuditWrite w = (Normal tt, w).
Proof.
  intros H. unfold getAuditContext, getAuditWrites, markAuditWrite.
  rewrite H. repeat split.
Qed.

Lemma accessors_outside_context_witness :
  getAuditContext Fixture.outside = (Normal None, Fixture.outside)
  /\ getAuditWrites Fixture.outside = (Normal 0, Fixture.outside)
  /\ markAuditWrite Fixture.outside = (Normal tt, Fixture.outside).
Proof.
  apply (accessors_outside_context Fixture.outside). reflexivity.
Defined.

(** ** The strict write path *)

Lemma writeAuditEvent_run (dbOrTx : DbHandle) (input : WriteAuditEventInput) (w : World) :
  writeAuditEvent dbOrTx input w =
  let row := writeAuditEvent_values (als w) input in
  match insert_rejects dbOrTx (audit_events w) row with
  | Some e =>
      (Throw e,
       {| als := als w; audit_events := audit_events w;
          insert_calls := insert_calls w ++ [row]; console := console w |})
  | None =>
      (Normal tt,
       {| als := option_map bump (als w); audit_events := audit_events w ++ [row];
          insert_calls := insert_calls w ++ [row]; console := console w |})
  end.
Proof.
  unfold writeAuditEvent, bind, getAuditContext, insert_values, markAuditWrite.
  cbv zeta.
  destruct (insert_rejects dbOrTx (audit_events w) (writeAuditEvent_values (als w) input));
    [reflexivity|].
  cbn. destruct (als w); reflexivity.
Qed.

(** C4.  The strict write path, inside an established context.  When the
    insert succeeds the row is appended and the context's write counter is
    one more than before; when the insert rejects with [e], the call
    throws that same [e], nothing is appended and the context, with its
    counter, is as before: the counter is only touched after the insert. *)
Theorem strict_write_marks_after_insert
  (dbOrTx : DbHandle) (input : WriteAuditEventInput) (w : World)
  (ctx : AuditRequestContext) :
  als w = Some ctx ->
  let row := writeAuditEvent_values (Some ctx) input in
  let run := writeAuditEvent dbOrTx input w in
  (insert_rejects dbOrTx (audit_events w) row = None ->
     fst run = Normal tt
     /\ audit_events (snd run) = audit_events w ++ [row]
     /\ als (snd run) = Some (bump ctx)
     /\ getAuditWrites (snd run) = (Normal (auditWrites ctx + 1), snd run))
  /\ (forall e : JsError,
        insert_rejects dbOrTx (audit_events w) row = Some e ->
        fst run = Throw e
        /\ audit_events (snd run) = audit_events w
        /\ als (snd run) = Some ctx
        /\ getAuditWrites (snd run) = (Normal (auditWrites ctx), snd run)).
Proof.
  intros Hctx row run. subst run row.
  rewrite writeAuditEvent_run, Hctx. cbv zeta.
  split.
  - intros ->. cbn. unfold getAuditWrites. cbn. repeat split.
  - intros e ->. cbn. unfold getAuditWrites. cbn. repeat split.
Qed.

Lemma strict_write_marks_after_insert_witness :
  let w := Fixture.inside (Fixture.ctx_of "POST" "/api/crm/contacts/123") in
  let input := Fixture.write_input None None in
  (fst (writeAuditEvent Fixture.accepting_db input w) = Normal tt
   /\ getAuditWrites (snd (writeAuditEvent Fixture.accepting_db input w))
      = (Normal 1, snd (writeAuditEvent Fixture.accepting_db input w)))
  /\ (fst (writeAuditEvent Fixture.rejecting_db input w)
      = Throw Fixture.connection_refused
      /\ getAuditWrites (snd (writeAuditEvent Fixture.rejecting_db input w))
         = (Normal 0, snd (writeAuditEvent Fixture.rejecting_db input w))).
Proof.
  intros w input. split.
  - destruct (strict_write_marks_after_insert Fixture.accepting_db input w
                (Fixture.ctx_of "POST" "/api/crm/contacts/123") eq_refl)
      as [Hok _].
    destruct (Hok eq_refl) as (H1 & _ & _ & H4). split; [exact H1 | exact H4].
  - destruct (strict_write_marks_after_insert Fixture.rejecting_db input w
                (Fixture.ctx_of "POST" "/api/crm/contacts/123") eq_refl)
      as [_ Hfail].
    destruct (Hfail Fixture.connection_refused eq_refl) as (H1 & _ & _ & H4).
    split; [exact H1 | exact H4].
Defined.

(** C9.  Defaults of the strict write path.  Inside an established
    context, the row handed to the insert takes [correlationId],
    [packName], [method], [path], [ipAddress] and [userAgent] from the
    input when the input supplies them and from the context otherwise
    (null when the context has none), and its [eventType] is the trimmed
    event type of the input when that is not empty and the action
    otherwise.  That row is the one stored when the insert succeeds. *)
Theorem strict_write_defaults_from_context
  (dbOrTx : DbHandle) (input : WriteAuditEventInput) (w : World)
  (ctx : AuditRequestContext) :
  als w = Some ctx ->
  let run := writeAuditEvent dbOrTx input w in
  exists row : AuditRow,
    insert_calls (snd run) = insert_calls w ++ [row]
    /\ (fst run = Normal tt -> audit_events (snd run) = audit_events w ++ [row])
    /\ Spec.defaults_from (in_correlationId input) (ctx_correlationId ctx) (correlationId row)
    /\ Spec.defaults_from (in_packName input) (ctx_packName ctx) (packName row)
    /\ Spec.defaults_from (in_method input) (ctx_method ctx) (method row)
    /\ Spec.defaults_from (in_path input) (ctx_path ctx) (path row)
    /\ Spec.defaults_from (in_ipAddress input) (ctx_ipAddress ctx) (ipAddress row)
    /\ Spec.defaults_from (in_userAgent input) (ctx_userAgent ctx) (userAgent row)
    /\ Spec.eventType_rule input (eventType row).
Proof.
  intros Hctx run. subst run.
  exists (writeAuditEvent_values (Some ctx) input).
  rewrite writeAuditEvent_run, Hctx. cbv zeta.
  split; [destruct (insert_rejects _ _ _); reflexivity|].
  split; [destruct (insert_rejects _ _ _); [discriminate | reflexivity]|].
  unfold Spec.defaults_from, Spec.eventType_rule. cbn.
  repeat split; try (intros v ->; reflexivity); try (intros ->; reflexivity).
  - intros t -> Ht.
    unfold JsString.truthy. now rewrite (eqb_false_of_neq _ _ Ht).
  - intros [-> | (t & -> & Ht)]; [reflexivity|].
    unfold JsString.truthy. now rewrite Ht.
Qed.

Lemma strict_write_defaults_from_context_witness :
  exists row : AuditRow,
    insert_calls
      (snd (writeAuditEvent Fixture.accepting_db
              (Fixture.write_input None (Some "  login.failed "))
              (Fixture.inside (Fixture.ctx_of "POST" "/api/auth/login"))))
    = [row]
    /\ correlationId row = Some "corr-1"
    /\ path row = Some "/api/auth/login"
    /\ eventType row = Some "login.failed".
Proof.
  destruct (strict_write_defaults_from_context Fixture.accepting_db
              (Fixture.write_input None (Some "  login.failed "))
              (Fixture.inside (Fixture.ctx_of "POST" "/api/auth/login"))
              (Fixture.ctx_of "POST" "/api/auth/login") eq_refl)
    as (row & Hcalls & _ & Hcorr & _ & _ & Hpath & _ & _ & Hevent).
  exists row. split; [exact Hcalls|].
  split; [exact (proj2 Hcorr eq_refl)|].
  split; [exact (proj2 Hpath eq_refl)|].
  apply (proj1 Hevent "  login.failed "); [reflexivity | discriminate].
Defined.

(** ** The automatic deriver *)

Section AutoDeriver.

Variable JSON_stringify : JsValue -> Completion (option string).

(** Every run of the deriver ends in one of two ways: nothing was written
    and the table and the context are as before, or exactly the derived row
    was inserted and the counter marked. *)
Lemma writeAutoAuditEvent_outcome
  (app : AppDbModule) (input : AutoAudit.AutoAuditInput) (w : World) :
  let run := AutoAudit.writeAutoAuditEvent JSON_stringify app input w in
  (fst run = Normal false
   /\ audit_events (snd run) = audit_events w
   /\ als (snd run) = als w)
  \/ (exists (ctx : AuditRequestContext) (m : string) (db : DbHandle) (row : AuditRow),
        als w = Some ctx
        /\ auditWrites ctx <= 0
        /\ ctx_method ctx = Some m
        /\ (AutoAudit.isWrite (JsString.toUpperCase m) = true
            \/ 400 <= AutoAudit.responseStatus input)
        /\ import_db app = Normal tt
        /\ getDb app = Normal db
        /\ AutoAudit.derive_row JSON_stringify ctx (JsString.toUpperCase m) input
           = Normal row
        /\ insert_rejects db (audit_events w) row = None
        /\ run = (Normal true,
                  {| als := Some (bump ctx);
                     audit_events := audit_events w ++ [row];
                     insert_calls := insert_calls w ++ [row];
                     console := console w |})).
Proof.
  cbv zeta. unfold AutoAudit.writeAutoAuditEvent, bind, getAuditContext.
  destruct (als w) as [ctx|] eqn:Hals; [|left; cbn; auto].
  destruct (0 <? auditWrites ctx) eqn:Hwrites; [left; cbn; auto|].
  destruct (ctx_method ctx) as [m|] eqn:Hm; [|left; cbn; auto].
  cbn [option_map].
  destruct (negb (JsString.truthy (JsString.toUpperCase m))); [left; cbn; auto|].
  destruct (negb (AutoAudit.isWrite (JsString.toUpperCase m))
            && negb (400 <=? AutoAudit.responseStatus input)) eqn:Helig;
    [left; cbn; auto|].
  unfold try_catch, bind, lift, console_error, ret.
  destruct (import_db app) as [[]|e] eqn:Himp; [|left; cbn; auto].
  destruct (getDb app) as [db|e] eqn:Hdb; [|left; cbn; auto].
  destruct (AutoAudit.derive_row JSON_stringify ctx (JsString.toUpperCase m) input)
    as [row|e] eqn:Hrow; [|left; cbn; auto].
  unfold insert_values.
  destruct (insert_rejects db (audit_events w) row) as [e|] eqn:Hins; [left; cbn; auto|].
  right. exists ctx, m, db, row.
  unfold markAuditWrite. cbn. rewrite Hals. cbn.
  repeat split; try assumption; try reflexivity.
  - apply Z.ltb_ge in Hwrites. lia.
  - apply andb_false_iff in Helig. destruct Helig as [H | H].
    + left. now apply negb_false_iff in H.
    + right. apply negb_false_iff in H. now apply Z.leb_le.
Qed.

Lemma isWrite_false (method : string) :
  ~ In method ["POST"; "PUT"; "PATCH"; "DELETE"] -> AutoAudit.isWrite method = false.
Proof.
  intros H. apply not_true_is_false. unfold AutoAudit.isWrite.
  rewrite existsb_exists. intros (x & Hx & E).
  apply String.eqb_eq in E. subst x. contradiction.
Qed.

Lemma isWrite_true (method : string) :
  In method ["POST"; "PUT"; "PATCH"; "DELETE"] -> AutoAudit.isWrite method = true.
Proof.
  intros H. unfold AutoAudit.isWrite. rewrite existsb_exists.
  exists method. split; [assumption | apply String.eqb_refl].
Qed.

(** What the skipped runs leave behind: no insert was attempted. *)
Lemma writeAutoAuditEvent_skips
  (app : AppDbModule) (input : AutoAudit.AutoAuditInput) (w : World) :
  Spec.skipped input w ->
  let run := AutoAudit.writeAutoAuditEvent JSON_stringify app input w in
  fst run = Normal false
  /\ insert_calls (snd run) = insert_calls w
  /\ audit_events (snd run) = audit_events w
  /\ als (snd run) = als w.
Proof.
  cbv zeta. unfold AutoAudit.writeAutoAuditEvent, bind, getAuditContext.
  intros [Hnone | (ctx & Hctx & Hskip)].
  - rewrite Hnone. cbn. auto.
  - rewrite Hctx. destruct Hskip as [Hwrites | [Hmethod Hstatus]].
    + replace (0 <? auditWrites ctx) with true by (symmetry; now apply Z.ltb_lt).
      cbn. auto.
    + destruct (0 <? auditWrites ctx); [cbn; auto|].
      destruct (ctx_method ctx) as [m|]; [|cbn; auto].
      cbn [option_map].
      destruct (negb (JsString.truthy (JsString.toUpperCase m))); [cbn; auto|].
      rewrite (isWrite_false _ (Hmethod m eq_refl)).
      replace (400 <=? AutoAudit.responseStatus input) with false
        by (symmetry; apply Z.leb_gt; lia).
      cbn. auto.
Qed.

(** A request that is eligible, with the database at hand, a path in the
    context and an insert that is accepted, is written: nothing the
    serializer does stands in the way. *)
Lemma writeAutoAuditEvent_writes
  (app : AppDbModule) (input : AutoAudit.AutoAuditInput) (w : World)
  (ctx : AuditRequestContext) (m p : string) (db : DbHandle) :
  als w = Some ctx ->
  auditWrites ctx <= 0 ->
  ctx_method ctx = Some m ->
  JsString.toUpperCase m <> "" ->
  In (JsString.toUpperCase m) ["POST"; "PUT"; "PATCH"; "DELETE"]
  \/ 400 <= AutoAudit.responseStatus input ->
  import_db app = Normal tt ->
  getDb app = Normal db ->
  ctx_path ctx = Some p ->
  (forall row : AuditRow, insert_rejects db (audit_events w) row = None) ->
  fst (AutoAudit.writeAutoAuditEvent JSON_stringify app input w) = Normal true.
Proof.
  intros Hctx Hwrites Hm Hupper Helig Himp Hdb Hpath Hins.
  unfold AutoAudit.writeAutoAuditEvent, bind, getAuditContext.
  rewrite Hctx.
  replace (0 <? auditWrites ctx) with false by (symmetry; apply Z.ltb_ge; lia).
  rewrite Hm. cbn [option_map].
  unfold JsString.truthy at 1. rewrite (eqb_false_of_neq _ _ Hupper). cbn [negb].
  replace (negb (AutoAudit.isWrite (JsString.toUpperCase m))
           && negb (400 <=? AutoAudit.responseStatus input)) with false.
  2:{ symmetry. apply andb_false_iff. destruct Helig as [H | H].
      - left. now rewrite (isWrite_true _ H).
      - right. apply negb_false_iff. now apply Z.leb_le. }
  unfold try_catch, bind, lift. rewrite Himp, Hdb.
  unfold AutoAudit.derive_row. rewrite Hpath.
  unfold insert_values. rewrite Hins.
  unfold markAuditWrite. cbn [als]. rewrite Hctx. reflexivity.
Qed.

(** C1.  Eligibility of the automatic deriver.  When no audit context is
    established, or the context's write counter is above 0, or the method
    (compared in upper case, as the code compares it) is none of POST, PUT,
    PATCH, DELETE and the response status is below 400, the deriver
    attempts no insert, leaves the table and the context as they are and
    returns false.  In particular, after an explicit write has succeeded in
    the context the deriver writes no second event: a request that writes
    explicitly and is then passed to the deriver ends with exactly one new
    row and a write count of 1. *)
Theorem auto_deriver_skips_ineligible
  (app : AppDbModule) (input : AutoAudit.AutoAuditInput) (w : World) :
  let run := AutoAudit.writeAutoAuditEvent JSON_stringify app input w in
  ((als w = None
    \/ exists ctx : AuditRequestContext,
         als w = Some ctx
         /\ (0 < auditWrites ctx
             \/ ((forall m : string,
                    ctx_method ctx = Some m ->
                    ~ In (JsString.toUpperCase m) ["POST"; "PUT"; "PATCH"; "DELETE"])
                 /\ AutoAudit.responseStatus input < 400))) ->
   fst run = Normal false
   /\ insert_calls (snd run) = insert_calls w
   /\ audit_events (snd run) = audit_events w
   /\ als (snd run) = als w)
  /\ (forall (dbOrTx : DbHandle) (explicit : WriteAuditEventInput)
             (meta : AuditRequestContext),
        let row := writeAuditEvent_values (Some (fresh_context meta)) explicit in
        let request :=
          withAuditContext meta
            (writeAuditEvent dbOrTx explicit ;;
             written <- AutoAudit.writeAutoAuditEvent JSON_stringify app input ;;
             writes <- getAuditWrites ;;
             ret (written, writes)) in
        insert_rejects dbOrTx (audit_events w) row = None ->
        fst (request w) = Normal (false, 1)
        /\ audit_events (snd (request w)) = audit_events w ++ [row]
        /\ insert_calls (snd (request w)) = insert_calls w ++ [row]).
Proof.
  cbv zeta. split; [apply writeAutoAuditEvent_skips|].
  intros dbOrTx explicit meta Hins.
  set (row := writeAuditEvent_values (Some (fresh_context meta)) explicit) in *.
  set (request := withAuditContext meta _).
  assert (Hrun : exists w' : World,
             request w = (Normal (false, 1), w')
             /\ audit_events w' = audit_events w ++ [row]
             /\ insert_calls w' = insert_calls w ++ [row]).
  { subst request. unfold withAuditContext. cbv zeta. unfold bind at 1.
    rewrite writeAuditEvent_run. cbn [als set_als audit_events].
    cbv zeta. fold row. rewrite Hins. cbn [option_map].
    set (w1 := {| als := Some (bump (fresh_context meta));
                  audit_events := audit_events w ++ [row];
                  insert_calls :=
                    insert_calls (set_als (Some (fresh_context meta)) w) ++ [row];
                  console := console (set_als (Some (fresh_context meta)) w) |}).
    assert (Hskip : Spec.skipped input w1).
    { right. exists (bump (fresh_context meta)). split; [reflexivity|].
      left. cbn. lia. }
    destruct (writeAutoAuditEvent_skips app input w1 Hskip)
      as (Hres & Hcalls & Hrows & Hals).
    unfold bind.
    destruct (AutoAudit.writeAutoAuditEvent JSON_stringify app input w1) as [res w2].
    cbn [fst snd] in Hres, Hcalls, Hrows, Hals. subst res.
    unfold getAuditWrites, ret. rewrite Hals. cbn [als w1].
    eexists. split; [reflexivity|].
    cbn. rewrite Hrows, Hcalls. cbn. auto. }
  destruct Hrun as (w' & -> & Hrows & Hcalls). cbn. auto.
Qed.

(** C3, as the code has it.  The deriver never throws: for every input,
    every behaviour of the serializer and every behaviour of the storage
    collaborator it completes normally with a boolean.  Whenever the
    database module does not load, [getDb] throws, the context has no path
    to derive from, or the attempted insert rejects, the result is false;
    and whenever the result is false the table and the context are as they
    were before the call.  The serializer cannot make the result false: an
    eligible request whose insert is accepted is written whatever the
    serializer does. *)
Theorem auto_deriver_never_throws
  (app : AppDbModule) (input : AutoAudit.AutoAuditInput) (w : World) :
  let run := AutoAudit.writeAutoAuditEvent JSON_stringify app input w in
  (exists written : bool, fst run = Normal written)
  /\ (fst run = Normal false ->
      audit_events (snd run) = audit_events w /\ als (snd run) = als w)
  /\ (forall e : JsError, import_db app = Throw e -> fst run = Normal false)
  /\ (forall e : JsError, getDb app = Throw e -> fst run = Normal false)
  /\ (forall ctx : AuditRequestContext,
        als w = Some ctx -> ctx_path ctx = None -> fst run = Normal false)
  /\ (forall (db : DbHandle) (row : AuditRow) (e : JsError),
        getDb app = Normal db ->
        insert_calls (snd run) = insert_calls w ++ [row] ->
        insert_rejects db (audit_events w) row = Some e ->
        fst run = Normal false)
  /\ (forall (ctx : AuditRequestContext) (m p : string) (db : DbHandle),
        als w = Some ctx ->
        auditWrites ctx <= 0 ->
        ctx_method ctx = Some m ->
        JsString.toUpperCase m <> "" ->
        In (JsString.toUpperCase m) ["POST"; "PUT"; "PATCH"; "DELETE"]
        \/ 400 <= AutoAudit.responseStatus input ->
        import_db app = Normal tt ->
        getDb app = Normal db ->
        ctx_path ctx = Some p ->
        (forall row : AuditRow, insert_rejects db (audit_events w) row = None) ->
        fst run = Normal true).
Proof.
  cbv zeta.
  assert (Hwrites := writeAutoAuditEvent_writes app input w).
  destruct (writeAutoAuditEvent_outcome app input w)
    as [(Hres & Hrows & Hals)
       | (ctx & m & db & row & Hctx & _ & _ & _ & Himp & Hdb & Hrow & Hins & Hrun)].
  - repeat split; auto. now exists false.
  - revert Hwrites. rewrite Hrun. cbn [fst snd]. intros Hwrites.
    split; [now exists true|].
    split; [discriminate|].
    split; [intros e He; rewrite He in Himp; discriminate|].
    split; [intros e He; rewrite He in Hdb; discriminate|].
    split; [|split; [|intros; reflexivity]].
    + intros ctx' Hctx' Hpath. rewrite Hctx in Hctx'. injection Hctx' as <-.
      unfold AutoAudit.derive_row in Hrow. rewrite Hpath in Hrow. discriminate.
    + intros db' row' e Hdb' Hcalls Hrej. cbn in Hcalls.
      apply app_inv_head in Hcalls. injection Hcalls as <-.
      rewrite Hdb in Hdb'. injection Hdb' as <-.
      rewrite Hins in Hrej. discriminate.
Qed.

(** [slice(0, n)] is the prefix of length [n]. *)
Lemma slice_prefix (s : string) (n : Z) :
  0 <= n ->
  JsString.chars (JsString.slice s 0 n) = firstn (Z.to_nat n) (JsString.chars s).
Proof.
  intros Hn. unfold JsString.slice, JsString.clamp, JsString.length.
  rewrite chars_str, <- length_chars.
  replace (0 <? 0) with false by reflexivity.
  replace (n <? 0) with false by (symmetry; apply Z.ltb_ge; lia).
  rewrite (Z.min_l 0) by lia. cbn [Z.to_nat skipn]. rewrite Z.sub_0_r.
  destruct (Z.le_ge_cases n (Z.of_nat (List.length (JsString.chars s)))) as [H | H].
  - now rewrite Z.min_l.
  - rewrite Z.min_r by lia. rewrite Nat2Z.id.
    rewrite firstn_all. symmetry. apply firstn_all2. lia.
Qed.

(** C8.  Payloads in the details of a derived event.  The details of a
    derived row are the object built from the input; a request body and
    a response body that are present are each stored as the truncation of
    that body alone.  The truncation of a payload whose serialization has
    at most 4000 characters is the payload itself; when the serialization
    is longer it is the marker with [_truncated] true, [_originalLength]
    the length of the whole serialization and [_preview] its first 4000
    characters; when the serializer throws, or returns no string to
    measure, it is the error marker: the object whose one field [_error]
    holds the text [Could not serialize payload]. *)
Theorem payloads_truncated_independently
  (input : AutoAudit.AutoAuditInput) (isSuccess : bool) :
  let stored := AutoAudit.build_details JSON_stringify input isSuccess in
  let truncated := fun payload => AutoAudit.truncatePayload JSON_stringify payload 4000 in
  (forall (ctx : AuditRequestContext) (m : string) (row : AuditRow),
     AutoAudit.derive_row JSON_stringify ctx m input = Normal row ->
     exists success : bool,
       details row = Some (AutoAudit.build_details JSON_stringify input success))
  /\ (nullish (AutoAudit.requestBody input) = false ->
      getProp stored "requestBody" = truncated (AutoAudit.requestBody input))
  /\ (nullish (AutoAudit.responseBody input) = false ->
      getProp stored "responseBody" = truncated (AutoAudit.responseBody input))
  /\ (forall payload : JsValue,
        nullish payload = false ->
        (forall s : string,
           JSON_stringify payload = Normal (Some s) ->
           JsString.length s <= 4000 ->
           truncated payload = payload)
        /\ (forall s : string,
              JSON_stringify payload = Normal (Some s) ->
              4000 < JsString.length s ->
              exists preview : string,
                truncated payload
                = JObj [("_truncated", JBool true);
                        ("_originalLength", JNum (JsString.length s));
                        ("_preview", JStr preview)]
                /\ JsString.chars preview = firstn 4000 (JsString.chars s))
        /\ (forall e : JsError,
              JSON_stringify payload = Throw e ->
              truncated payload
              = JObj [("_error", JStr "Could not serialize payload")])
        /\ (JSON_stringify payload = Normal None ->
            truncated payload
            = JObj [("_error", JStr "Could not serialize payload")])).
Proof.
  cbv zeta. split; [|split; [|split]].
  - intros ctx m row Hrow. unfold AutoAudit.derive_row in Hrow.
    destruct (ctx_path ctx); [|discriminate].
    injection Hrow as <-. eexists. reflexivity.
  - intros Hreq. unfold AutoAudit.build_details. rewrite Hreq. cbn [negb].
    destruct (AutoAudit.dbTimeMs input), (AutoAudit.moduleTimeMs input),
      (AutoAudit.slowQueries input) as [[|q qs]|],
      (nullish (AutoAudit.responseBody input)),
      (AutoAudit.durationMs input) as [d|];
      try destruct (negb (d =? 0) && (500 <? d)); reflexivity.
  - intros Hres. unfold AutoAudit.build_details. rewrite Hres. cbn [negb].
    destruct (AutoAudit.dbTimeMs input), (AutoAudit.moduleTimeMs input),
      (AutoAudit.slowQueries input) as [[|q qs]|],
      (nullish (AutoAudit.requestBody input)),
      (AutoAudit.durationMs input) as [d|];
      try destruct (negb (d =? 0) && (500 <? d)); reflexivity.
  - intros payload Hpayload. unfold AutoAudit.truncatePayload. rewrite Hpayload.
    split; [|split; [|split]].
    + intros s -> Hlen.
      now replace (JsString.length s <=? 4000) with true by (symmetry; now apply Z.leb_le).
    + intros s -> Hlen.
      replace (JsString.length s <=? 4000) with false by (symmetry; apply Z.leb_gt; lia).
      exists (JsString.slice s 0 4000). split; [reflexivity|].
      now rewrite slice_prefix.
    + now intros e ->.
    + now intros ->.
Qed.

End AutoDeriver.

(** The first version of the deriver skips the same requests (and every
    response outside 2xx). *)
Lemma writeAutoAuditEvent_level1_skips
  (app : AppDbModule) (input : AutoAuditLevel1.AutoAuditInput) (w : World) :
  als w = None
  \/ (exists ctx : AuditRequestContext,
        als w = Some ctx
        /\ (0 < auditWrites ctx
            \/ ((forall m : string,
                   ctx_method ctx = Some m ->
                   ~ In (JsString.toUpperCase m) ["POST"; "PUT"; "PATCH"; "DELETE"])
                /\ AutoAuditLevel1.responseStatus input < 400))) ->
  let run := AutoAuditLevel1.writeAutoAuditEvent app input w in
  fst run = Normal false
  /\ insert_calls (snd run) = insert_calls w
  /\ audit_events (snd run) = audit_events w
  /\ als (snd run) = als w.
Proof.
  cbv zeta. unfold AutoAuditLevel1.writeAutoAuditEvent, bind, getAuditContext.
  destruct ((AutoAuditLevel1.responseStatus input <? 200)
            || (300 <=? AutoAuditLevel1.responseStatus input)); [cbn; auto|].
  intros [Hnone | (ctx & Hctx & Hskip)].
  - rewrite Hnone. cbn. auto.
  - rewrite Hctx. destruct Hskip as [Hwrites | [Hmethod Hstatus]].
    + replace (0 <? auditWrites ctx) with true by (symmetry; now apply Z.ltb_lt).
      cbn. auto.
    + destruct (0 <? auditWrites ctx); [cbn; auto|].
      destruct (ctx_method ctx) as [m|]; [|cbn; auto].
      cbn [option_map]. rewrite (isWrite_false _ (Hmethod m eq_refl)).
      rewrite orb_true_r. cbn. auto.
Qed.

Lemma auto_deriver_skips_ineligible_witness :
  let app := Fixture.app_with Fixture.accepting_db in
  let input := Fixture.auto_input 200 JUndefined JUndefined in
  let auto := AutoAudit.writeAutoAuditEvent Json.JSON_stringify app input in
  let reading := Fixture.inside (Fixture.ctx_of "GET" "/api/crm/contacts") in
  (fst (auto reading) = Normal false /\ insert_calls (snd (auto reading)) = [])
  /\ fst (withAuditContext (Fixture.ctx_of "POST" "/api/crm/contacts/123")
            (writeAuditEvent Fixture.accepting_db (Fixture.write_input None None) ;;
             written <- auto ;;
             writes <- getAuditWrites ;;
             ret (written, writes))
            Fixture.outside)
     = Normal (false, 1).
Proof.
  intros app input auto reading. split.
  - destruct (auto_deriver_skips_ineligible Json.JSON_stringify app input reading)
      as [Hskip _].
    destruct Hskip as (H1 & H2 & _).
    + right. exists (Fixture.ctx_of "GET" "/api/crm/contacts").
      split; [reflexivity|]. right. split.
      * intros m Hm. injection Hm as <-. vm_compute.
        intros [H | [H | [H | [H | []]]]]; discriminate H.
      * reflexivity.
    + split; [exact H1 | exact H2].
  - destruct (auto_deriver_skips_ineligible Json.JSON_stringify app input
                Fixture.outside) as [_ Hone].
    destruct (Hone Fixture.accepting_db (Fixture.write_input None None)
                (Fixture.ctx_of "POST" "/api/crm/contacts/123") eq_refl)
      as (H1 & _).
    exact H1.
Defined.

Lemma auto_deriver_never_throws_witness :
  let input := Fixture.auto_input 201 (JBigInt 1) JUndefined in
  let w := Fixture.inside (Fixture.ctx_of "POST" "/api/crm/contacts") in
  let auto := AutoAudit.writeAutoAuditEvent Json.JSON_stringify in
  fst (auto (Fixture.app_with Fixture.rejecting_db) input w) = Normal false
  /\ fst (auto Fixture.app_without_db input w) = Normal false
  /\ fst (auto (Fixture.app_with Fixture.accepting_db) input w) = Normal true.
Proof.
  intros input w auto. split; [|split].
  - destruct (auto_deriver_never_throws Json.JSON_stringify
                (Fixture.app_with Fixture.rejecting_db) input w)
      as (_ & _ & _ & _ & _ & Hinsert & _).
    set (row := match AutoAudit.derive_row Json.JSON_stringify
                        (Fixture.ctx_of "POST" "/api/crm/contacts") "POST" input with
                | Normal r => r
                | Throw _ => Fixture.event_by "nobody"
                end).
    apply (Hinsert Fixture.rejecting_db row Fixture.connection_refused);
      [reflexivity | vm_compute; reflexivity | reflexivity].
  - destruct (auto_deriver_never_throws Json.JSON_stringify
                Fixture.app_without_db input w)
      as (_ & _ & Himport & _).
    eapply Himport. reflexivity.
  - destruct (auto_deriver_never_throws Json.JSON_stringify
                (Fixture.app_with Fixture.accepting_db) input w)
      as (_ & _ & _ & _ & _ & _ & Hwritten).
    apply (Hwritten (Fixture.ctx_of "POST" "/api/crm/contacts") "POST"
             "/api/crm/contacts" Fixture.accepting_db);
      try reflexivity.
    + vm_compute. discriminate.
    + left. vm_compute. left. reflexivity.
Defined.

(** C3 as stated fails on a payload that cannot be serialized: the
    serialization of the request body throws during the derivation, the
    body is replaced by the error marker, and the event is written all the
    same; the result is true. *)
Lemma unserializable_payload_is_still_written :
  Json.JSON_stringify (JBigInt 1)
  = Throw (Err "TypeError" "Do not know how to serialize a BigInt")
  /\ exists (row : AuditRow) (w' : World),
       AutoAudit.writeAutoAuditEvent Json.JSON_stringify
         (Fixture.app_with Fixture.accepting_db)
         (Fixture.auto_input 201 (JBigInt 1) (JObj [("id", JStr "c-9")]))
         (Fixture.inside (Fixture.ctx_of "POST" "/api/crm/contacts"))
       = (Normal true, w')
       /\ audit_events w' = [row]
       /\ option_map (fun d => getProp d "requestBody") (details row)
          = Some AutoAudit.error_marker.
Proof.
  split; [reflexivity|].
  eexists. eexists.
  split; [vm_compute; reflexivity|].
  split; reflexivity.
Qed.

Lemma payloads_truncated_independently_witness :
  let short := JObj [("name", JStr "Ada")] in
  let long := JStr Fixture.long_text in
  let input := Fixture.auto_input 200 long short in
  let stored := AutoAudit.build_details Json.JSON_stringify input true in
  getProp stored "responseBody" = short
  /\ getProp (getProp stored "requestBody") "_originalLength" = JNum 4003
  /\ AutoAudit.truncatePayload Json.JSON_stringify (JBigInt 7) 4000
     = JObj [("_error", JStr "Could not serialize payload")].
Proof.
  intros short long input stored.
  destruct (payloads_truncated_independently Json.JSON_stringify input true)
    as (_ & Hreq & Hres & Htrunc).
  cbv beta zeta in Hreq, Hres, Htrunc.
  change (AutoAudit.requestBody input) with long in Hreq.
  change (AutoAudit.responseBody input) with short in Hres.
  split; [|split].
  - subst stored. rewrite (Hres eq_refl).
    destruct (Htrunc short eq_refl) as (Hshort & _ & _).
    apply (Hshort _ eq_refl). vm_compute. discriminate.
  - subst stored. rewrite (Hreq eq_refl).
    destruct (Htrunc long eq_refl) as (_ & Hlong & _).
    destruct (Hlong _ eq_refl) as (preview & Hmarker & _).
    + vm_compute. reflexivity.
    + rewrite Hmarker. vm_compute. reflexivity.
  - destruct (Htrunc (JBigInt 7) eq_refl) as (_ & _ & Hthrow & _).
    apply (Hthrow _ eq_refl).
Defined.

(** ** The scope resolver *)

Lemma append_assoc3 (a b c : string) : ((a ++ b) ++ c = a ++ b ++ c)%string.
Proof.
  induction a as [|x a IH]; simpl; [reflexivity|]. now rewrite IH.
Qed.

Lemma probe_key (verb : string) (m : ScopeMode.ScopeMode) :
  (("audit-core." ++ verb ++ ".scope") ++ "." ++ ScopeMode.mode_name m)%string
  = Spec.scope_key verb m.
Proof.
  unfold Spec.scope_key.
  change ("audit-core." ++ verb ++ ".scope")%string
    with ("audit-core." ++ (verb ++ ".scope"))%string.
  rewrite append_assoc3. f_equal. now rewrite append_assoc3.
Qed.

(** The loop asks about the modes in order and stops at the first granted. *)
Lemma probe_modes_spec (check : ScopeMode.PermissionCheck) (verb : string)
  (modes : list ScopeMode.ScopeMode) (probed : list string) :
  let granted := fun m => ScopeMode.ok (check (Spec.scope_key verb m)) in
  ScopeMode.probe_modes check ("audit-core." ++ verb ++ ".scope") modes probed
  = (probed ++ map (Spec.scope_key verb) (Spec.asked_until granted modes),
     find granted modes).
Proof.
  cbv zeta. revert probed.
  induction modes as [|m rest IH]; intros probed;
    cbn [ScopeMode.probe_modes Spec.asked_until find map].
  - now rewrite app_nil_r.
  - rewrite probe_key.
    destruct (ScopeMode.ok (check (Spec.scope_key verb m))); [reflexivity|].
    rewrite IH. cbn [map]. now rewrite <- app_assoc.
Qed.

(** C2, as the code has it.  The resolver asks the permission check about
    the keys [audit-core.<verb>.scope.<mode>] in the order none, own, ldd,
    any, stops at the first mode that is granted and returns it; when no
    mode is granted it has asked about all four and returns own.  Hence a
    caller who is granted own and any, and is not granted none, resolves
    to own; and the result is any only when any is granted and none, own
    and ldd are not. *)
Theorem scope_mode_is_first_granted (check : ScopeMode.PermissionCheck) (verb : string) :
  let granted := fun m => ScopeMode.ok (check (Spec.scope_key verb m)) in
  let resolved := ScopeMode.resolveAuditCoreScopeMode check verb in
  fst resolved = map (Spec.scope_key verb) (Spec.asked_until granted Spec.probe_order)
  /\ snd resolved = match find granted Spec.probe_order with
                    | Some m => m
                    | None => ScopeMode.own
                    end
  /\ (granted ScopeMode.own = true -> granted ScopeMode.any = true ->
      granted ScopeMode.none = false -> snd resolved = ScopeMode.own)
  /\ (snd resolved = ScopeMode.any ->
      granted ScopeMode.any = true /\ granted ScopeMode.none = false
      /\ granted ScopeMode.own = false /\ granted ScopeMode.ldd = false).
Proof.
  cbv zeta. unfold ScopeMode.resolveAuditCoreScopeMode.
  rewrite probe_modes_spec. cbv zeta. fold Spec.probe_order.
  unfold Spec.probe_order. cbn [find Spec.asked_until app].
  destruct (ScopeMode.ok (check (Spec.scope_key verb ScopeMode.none)));
    destruct (ScopeMode.ok (check (Spec.scope_key verb ScopeMode.own)));
    destruct (ScopeMode.ok (check (Spec.scope_key verb ScopeMode.ldd)));
    destruct (ScopeMode.ok (check (Spec.scope_key verb ScopeMode.any)));
    cbn; repeat split; intros; try discriminate; reflexivity.
Qed.

Lemma scope_mode_is_first_granted_witness :
  let check :=
    Fixture.grants ["audit-core.read.scope.own"; "audit-core.read.scope.any"] in
  ScopeMode.resolveAuditCoreScopeMode check "read"
  = (["audit-core.read.scope.none"; "audit-core.read.scope.own"], ScopeMode.own).
Proof.
  intros check.
  destruct (scope_mode_is_first_granted check "read") as (Hasked & _ & Hown & _).
  rewrite (surjective_pairing (ScopeMode.resolveAuditCoreScopeMode check "read")).
  rewrite Hasked, (Hown eq_refl eq_refl eq_refl). reflexivity.
Defined.

(** C2 as stated fails for a caller who is granted none as well as own and
    any: the resolved mode is none, the first granted mode in the order. *)
Lemma own_and_any_granted_resolves_none :
  let check :=
    Fixture.grants ["audit-core.read.scope.none"; "audit-core.read.scope.own";
                    "audit-core.read.scope.any"] in
  ScopeMode.ok (check (Spec.scope_key "read" ScopeMode.own)) = true
  /\ ScopeMode.ok (check (Spec.scope_key "read" ScopeMode.any)) = true
  /\ snd (ScopeMode.resolveAuditCoreScopeMode check "read") = ScopeMode.none
  /\ snd (ScopeMode.resolveAuditCoreScopeMode check "read") <> ScopeMode.own.
Proof.
  cbv zeta. repeat split; try reflexivity. discriminate.
Qed.

(** ** The [ldd] scope of the read API *)

Section LddScope.

Import ApiAudit.

Variable table : list UserOrgAssignment.

Lemma includes_In (ids : list string) (x : string) :
  includes ids x = true <-> In x ids.
Proof.
  unfold includes. rewrite existsb_exists. split.
  - intros (y & Hy & E). apply String.eqb_eq in E. now subst.
  - intros H. exists x. split; [assumption | apply String.eqb_refl].
Qed.

Lemma push_new_In (ids : list string) (v : option string) (x : string) :
  In x (push_new ids v) <-> In x ids \/ (v = Some x /\ x <> "").
Proof.
  unfold push_new. destruct v as [y|].
  - unfold JsString.truthy.
    destruct (String.eqb_spec y "") as [-> | Hy]; cbn [negb andb].
    + split; [auto | intros [H | [H Hx]]; [assumption|]].
      injection H as <-. now contradiction Hx.
    + destruct (includes ids y) eqn:Hin; cbn [negb].
      * apply includes_In in Hin. split; [auto | intros [H | [H _]]; [assumption|]].
        injection H as <-. assumption.
      * rewrite in_app_iff. cbn [In]. split.
        -- intros [H | [<- | []]]; auto.
        -- intros [H | [H _]]; [auto|]. injection H as <-. auto.
  - split; [auto | intros [H | [H _]]; [assumption | discriminate H]].
Qed.

Lemma collected_ids (c : OrgColumn) (x : string) (rows : list UserOrgAssignment)
  (acc : OrgScopeIds) :
  In x (Spec.ids_of c
          (fold_left
             (fun acc r =>
                {| divisionIds := push_new (divisionIds acc) (divisionId r);
                   departmentIds := push_new (departmentIds acc) (departmentId r);
                   locationIds := push_new (locationIds acc) (locationId r) |})
             rows acc))
  <-> In x (Spec.ids_of c acc)
      \/ exists r : UserOrgAssignment, In r rows /\ column c r = Some x /\ x <> "".
Proof.
  revert acc. induction rows as [|r rows IH]; intros acc; cbn [fold_left].
  - split; [auto | intros [H | (r & [] & _)]; assumption].
  - rewrite IH.
    assert (Hstep : In x (Spec.ids_of c
                            {| divisionIds := push_new (divisionIds acc) (divisionId r);
                               departmentIds := push_new (departmentIds acc) (departmentId r);
                               locationIds := push_new (locationIds acc) (locationId r) |})
                    <-> In x (Spec.ids_of c acc) \/ (column c r = Some x /\ x <> "")).
    { destruct c; cbn [Spec.ids_of column divisionIds departmentIds locationIds];
        apply push_new_In. }
    rewrite Hstep. cbn [In]. split.
    + intros [[H | [H1 H2]] | (r' & Hr' & H1 & H2)]; eauto 6.
    + intros [H | (r' & [<- | Hr'] & H1 & H2)]; eauto 6.
Qed.

(** The ids that [fetchUserOrgScopeIds] collects in a dimension are the
    non-empty ids of the caller's rows in that dimension. *)
Lemma fetched_ids (c : OrgColumn) (caller x : string) :
  In x (Spec.ids_of c (fetchUserOrgScopeIds table caller))
  <-> exists b : UserOrgAssignment,
        In b table /\ userKey b = caller /\ column c b = Some x /\ x <> "".
Proof.
  unfold fetchUserOrgScopeIds. rewrite collected_ids. split.
  - intros [H | (b & Hb & Hc & Hx)].
    + destruct c; contradiction H.
    + apply filter_In in Hb. destruct Hb as [Hb Hk].
      apply String.eqb_eq in Hk. eauto.
  - intros (b & Hb & Hk & Hc & Hx). right. exists b.
    rewrite filter_In, String.eqb_eq. auto.
Qed.

Lemma is_true_or (a b : option bool) :
  is_true (sql_or a b) = is_true a || is_true b.
Proof. destruct a as [[]|], b as [[]|]; reflexivity. Qed.

Lemma is_true_Some (b : bool) : is_true (Some b) = b.
Proof. now destruct b. Qed.

Lemma own_condition_accepts (caller : string) (event : AuditRow) :
  accepts table (eq_actorId caller) event = true <-> actorId event = Some caller.
Proof.
  unfold accepts. cbn [eval]. unfold sql_eq.
  destruct (actorId event) as [a|]; cbn [is_true].
  - destruct (String.eqb_spec a caller) as [-> | H].
    + split; reflexivity.
    + split; [discriminate | intros E; injection E as ->; now contradiction H].
  - split; discriminate.
Qed.

(** The correlated exists: some assignment row of the event's actor has its
    id in that dimension among [ids]. *)
Lemma exists_condition_accepts (c : OrgColumn) (ids : list string) (event : AuditRow) :
  accepts table (exists_assignment c ids) event = true
  <-> exists (a : UserOrgAssignment) (d : string),
        In a table /\ actorId event = Some (userKey a)
        /\ column c a = Some d /\ In d ids.
Proof.
  unfold accepts. cbn [eval]. rewrite is_true_Some, existsb_exists. split.
  - intros (a & Ha & H). unfold sql_eq, sql_in in H.
    destruct (column c a) as [d|] eqn:Hd.
    + destruct (includes ids d) eqn:Hin.
      * destruct (actorId event) as [actor|]; [|discriminate H].
        destruct (String.eqb_spec (userKey a) actor) as [E | Hk]; [|discriminate H].
        subst actor. apply includes_In in Hin. exists a, d. auto.
      * destruct (actorId event) as [actor|]; [|discriminate H].
        destruct (String.eqb (userKey a) actor); discriminate H.
    + destruct (actorId event) as [actor|]; [|discriminate H].
      destruct (String.eqb (userKey a) actor); discriminate H.
  - intros (a & d & Ha & Hactor & Hd & Hin). exists a. split; [assumption|].
    rewrite Hactor, Hd. unfold sql_eq, sql_in.
    rewrite String.eqb_refl. apply includes_In in Hin. now rewrite Hin.
Qed.

Lemma exists_condition_nil (c : OrgColumn) (event : AuditRow) :
  accepts table (exists_assignment c []) event = false.
Proof.
  apply not_true_is_false. rewrite exists_condition_accepts.
  intros (a & d & _ & _ & _ & []).
Qed.

(** The condition pushed under [ldd], whichever of the caller's id lists
    are empty, accepts an event when the own condition or one of the three
    correlated lookups does. *)
Lemma ldd_condition (caller : string) :
  JsString.truthy caller = true ->
  exists cond : SqlCondition,
    scope_whereParts ScopeMode.ldd caller table = [cond]
    /\ forall event : AuditRow,
         accepts table cond event
         = accepts table (eq_actorId caller) event
           || (accepts table
                 (exists_assignment col_divisionId
                    (divisionIds (fetchUserOrgScopeIds table caller))) event
               || (accepts table
                     (exists_assignment col_departmentId
                        (departmentIds (fetchUserOrgScopeIds table caller))) event
                   || accepts table
                        (exists_assignment col_locationId
                           (locationIds (fetchUserOrgScopeIds table caller))) event)).
Proof.
  intros Hcaller. unfold scope_whereParts. rewrite Hcaller.
  destruct (divisionIds (fetchUserOrgScopeIds table caller)) as [|d1 ds];
    destruct (departmentIds (fetchUserOrgScopeIds table caller)) as [|p1 ps];
    destruct (locationIds (fetchUserOrgScopeIds table caller)) as [|l1 ls];
    cbn [app]; eexists; (split; [reflexivity|]); intros event;
    rewrite ?exists_condition_nil; unfold accepts; cbn [eval];
    rewrite ?is_true_or; cbn [is_true];
    rewrite ?orb_false_r, ?orb_false_l; reflexivity.
Qed.

(** C7.  The scope predicate under [ldd].  For a caller with an id, the
    read API pushes one condition, and that condition accepts exactly the
    events whose actor is the caller or whose actor has an assignment row
    sharing a division, a department or a location with a row of the
    caller, looked up by the event's actor id; for a caller without any
    assignment in the three dimensions the condition pushed under [ldd] is
    the one pushed under [own]. *)
Theorem ldd_scope_condition (caller : string) :
  caller <> "" ->
  (exists cond : SqlCondition,
     scope_whereParts ScopeMode.ldd caller table = [cond]
     /\ forall event : AuditRow,
          accepts table cond event = true <-> Spec.ldd_visible table caller event)
  /\ (Spec.no_assignments table caller ->
      scope_whereParts ScopeMode.ldd caller table = [eq_actorId caller]
      /\ scope_whereParts ScopeMode.ldd caller table
         = scope_whereParts ScopeMode.own caller table).
Proof.
  intros Hcaller.
  assert (Htruthy : JsString.truthy caller = true).
  { unfold JsString.truthy. now rewrite (eqb_false_of_neq _ _ Hcaller). }
  split.
  - destruct (ldd_condition caller Htruthy) as (cond & Hparts & Hcond).
    exists cond. split; [assumption|]. intros event.
    rewrite Hcond, !orb_true_iff, own_condition_accepts, !exists_condition_accepts.
    unfold Spec.ldd_visible, Spec.shares. split.
    + intros [H | [(a & d & Ha & Hactor & Hd & Hin)
                  | [(a & d & Ha & Hactor & Hd & Hin)
                    | (a & d & Ha & Hactor & Hd & Hin)]]]; [now left | | |];
        right;
        [apply (fetched_ids col_divisionId) in Hin
        |apply (fetched_ids col_departmentId) in Hin
        |apply (fetched_ids col_locationId) in Hin];
        destruct Hin as (b & Hb & Hk & Hc & Hx);
        exists a, b; repeat (split; [assumption|]); eauto 8.
    + intros [H | (a & b & Ha & Hb & Hactor & Hk & Hshare)]; [now left|].
      right.
      destruct Hshare as [(d & Hx & Hda & Hdb) | [(d & Hx & Hda & Hdb) | (d & Hx & Hda & Hdb)]];
        [left | right; left | right; right];
        exists a, d; repeat (split; [assumption|]);
        [apply (fetched_ids col_divisionId)
        |apply (fetched_ids col_departmentId)
        |apply (fetched_ids col_locationId)];
        exists b; auto.
  - intros Hnone.
    assert (Hempty : forall c : OrgColumn,
               Spec.ids_of c (fetchUserOrgScopeIds table caller) = []).
    { intros c.
      destruct (Spec.ids_of c (fetchUserOrgScopeIds table caller)) as [|x l] eqn:E;
        [reflexivity|].
      assert (Hx : In x (Spec.ids_of c (fetchUserOrgScopeIds table caller)))
        by (rewrite E; now left).
      apply fetched_ids in Hx. destruct Hx as (b & Hb & Hk & Hc & Hx).
      destruct (Hnone b c Hb Hk) as [H | H]; rewrite Hc in H;
        [discriminate H | injection H as ->; now contradiction Hx]. }
    pose proof (Hempty col_divisionId) as Hd.
    pose proof (Hempty col_departmentId) as Hp.
    pose proof (Hempty col_locationId) as Hl.
    cbn [Spec.ids_of] in Hd, Hp, Hl.
    unfold scope_whereParts. rewrite Hd, Hp, Hl, Htruthy. split; reflexivity.
Qed.

End LddScope.

Lemma ldd_scope_condition_witness :
  exists cond : ApiAudit.SqlCondition,
    ApiAudit.scope_whereParts ScopeMode.ldd "alice" Fixture.org_table = [cond]
    /\ ApiAudit.accepts Fixture.org_table cond (Fixture.event_by "bob") = true
    /\ ApiAudit.scope_whereParts ScopeMode.ldd "dave" Fixture.org_table
       = [ApiAudit.eq_actorId "dave"].
Proof.
  destruct (ldd_scope_condition Fixture.org_table "alice") as [(cond & Hparts & Hcond) _];
    [discriminate|].
  exists cond. split; [exact Hparts|]. split.
  - apply Hcond. right.
    exists (Fixture.assignment "bob" (Some "d1") None),
      (Fixture.assignment "alice" (Some "d1") (Some "sales")).
    split; [right; left; reflexivity|].
    split; [left; reflexivity|].
    split; [reflexivity|].
    split; [reflexivity|].
    left. exists "d1". split; [discriminate | split; reflexivity].
  - destruct (ldd_scope_condition Fixture.org_table "dave") as [_ Hnone];
      [discriminate|].
    apply Hnone. intros b c Hb Hk.
    destruct Hb as [<- | [<- | [<- | [<- | []]]]]; try discriminate Hk.
    destruct c; cbn; auto.
Defined.

(* ================================================================= *)
(** * Further properties *)

(** ** The write counter and the context *)

Section WriteCounter.

Variable JSON_stringify : JsValue -> Completion (option string).

(** X1.  The write counter counts the rows.  Inside a context, a call of
    either write path adds no row or one row, and raises the counter of
    the context by exactly the number of rows it has added, whether the
    call succeeds, is skipped or fails. *)
Theorem write_counter_counts_rows
  (app : AppDbModule) (dbOrTx : DbHandle) (explicit : WriteAuditEventInput)
  (input : AutoAudit.AutoAuditInput) (w : World) (ctx : AuditRequestContext) :
  als w = Some ctx ->
  let added := fun w' : World =>
    Z.of_nat (List.length (audit_events w')) - Z.of_nat (List.length (audit_events w)) in
  let strict := snd (writeAuditEvent dbOrTx explicit w) in
  let derived := snd (AutoAudit.writeAutoAuditEvent JSON_stringify app input w) in
  (getAuditWrites strict = (Normal (auditWrites ctx + added strict), strict)
   /\ (added strict = 0 \/ added strict = 1))
  /\ (getAuditWrites derived = (Normal (auditWrites ctx + added derived), derived)
      /\ (added derived = 0 \/ added derived = 1)).
Proof.
  intros Hctx. cbv zeta. split.
  - rewrite writeAuditEvent_run, Hctx. cbv zeta.
    destruct (insert_rejects dbOrTx (audit_events w) _);
      cbn [snd audit_events]; unfold getAuditWrites; cbn [als option_map bump auditWrites].
    + split; [do 2 f_equal; lia | left; lia].
    + rewrite length_app. cbn [List.length].
      split; [do 2 f_equal; lia | right; lia].
  - destruct (writeAutoAuditEvent_outcome JSON_stringify app input w)
      as [(_ & Hrows & Hals)
         | (ctx' & m & db & row & Hctx' & _ & _ & _ & _ & _ & _ & _ & Hrun)].
    + cbv zeta in Hrows, Hals. unfold getAuditWrites.
      rewrite Hals, Hrows, Hctx. split; [do 2 f_equal; lia | left; lia].
    + cbv zeta in Hrun. rewrite Hrun. cbn [snd audit_events].
      rewrite Hctx in Hctx'. injection Hctx' as <-.
      unfold getAuditWrites. cbn [als bump auditWrites].
      rewrite length_app. cbn [List.length].
      split; [do 2 f_equal; lia | right; lia].
Qed.

(** X2.  The deriver writes at most once in a request.  In a context whose
    counter is not negative, once a call of the deriver has written, every
    later call, whatever its input and the state of the database module,
    returns false and leaves the table as it is. *)
Theorem deriver_writes_at_most_once
  (app app' : AppDbModule) (input input' : AutoAudit.AutoAuditInput)
  (w : World) (ctx : AuditRequestContext) :
  als w = Some ctx ->
  0 <= auditWrites ctx ->
  fst (AutoAudit.writeAutoAuditEvent JSON_stringify app input w) = Normal true ->
  let w1 := snd (AutoAudit.writeAutoAuditEvent JSON_stringify app input w) in
  fst (AutoAudit.writeAutoAuditEvent JSON_stringify app' input' w1) = Normal false
  /\ audit_events (snd (AutoAudit.writeAutoAuditEvent JSON_stringify app' input' w1))
     = audit_events w1
  /\ insert_calls (snd (AutoAudit.writeAutoAuditEvent JSON_stringify app' input' w1))
     = insert_calls w1.
Proof.
  intros Hctx Hpos Htrue. cbv zeta.
  destruct (writeAutoAuditEvent_outcome JSON_stringify app input w)
    as [(Hfalse & _) | (ctx' & m & db & row & Hctx' & Hle & _ & _ & _ & _ & _ & _ & Hrun)].
  - cbv zeta in Hfalse. rewrite Hfalse in Htrue. discriminate.
  - cbv zeta in Hrun. rewrite Hrun. cbn [snd].
    rewrite Hctx in Hctx'. injection Hctx' as <-.
    destruct (writeAutoAuditEvent_skips JSON_stringify app' input'
                {| als := Some (bump ctx);
                   audit_events := audit_events w ++ [row];
                   insert_calls := insert_calls w ++ [row];
                   console := console w |})
      as (H1 & H2 & H3 & _).
    + right. exists (bump ctx). split; [reflexivity|]. left. cbn. lia.
    + auto.
Qed.

(** X3.  A context is scoped to its run.  Whatever the function run inside
    [withAuditContext] does, and also when it throws, the store of the
    caller is back when the run is over; inside, the counter starts at 0.
    So a write made inside a nested context is not counted in the
    surrounding one: after it, the surrounding counter is what it was,
    although a row has been added. *)
Theorem context_is_scoped_to_its_run
  (T : Type) (meta : AuditRequestContext) (fn : M T)
  (dbOrTx : DbHandle) (explicit : WriteAuditEventInput) (w : World) :
  als (snd (withAuditContext meta fn w)) = als w
  /\ withAuditContext meta getAuditWrites w = (Normal 0, w)
  /\ (insert_rejects dbOrTx (audit_events w)
        (writeAuditEvent_values (Some (fresh_context meta)) explicit) = None ->
      let nested := withAuditContext meta (writeAuditEvent dbOrTx explicit) in
      fst ((nested ;; getAuditWrites) w) = fst (getAuditWrites w)
      /\ audit_events (snd (nested w))
         = audit_events w
           ++ [writeAuditEvent_values (Some (fresh_context meta)) explicit]).
Proof.
  split; [|split].
  - unfold withAuditContext. destruct (fn _). reflexivity.
  - unfold withAuditContext, getAuditWrites. cbn. destruct w; reflexivity.
  - intros Hins. cbv zeta. unfold bind, withAuditContext.
    rewrite writeAuditEvent_run. cbn [als set_als audit_events]. cbv zeta.
    rewrite Hins. cbn. split; reflexivity.
Qed.

(** X4.  The deriver must run inside the context.  When the request has
    been handled inside [withAuditContext] and the deriver is called after
    that run, outside any context, it only logs a warning: it returns
    false and attempts no insert, whatever the request was. *)
Theorem deriver_after_the_context_is_skipped
  (T : Type) (meta : AuditRequestContext) (handler : M T)
  (app : AppDbModule) (input : AutoAudit.AutoAuditInput) (w : World) :
  als w = None ->
  let handled := snd (withAuditContext meta handler w) in
  AutoAudit.writeAutoAuditEvent JSON_stringify app input handled
  = (Normal false,
     log_line (Warn "[auto-audit] No audit context available, skipping auto-audit")
       handled).
Proof.
  intros Hnone. cbv zeta.
  assert (H : als (snd (withAuditContext meta handler w)) = None).
  { unfold withAuditContext. destruct (handler _). cbn. assumption. }
  unfold AutoAudit.writeAutoAuditEvent, bind, getAuditContext. rewrite H.
  reflexivity.
Qed.

End WriteCounter.

Lemma write_counter_counts_rows_witness :
  let w := Fixture.inside (Fixture.ctx_of "POST" "/api/crm/contacts") in
  fst (getAuditWrites
         (snd (writeAuditEvent Fixture.rejecting_db (Fixture.write_input None None) w)))
  = Normal 0.
Proof.
  intros w.
  destruct (write_counter_counts_rows Json.JSON_stringify
              (Fixture.app_with Fixture.accepting_db) Fixture.rejecting_db
              (Fixture.write_input None None)
              (Fixture.auto_input 200 JUndefined JUndefined) w
              (Fixture.ctx_of "POST" "/api/crm/contacts") eq_refl)
    as [[Hstrict _] _].
  rewrite Hstrict. reflexivity.
Defined.

Lemma deriver_writes_at_most_once_witness :
  let app := Fixture.app_with Fixture.accepting_db in
  let input := Fixture.auto_input 201 JUndefined JUndefined in
  let w := Fixture.inside (Fixture.ctx_of "POST" "/api/crm/contacts") in
  let w1 := snd (AutoAudit.writeAutoAuditEvent Json.JSON_stringify app input w) in
  fst (AutoAudit.writeAutoAuditEvent Json.JSON_stringify app input w1) = Normal false.
Proof.
  intros app input w w1.
  destruct (deriver_writes_at_most_once Json.JSON_stringify app app input input w
              (Fixture.ctx_of "POST" "/api/crm/contacts") eq_refl)
    as (H & _).
  - cbn. lia.
  - vm_compute. reflexivity.
  - exact H.
Defined.

Lemma context_is_scoped_to_its_run_witness :
  let outer := Fixture.inside (bump (Fixture.ctx_of "POST" "/api/crm/contacts")) in
  let nested :=
    withAuditContext (Fixture.ctx_of "POST" "/api/crm/notes")
      (writeAuditEvent Fixture.accepting_db (Fixture.write_input None None)) in
  fst ((nested ;; getAuditWrites) outer) = Normal 1.
Proof.
  intros outer nested.
  destruct (context_is_scoped_to_its_run unit (Fixture.ctx_of "POST" "/api/crm/notes")
              (ret tt) Fixture.accepting_db (Fixture.write_input None None) outer)
    as (_ & _ & Hnested).
  destruct (Hnested eq_refl) as [H _]. exact H.
Defined.

Lemma deriver_after_the_context_is_skipped_witness :
  fst (AutoAudit.writeAutoAuditEvent Json.JSON_stringify
         (Fixture.app_with Fixture.accepting_db)
         (Fixture.auto_input 201 JUndefined JUndefined)
         (snd (withAuditContext (Fixture.ctx_of "POST" "/api/crm/contacts")
                 (ret tt) Fixture.outside)))
  = Normal false.
Proof.
  rewrite (deriver_after_the_context_is_skipped Json.JSON_stringify unit
             (Fixture.ctx_of "POST" "/api/crm/contacts") (ret tt)
             (Fixture.app_with Fixture.accepting_db)
             (Fixture.auto_input 201 JUndefined JUndefined) Fixture.outside eq_refl).
  reflexivity.
Defined.

(** ** Singularization and the derived entity *)

Section SingularFacts.

Import JsString.

Lemma length_append (a b : string) :
  String.length (a ++ b) = (String.length a + String.length b)%nat.
Proof.
  induction a as [|c a IH]; simpl; [reflexivity|]. now rewrite IH.
Qed.

Lemma endsWith_true (w p : string) :
  endsWith w p = true -> exists stem : string, w = (stem ++ p)%string.
Proof.
  rewrite endsWith_rev, starts_iff. intros [rest H].
  exists (str (rev rest)).
  rewrite <- (str_chars w), <- (str_chars p) at 1. rewrite <- str_app. f_equal.
  rewrite <- (rev_involutive (chars w)), H, rev_app_distr.
  now rewrite rev_involutive.
Qed.

Lemma slice_drop_suffix (stem p : string) :
  (0 < String.length p)%nat ->
  slice (stem ++ p) 0 (- Z.of_nat (String.length p)) = stem.
Proof.
  intros Hp. rewrite slice_drop_last by assumption.
  rewrite chars_append, rev_app_distr, skipn_app.
  rewrite skipn_all2 by (rewrite length_rev, length_chars; lia).
  rewrite length_rev, length_chars, Nat.sub_diag. cbn [skipn app].
  now rewrite rev_involutive, str_chars.
Qed.

(** Every word falls in one of the four cases of [singularize]. *)
Lemma singularize_cases (word : string) :
  (exists stem : string,
     word = (stem ++ "ies")%string
     /\ AutoAudit.singularize word = (stem ++ "y")%string)
  \/ (exists stem c : string,
        String.length c = 1%nat
        /\ word = (stem ++ c ++ "es")%string
        /\ AutoAudit.singularize word = (stem ++ c)%string)
  \/ (exists stem : string,
        word = (stem ++ "s")%string /\ AutoAudit.singularize word = stem)
  \/ (AutoAudit.singularize word = word /\ word <> "s").
Proof.
  unfold AutoAudit.singularize.
  destruct (endsWith word "ies") eqn:Hies.
  { left. apply endsWith_true in Hies. destruct Hies as [stem ->].
    exists stem. split; [reflexivity|].
    change (-3) with (- Z.of_nat (String.length "ies")).
    now rewrite (slice_drop_suffix stem "ies") by (simpl; lia). }
  assert (Hes : forall c : string,
             String.length c = 1%nat -> endsWith word (c ++ "es") = true ->
             exists stem : string,
               word = (stem ++ c ++ "es")%string
               /\ slice word 0 (-2) = (stem ++ c)%string).
  { intros c Hc H. apply endsWith_true in H. destruct H as [stem ->].
    exists stem. split; [reflexivity|].
    rewrite <- append_assoc3. change (-2) with (- Z.of_nat (String.length "es")).
    now rewrite (slice_drop_suffix (stem ++ c) "es") by (simpl; lia). }
  destruct (endsWith word "ses") eqn:Hses.
  { right. left. destruct (Hes "s" eq_refl Hses) as (stem & Hw & Hs).
    exists stem, "s". rewrite Hs. auto. }
  destruct (endsWith word "xes") eqn:Hxes.
  { right. left. destruct (Hes "x" eq_refl Hxes) as (stem & Hw & Hs).
    exists stem, "x". rewrite Hs. auto. }
  destruct (endsWith word "zes") eqn:Hzes.
  { right. left. destruct (Hes "z" eq_refl Hzes) as (stem & Hw & Hs).
    exists stem, "z". rewrite Hs. auto. }
  cbn [orb].
  destruct (endsWith word "s") eqn:Hs; cbn [andb].
  - destruct (endsWith word "ss") eqn:Hss; cbn [negb].
    + right. right. right. split; [reflexivity|]. intros ->. discriminate Hss.
    + right. right. left. apply endsWith_true in Hs. destruct Hs as [stem ->].
      exists stem. split; [reflexivity|].
      change (-1) with (- Z.of_nat (String.length "s")).
      now rewrite (slice_drop_suffix stem "s") by (simpl; lia).
  - right. right. right. split; [reflexivity|]. intros ->. discriminate Hs.
Qed.

Lemma append_empty (a b : string) : (a ++ b)%string = "" -> a = "" /\ b = "".
Proof. destruct a; [simpl; auto | discriminate]. Qed.

Lemma singularize_empty_iff (word : string) :
  AutoAudit.singularize word = "" <-> word = "" \/ word = "s".
Proof.
  destruct (singularize_cases word)
    as [(stem & -> & ->) | [(stem & c & Hc & -> & ->) | [(stem & -> & ->) | [-> Hs]]]].
  - split.
    + intros H. apply append_empty in H. destruct H as [_ H]. discriminate H.
    + intros [H | H]; apply (f_equal String.length) in H;
        rewrite length_append in H; simpl in H; lia.
  - split.
    + intros H. apply append_empty in H. destruct H as [_ ->]. discriminate Hc.
    + intros [H | H]; apply (f_equal String.length) in H;
        rewrite !length_append in H; simpl in H; lia.
  - split.
    + intros ->. now right.
    + intros [H | H].
      * apply append_empty in H. tauto.
      * destruct stem as [|a stem]; [reflexivity|].
        apply (f_equal String.length) in H. simpl in H.
        rewrite length_append in H. simpl in H. lia.
  - split; [auto | intros [H | H]; [assumption | contradiction]].
Qed.

(** X5.  The edges of [singularize].  The result is empty exactly for
    the empty word and for the word [s]; it is never longer than the
    word and at most 2 characters shorter. *)
Theorem singularize_edges (word : string) :
  (AutoAudit.singularize word = "" <-> word = "" \/ word = "s")
  /\ (String.length (AutoAudit.singularize word) <= String.length word)%nat
  /\ (String.length word <= String.length (AutoAudit.singularize word) + 2)%nat.
Proof.
  split; [apply singularize_empty_iff|].
  destruct (singularize_cases word)
    as [(stem & -> & ->) | [(stem & c & Hc & -> & ->) | [(stem & -> & ->) | [-> Hs]]]];
    rewrite ?length_append; simpl; lia.
Qed.

Lemma segments_are_not_empty (path x : string) :
  In x (Spec.segments path) -> x <> "".
Proof.
  unfold Spec.segments. rewrite in_map_iff. intros (l & <- & Hl).
  apply filter_In in Hl. destruct Hl as [_ Hl].
  destruct l; [discriminate Hl | discriminate].
Qed.

Lemma looks_like_id_not_empty (s : string) :
  Spec.looks_like_id s = true -> s <> "".
Proof. intros H ->. discriminate H. Qed.

Lemma extracted_id_is_a_segment (path ident : string) :
  AutoAudit.id (AutoAudit.extractEntityFromPath path) = Some ident ->
  In ident (tl (Spec.segments path))
  /\ Spec.looks_like_id ident = true /\ ident <> "".
Proof.
  rewrite extractEntityFromPath_refines.
  destruct (Spec.segments path) as [|pack remaining]; cbn [Spec.extractEntity tl];
    [discriminate|].
  assert (Hrem : forall x, In x (rev remaining) -> In x remaining)
    by (intros x Hx; now apply in_rev).
  destruct (rev remaining) as [|final before]; [discriminate|].
  destruct (Spec.looks_like_id final) eqn:Hid; cbn [AutoAudit.id]; [|discriminate].
  intros H. injection H as <-.
  split; [apply Hrem; now left|].
  split; [assumption | now apply looks_like_id_not_empty].
Qed.

(** X6.  What [extractEntityFromPath] never and always returns.  An id
    that it returns is a segment of the path that has the shape of a UUID
    or of a number, and is not empty; the kind is empty only when the
    path has a segment [s] after the pack name, whose singular is empty;
    and a path without segments gives the kind [unknown]. *)
Theorem extracted_entity_edges (path : string) :
  let entity := AutoAudit.extractEntityFromPath path in
  (forall ident : string,
     AutoAudit.id entity = Some ident ->
     In ident (tl (Spec.segments path))
     /\ Spec.looks_like_id ident = true /\ ident <> "")
  /\ (AutoAudit.kind entity = "" -> In "s" (tl (Spec.segments path)))
  /\ (Spec.segments path = [] ->
      entity = {| AutoAudit.kind := "unknown"; AutoAudit.id := None |}).
Proof.
  cbv zeta. split; [intros ident; apply extracted_id_is_a_segment|].
  rewrite extractEntityFromPath_refines.
  pose proof (segments_are_not_empty path) as Hne.
  destruct (Spec.segments path) as [|pack remaining]; cbn [Spec.extractEntity tl].
  { split; [discriminate | reflexivity]. }
  assert (Hrem : forall x, In x (rev remaining) -> In x remaining)
    by (intros x Hx; now apply in_rev).
  destruct (rev remaining) as [|final before].
  { split; [|discriminate].
    cbn. intros ->. exfalso. apply (Hne "" (or_introl eq_refl)). reflexivity. }
  destruct (Spec.looks_like_id final) eqn:Hid; cbn [AutoAudit.kind].
  - split; [|discriminate].
    destruct before as [|preceding before].
    + intros ->. exfalso. apply (Hne "" (or_introl eq_refl)). reflexivity.
    + rewrite <- singularize_refines. intros H.
      apply singularize_empty_iff in H. destruct H as [-> | ->].
      * exfalso. apply (Hne ""); [right; apply Hrem; right; now left | reflexivity].
      * apply Hrem. right. now left.
  - split; [|discriminate].
    rewrite <- singularize_refines. intros H.
    apply singularize_empty_iff in H. destruct H as [-> | ->].
    + exfalso. apply (Hne ""); [right; apply Hrem; now left | reflexivity].
    + apply Hrem. now left.
Qed.

End SingularFacts.

Lemma extracted_entity_edges_witness :
  AutoAudit.kind (AutoAudit.extractEntityFromPath "/api/crm/s") = ""
  /\ In "s" (tl (Spec.segments "/api/crm/s")).
Proof.
  split; [reflexivity|].
  destruct (extracted_entity_edges "/api/crm/s") as (_ & Hkind & _).
  apply Hkind. reflexivity.
Defined.

(** ** The rows that the deriver writes *)

Section DerivedRows.

Import JsString.

Variable JSON_stringify : JsValue -> Completion (option string).

Lemma upper_char_cases (c : ascii) :
  upper_char (upper_char c) = upper_char c
  /\ lower_char (upper_char c) = lower_char c.
Proof.
  destruct c as [[] [] [] [] [] [] [] []]; split; reflexivity.
Qed.

Lemma toUpperCase_idempotent (s : string) :
  toUpperCase (toUpperCase s) = toUpperCase s.
Proof.
  unfold toUpperCase. rewrite chars_str, map_map. f_equal.
  apply map_ext. intros c. apply upper_char_cases.
Qed.


Lemma toLowerCase_not_empty (s : string) : s <> "" -> toLowerCase s <> "".
Proof.
  destruct s as [|c s]; [intros H; now contradiction H|].
  intros _. unfold toLowerCase. cbn. discriminate.
Qed.

Lemma methodToAction_not_empty (method : string) :
  method <> "" -> AutoAudit.methodToAction method <> "".
Proof.
  intros H. unfold AutoAudit.methodToAction.
  repeat match goal with
         | |- context [if ?b then _ else _] => destruct b; try discriminate
         end.
  now apply toLowerCase_not_empty.
Qed.

Lemma derive_action_not_empty (method : string) (status : Z) :
  method <> "" -> AutoAudit.derive_action method status <> "".
Proof.
  intros H. unfold AutoAudit.derive_action.
  pose proof (methodToAction_not_empty method H) as Hverb.
  destruct (negb _); [destruct (_ && _)|]; try assumption;
    intros E; apply append_empty in E; tauto.
Qed.


(** A run of the deriver that returns true has derived the row from the
    context's method and path and has stored it. *)
Lemma writeAutoAuditEvent_written
  (app : AppDbModule) (input : AutoAudit.AutoAuditInput) (w : World) :
  fst (AutoAudit.writeAutoAuditEvent JSON_stringify app input w) = Normal true ->
  exists (ctx : AuditRequestContext) (m p : string) (row : AuditRow),
    als w = Some ctx
    /\ ctx_method ctx = Some m
    /\ toUpperCase m <> ""
    /\ ctx_path ctx = Some p
    /\ AutoAudit.derive_row JSON_stringify ctx (toUpperCase m) input = Normal row
    /\ audit_events (snd (AutoAudit.writeAutoAuditEvent JSON_stringify app input w))
       = audit_events w ++ [row].
Proof.
  unfold AutoAudit.writeAutoAuditEvent, bind, getAuditContext.
  destruct (als w) as [ctx|] eqn:Hals; [|discriminate].
  destruct (0 <? auditWrites ctx); [discriminate|].
  destruct (ctx_method ctx) as [m|] eqn:Hm; [|discriminate].
  cbn [option_map].
  destruct (JsString.truthy (toUpperCase m)) eqn:Htruthy; cbn [negb]; [|discriminate].
  destruct (negb (AutoAudit.isWrite (toUpperCase m)) && _); [discriminate|].
  unfold try_catch, bind, lift, console_error, ret.
  destruct (import_db app) as [[]|e]; [|discriminate].
  destruct (getDb app) as [db|e]; [|discriminate].
  destruct (AutoAudit.derive_row JSON_stringify ctx (toUpperCase m) input)
    as [row|e] eqn:Hrow; [|discriminate].
  unfold insert_values.
  destruct (insert_rejects db (audit_events w) row); [discriminate|].
  intros _.
  assert (Hpath : exists p, ctx_path ctx = Some p).
  { unfold AutoAudit.derive_row in Hrow.
    destruct (ctx_path ctx) as [p|]; [now exists p | discriminate Hrow]. }
  destruct Hpath as [p Hpath].
  exists ctx, m, p, row. repeat split; try assumption.
  - intros E. unfold JsString.truthy in Htruthy. rewrite E in Htruthy.
    discriminate Htruthy.
  - unfold markAuditWrite. cbn. rewrite Hals. reflexivity.
Qed.

(** X8.  What every derived row carries.  When the deriver returns true
    it has appended one row; that row has the correlation id, pack name,
    method, path, address and user agent of the context; its actor is the
    one of the input, else the one of the context, else [system], so it
    is never null; its action and its summary are not empty; it has
    details; and it has no event type, outcome or changes. *)
Theorem derived_row_invariants
  (app : AppDbModule) (input : AutoAudit.AutoAuditInput) (w : World) :
  fst (AutoAudit.writeAutoAuditEvent JSON_stringify app input w) = Normal true ->
  exists (ctx : AuditRequestContext) (row : AuditRow),
    als w = Some ctx
    /\ audit_events (snd (AutoAudit.writeAutoAuditEvent JSON_stringify app input w))
       = audit_events w ++ [row]
    /\ (correlationId row = ctx_correlationId ctx
        /\ packName row = ctx_packName ctx
        /\ method row = ctx_method ctx
        /\ path row = ctx_path ctx
        /\ ipAddress row = ctx_ipAddress ctx
        /\ userAgent row = ctx_userAgent ctx)
    /\ actorId row
       = Some match AutoAudit.input_actorId input, ctx_actorId ctx with
              | Some a, _ => a
              | None, Some a => a
              | None, None => "system"
              end
    /\ actorType row = actor_user
    /\ action row <> ""
    /\ summary row <> ""
    /\ details row <> None
    /\ eventType row = None /\ outcome row = None /\ changes row = None.
Proof.
  intros Htrue.
  destruct (writeAutoAuditEvent_written app input w Htrue)
    as (ctx & m & p & row & Hctx & Hm & Hupper & Hpath & Hrow & Hrows).
  exists ctx, row. split; [assumption|]. split; [assumption|].
  unfold AutoAudit.derive_row in Hrow. rewrite Hpath in Hrow.
  injection Hrow as <-.
  cbn [correlationId packName method path ipAddress userAgent actorId actorType
       action summary details eventType outcome changes].
  split; [rewrite Hpath; repeat split|].
  split; [destruct (AutoAudit.input_actorId input), (ctx_actorId ctx); reflexivity|].
  split; [reflexivity|].
  split; [now apply derive_action_not_empty|].
  split; [|repeat split; discriminate].
  assert (Hbase : forall a k i pk, AutoAudit.buildSummary a k i pk <> "").
  { intros a k i pk. unfold AutoAudit.buildSummary.
    destruct i as [i|]; [destruct (JsString.truthy i)|];
      intros E; apply append_empty in E; destruct E as [_ E]; discriminate E. }
  destruct (negb ((200 <=? _) && _)); [|apply Hbase].
  destruct (AutoAudit.extractErrorHint _) as [hint|]; [|apply Hbase].
  destruct (JsString.truthy hint); [|apply Hbase].
  intros E. apply append_empty in E. destruct E as [E _]. revert E. apply Hbase.
Qed.

(** X9.  The id of the derived entity.  An id found in the path is kept
    whatever the response says; without one, a successful POST takes the
    [id] of the response body when that is a non-empty string; and no
    other request takes an id from the response. *)
Theorem derived_entity_id
  (ctx : AuditRequestContext) (method p : string) (input : AutoAudit.AutoAuditInput) :
  ctx_path ctx = Some p ->
  exists row : AuditRow,
    AutoAudit.derive_row JSON_stringify ctx method input = Normal row
    /\ (forall ident : string,
          AutoAudit.id (AutoAudit.extractEntityFromPath p) = Some ident ->
          entityId row = Some ident)
    /\ (AutoAudit.id (AutoAudit.extractEntityFromPath p) = None ->
        (forall created : string,
           method = "POST" ->
           200 <= AutoAudit.responseStatus input < 300 ->
           getProp (AutoAudit.responseBody input) "id" = JStr created ->
           created <> "" ->
           entityId row = Some created)
        /\ (method <> "POST" \/ ~ 200 <= AutoAudit.responseStatus input < 300 ->
            entityId row = None)).
Proof.
  intros Hpath. unfold AutoAudit.derive_row. rewrite Hpath.
  eexists. split; [reflexivity|]. cbn [entityId].
  split; [|intros Hnone; split].
  - intros ident Hid. rewrite Hid.
    destruct (extracted_id_is_a_segment p ident Hid) as (_ & _ & Hne).
    cbn [AutoAudit.some_truthy]. unfold JsString.truthy at 1.
    rewrite (eqb_false_of_neq _ _ Hne). cbn [negb].
    now rewrite andb_false_r.
  - intros created -> [H1 H2] Hbody Hcreated. rewrite Hnone.
    cbn [AutoAudit.some_truthy negb String.eqb Ascii.eqb Bool.eqb andb].
    assert (Htruthy : Js.truthy (AutoAudit.responseBody input) = true).
    { destruct (AutoAudit.responseBody input); try discriminate Hbody. reflexivity. }
    rewrite Htruthy, Hbody.
    replace (200 <=? AutoAudit.responseStatus input) with true
      by (symmetry; now apply Z.leb_le).
    replace (AutoAudit.responseStatus input <? 300) with true
      by (symmetry; now apply Z.ltb_lt).
    cbn [andb]. unfold JsString.truthy. now rewrite (eqb_false_of_neq _ _ Hcreated).
  - intros Hnot. rewrite Hnone.
    match goal with
    | |- (if ?b then _ else _) = None => replace b with false; [reflexivity|]
    end.
    symmetry. destruct Hnot as [Hm | Hs].
    + rewrite (eqb_false_of_neq _ _ Hm). reflexivity.
    + rewrite andb_false_iff. right. apply andb_false_iff.
      destruct (Z.leb_spec 200 (AutoAudit.responseStatus input)); [right | now left].
      apply Z.ltb_ge. lia.
Qed.

End DerivedRows.


Lemma derived_row_invariants_witness :
  exists row : AuditRow,
    audit_events
      (snd (AutoAudit.writeAutoAuditEvent Json.JSON_stringify
              (Fixture.app_with Fixture.accepting_db)
              (Fixture.auto_input 500 JUndefined (JStr " boom "))
              (Fixture.inside (Fixture.ctx_of "DELETE" "/api/crm/contacts/7"))))
    = [row]
    /\ actorId row = Some "user-1"
    /\ summary row <> "".
Proof.
  destruct (derived_row_invariants Json.JSON_stringify
              (Fixture.app_with Fixture.accepting_db)
              (Fixture.auto_input 500 JUndefined (JStr " boom "))
              (Fixture.inside (Fixture.ctx_of "DELETE" "/api/crm/contacts/7")))
    as (ctx & row & Hctx & Hrows & _ & Hactor & _ & _ & Hsummary & _).
  - vm_compute. reflexivity.
  - exists row. split; [exact Hrows|]. split; [|exact Hsummary].
    rewrite Hactor. injection Hctx as <-. reflexivity.
Defined.

Lemma derived_entity_id_witness :
  exists row : AuditRow,
    AutoAudit.derive_row Json.JSON_stringify
      (Fixture.ctx_of "POST" "/api/crm/contacts") "POST"
      (Fixture.auto_input 201 JUndefined (JObj [("id", JStr "c-9")]))
    = Normal row
    /\ entityId row = Some "c-9".
Proof.
  destruct (derived_entity_id Json.JSON_stringify
              (Fixture.ctx_of "POST" "/api/crm/contacts") "POST" "/api/crm/contacts"
              (Fixture.auto_input 201 JUndefined (JObj [("id", JStr "c-9")]))
              eq_refl)
    as (row & Hrow & _ & Hbody).
  exists row. split; [exact Hrow|].
  destruct (Hbody eq_refl) as [Hcreated _].
  apply Hcreated; [reflexivity | cbn; lia | reflexivity | discriminate].
Defined.

(** ** The details of a derived row *)

Section Details.

Variable JSON_stringify : JsValue -> Completion (option string).

Lemma insert_slow_permutation (q : AutoAudit.SlowQueryRecord)
  (sorted : list AutoAudit.SlowQueryRecord) :
  Permutation (AutoAudit.insert_slow q sorted) (q :: sorted).
Proof.
  induction sorted as [|q' rest IH]; cbn; [reflexivity|].
  destruct (_ <? _); [|reflexivity].
  rewrite IH. apply perm_swap.
Qed.

Lemma sort_slowest_first_permutation (qs : list AutoAudit.SlowQueryRecord) :
  Permutation (AutoAudit.sort_slowest_first qs) qs.
Proof.
  induction qs as [|q qs IH]; cbn; [reflexivity|].
  rewrite insert_slow_permutation. now constructor.
Qed.

Lemma insert_slow_sorted (q : AutoAudit.SlowQueryRecord)
  (sorted : list AutoAudit.SlowQueryRecord) :
  StronglySorted (fun a b => AutoAudit.sq_durationMs b <= AutoAudit.sq_durationMs a) sorted ->
  StronglySorted (fun a b => AutoAudit.sq_durationMs b <= AutoAudit.sq_durationMs a)
    (AutoAudit.insert_slow q sorted).
Proof.
  induction sorted as [|q' rest IH]; intros Hsorted; cbn.
  - repeat constructor.
  - inversion Hsorted as [|? ? Hrest Hall]; subst.
    destruct (Z.ltb_spec (AutoAudit.sq_durationMs q) (AutoAudit.sq_durationMs q')).
    + constructor; [now apply IH|].
      apply Forall_forall. intros x Hx.
      apply (Permutation_in _ (insert_slow_permutation q rest)) in Hx.
      destruct Hx as [<- | Hx]; [lia|].
      rewrite Forall_forall in Hall. now apply Hall.
    + constructor; [assumption|].
      constructor; [lia|].
      rewrite Forall_forall in Hall |- *. intros x Hx.
      specialize (Hall x Hx). lia.
Qed.

Lemma sort_slowest_first_sorted (qs : list AutoAudit.SlowQueryRecord) :
  StronglySorted (fun a b => AutoAudit.sq_durationMs b <= AutoAudit.sq_durationMs a)
    (AutoAudit.sort_slowest_first qs).
Proof.
  induction qs as [|q qs IH]; cbn; [constructor|].
  now apply insert_slow_sorted.
Qed.

Lemma sorted_split {A : Type} (R : A -> A -> Prop) (front back : list A) :
  StronglySorted R (front ++ back) ->
  StronglySorted R front
  /\ forall a b : A, In a front -> In b back -> R a b.
Proof.
  induction front as [|x front IH]; cbn; intros Hsorted.
  - split; [constructor | intros a b []].
  - inversion Hsorted as [|? ? Hrest Hall]; subst.
    destruct (IH Hrest) as [Hfront Hcross].
    rewrite Forall_forall in Hall.
    split.
    + constructor; [assumption|].
      apply Forall_forall. intros y Hy. apply Hall, in_or_app. now left.
    + intros a b [<- | Ha] Hb.
      * apply Hall, in_or_app. now right.
      * now apply Hcross.
Qed.

Lemma lookup_assign_other (k k' : string) (v : JsValue)
  (fields : list (string * JsValue)) :
  String.eqb k' k = false -> lookup k' (assign k v fields) = lookup k' fields.
Proof.
  intros Hk. induction fields as [|[k0 v0] rest IH]; cbn.
  - now rewrite Hk.
  - destruct (String.eqb_spec k k0) as [<- | Hk0]; cbn.
    + now rewrite Hk.
    + now rewrite IH.
Qed.

Lemma getProp_setProp_other (obj : JsValue) (k k' : string) (v : JsValue) :
  String.eqb k' k = false -> getProp (setProp obj k v) k' = getProp obj k'.
Proof.
  intros Hk. destruct obj; try reflexivity. cbn. now apply lookup_assign_other.
Qed.

Lemma lookup_assign_same (k : string) (v : JsValue) (fields : list (string * JsValue)) :
  lookup k (assign k v fields) = v.
Proof.
  induction fields as [|[k0 v0] rest IH]; cbn.
  - now rewrite String.eqb_refl.
  - destruct (String.eqb_spec k k0) as [<- | Hk0]; cbn.
    + now rewrite String.eqb_refl.
    + now rewrite (eqb_false_of_neq _ _ Hk0).
Qed.

Lemma getProp_when (b : bool) (obj : JsValue) (k k' : string) (v : JsValue) :
  String.eqb k' k = false ->
  getProp (if b then setProp obj k v else obj) k' = getProp obj k'.
Proof.
  intros Hk. destruct b; [now apply getProp_setProp_other | reflexivity].
Qed.

(** The details before the slow mark: an object whose fixed fields are
    those of the initial literal and the two timings. *)
Lemma details_before_the_slow_mark
  (input : AutoAudit.AutoAuditInput) (isSuccess : bool) :
  exists fields : list (string * JsValue),
    AutoAudit.build_details JSON_stringify input isSuccess
    = match AutoAudit.durationMs input with
      | Some d =>
          if negb (d =? 0) && (500 <? d)
          then setProp (JObj fields) "isSlow" (JBool true)
          else JObj fields
      | None => JObj fields
      end
    /\ lookup "responseStatus" fields = JNum (AutoAudit.responseStatus input)
    /\ lookup "success" fields = JBool isSuccess
    /\ lookup "durationMs" fields
       = match AutoAudit.durationMs input with Some d => JNum d | None => JNull end
    /\ lookup "dbTimeMs" fields
       = match AutoAudit.dbTimeMs input with Some t => JNum t | None => JUndefined end
    /\ lookup "moduleTimeMs" fields
       = match AutoAudit.moduleTimeMs input with Some t => JNum t | None => JUndefined end
    /\ lookup "isSlow" fields = JUndefined.
Proof.
  unfold AutoAudit.build_details. cbv zeta.
  match goal with
  | |- context [setProp ?obj "isSlow" _] => set (before := obj)
  end.
  assert (Hobject : exists fields, before = JObj fields).
  { subst before.
    destruct (AutoAudit.dbTimeMs input), (AutoAudit.moduleTimeMs input),
      (AutoAudit.slowQueries input) as [[|q qs]|],
      (negb (nullish (AutoAudit.requestBody input))),
      (negb (nullish (AutoAudit.responseBody input)));
      eexists; reflexivity. }
  assert (Hfixed : forall k : string,
            existsb (String.eqb k) ["requestBody"; "responseBody"; "slowQueries"] = false ->
            getProp before k
            = getProp
                match AutoAudit.moduleTimeMs input with
                | Some t =>
                    setProp
                      match AutoAudit.dbTimeMs input with
                      | Some t' =>
                          setProp
                            (JObj [("responseStatus", JNum (AutoAudit.responseStatus input));
                                   ("durationMs",
                                    match AutoAudit.durationMs input with
                                    | Some d => JNum d
                                    | None => JNull
                                    end);
                                   ("success", JBool isSuccess)])
                            "dbTimeMs" (JNum t')
                      | None =>
                          JObj [("responseStatus", JNum (AutoAudit.responseStatus input));
                                ("durationMs",
                                 match AutoAudit.durationMs input with
                                 | Some d => JNum d
                                 | None => JNull
                                 end);
                                ("success", JBool isSuccess)]
                      end "moduleTimeMs" (JNum t)
                | None =>
                    match AutoAudit.dbTimeMs input with
                    | Some t' =>
                        setProp
                          (JObj [("responseStatus", JNum (AutoAudit.responseStatus input));
                                 ("durationMs",
                                  match AutoAudit.durationMs input with
                                  | Some d => JNum d
                                  | None => JNull
                                  end);
                                 ("success", JBool isSuccess)])
                          "dbTimeMs" (JNum t')
                    | None =>
                        JObj [("responseStatus", JNum (AutoAudit.responseStatus input));
                              ("durationMs",
                               match AutoAudit.durationMs input with
                               | Some d => JNum d
                               | None => JNull
                               end);
                              ("success", JBool isSuccess)]
                    end
                end k).
  { intros k Hk. cbn [existsb] in Hk.
    apply orb_false_iff in Hk. destruct Hk as [Hrequest Hk].
    apply orb_false_iff in Hk. destruct Hk as [Hresponse Hk].
    apply orb_false_iff in Hk. destruct Hk as [Hqueries _].
    subst before.
    rewrite (getProp_when _ _ _ _ _ Hresponse).
    rewrite (getProp_when _ _ _ _ _ Hrequest).
    destruct (AutoAudit.slowQueries input) as [[|q qs]|]; try reflexivity.
    now rewrite (getProp_setProp_other _ _ _ _ Hqueries). }
  clearbody before. destruct Hobject as [fields ->].
  exists fields. split; [reflexivity|].
  cbn [getProp] in Hfixed.
  repeat split;
    match goal with
    | |- lookup ?k _ = _ => rewrite (Hfixed k eq_refl)
    end;
    destruct (AutoAudit.dbTimeMs input), (AutoAudit.moduleTimeMs input); reflexivity.
Qed.

(** X10.  The fixed fields of the details.  Whatever the bodies and the
    timings are, [responseStatus], [success] and [durationMs] hold the
    status, the success flag and the duration (null when absent); the two
    timings are present exactly when given; and [isSlow] is true exactly
    when the duration is over 500, and absent otherwise. *)
Theorem details_fixed_fields (input : AutoAudit.AutoAuditInput) (isSuccess : bool) :
  let stored := AutoAudit.build_details JSON_stringify input isSuccess in
  getProp stored "responseStatus" = JNum (AutoAudit.responseStatus input)
  /\ getProp stored "success" = JBool isSuccess
  /\ getProp stored "durationMs"
     = match AutoAudit.durationMs input with Some d => JNum d | None => JNull end
  /\ getProp stored "dbTimeMs"
     = match AutoAudit.dbTimeMs input with Some t => JNum t | None => JUndefined end
  /\ getProp stored "moduleTimeMs"
     = match AutoAudit.moduleTimeMs input with Some t => JNum t | None => JUndefined end
  /\ (getProp stored "isSlow" = JBool true
      <-> exists d : Z, AutoAudit.durationMs input = Some d /\ 500 < d)
  /\ (getProp stored "isSlow" = JBool true \/ getProp stored "isSlow" = JUndefined).
Proof.
  cbv zeta.
  destruct (details_before_the_slow_mark input isSuccess)
    as (fields & -> & Hstatus & Hsuccess & Hduration & Hdb & Hmodule & Hslow).
  assert (Hmarked : forall k : string,
            String.eqb k "isSlow" = false ->
            getProp (setProp (JObj fields) "isSlow" (JBool true)) k = lookup k fields)
    by (intros k Hk; now rewrite getProp_setProp_other).
  assert (Hmark : getProp (setProp (JObj fields) "isSlow" (JBool true)) "isSlow"
                  = JBool true)
    by apply lookup_assign_same.
  destruct (AutoAudit.durationMs input) as [d|].
  - destruct (Z.eqb_spec d 0) as [Hzero|Hzero];
      destruct (Z.ltb_spec 500 d) as [Hlt|Hge]; cbn [negb andb];
      rewrite ?Hmark, ?(Hmarked "responseStatus" eq_refl),
        ?(Hmarked "success" eq_refl), ?(Hmarked "durationMs" eq_refl),
        ?(Hmarked "dbTimeMs" eq_refl), ?(Hmarked "moduleTimeMs" eq_refl);
      cbn [getProp];
      (repeat (split; [assumption|]));
      rewrite ?Hslow;
      (split;
       [ split;
         [ first [ discriminate | intros _; exists d; split; [reflexivity | lia] ]
         | first [ reflexivity | intros (d' & Hd & Hlt'); injection Hd as <-; lia ] ]
       | first [ now left | now right ] ]).
  - cbn [getProp]. repeat (split; [assumption|]). rewrite Hslow.
    split; [split; [discriminate | intros (d' & Hd & _); discriminate Hd] | now right].
Qed.

(** X11.  The slow queries of the details.  Of a non-empty list the
    details keep at most five, the slowest ones, slowest first: what is
    kept and what is left out are together the given queries, and no
    query left out took longer than one that is kept.  Without slow
    queries the details have no such field. *)
Theorem slowest_queries_are_kept
  (input : AutoAudit.AutoAuditInput) (isSuccess : bool) :
  let stored := AutoAudit.build_details JSON_stringify input isSuccess in
  (forall qs : list AutoAudit.SlowQueryRecord,
     AutoAudit.slowQueries input = Some qs ->
     qs <> [] ->
     exists top rest : list AutoAudit.SlowQueryRecord,
       getProp stored "slowQueries" = JArr (map AutoAudit.slow_query_value top)
       /\ Permutation (top ++ rest) qs
       /\ List.length top = Nat.min 5 (List.length qs)
       /\ StronglySorted
            (fun a b => AutoAudit.sq_durationMs b <= AutoAudit.sq_durationMs a) top
       /\ forall a b : AutoAudit.SlowQueryRecord,
            In a top -> In b rest ->
            AutoAudit.sq_durationMs b <= AutoAudit.sq_durationMs a)
  /\ (AutoAudit.slowQueries input = None \/ AutoAudit.slowQueries input = Some [] ->
      getProp stored "slowQueries" = JUndefined).
Proof.
  cbv zeta. split.
  - intros qs Hqs Hne.
    exists (firstn 5 (AutoAudit.sort_slowest_first qs)),
           (skipn 5 (AutoAudit.sort_slowest_first qs)).
    split; [|split; [|split]].
    + unfold AutoAudit.build_details. rewrite Hqs.
      destruct qs as [|q qs]; [now contradiction Hne|].
      destruct (AutoAudit.dbTimeMs input), (AutoAudit.moduleTimeMs input),
        (nullish (AutoAudit.requestBody input)),
        (nullish (AutoAudit.responseBody input)),
        (AutoAudit.durationMs input) as [d|];
        try destruct (negb (d =? 0) && (500 <? d)); reflexivity.
    + rewrite firstn_skipn. apply sort_slowest_first_permutation.
    + rewrite length_firstn.
      now rewrite (Permutation_length (sort_slowest_first_permutation qs)).
    + apply sorted_split. rewrite firstn_skipn. apply sort_slowest_first_sorted.
  - intros Hnone. unfold AutoAudit.build_details.
    assert (Hcase : match AutoAudit.slowQueries input with
                    | Some (_ :: _) => False
                    | _ => True
                    end)
      by (destruct Hnone as [-> | ->]; exact I).
    destruct (AutoAudit.dbTimeMs input), (AutoAudit.moduleTimeMs input),
      (AutoAudit.slowQueries input) as [[|q qs]|],
      (nullish (AutoAudit.requestBody input)),
      (nullish (AutoAudit.responseBody input)),
      (AutoAudit.durationMs input) as [d|];
      try destruct (negb (d =? 0) && (500 <? d)); try reflexivity;
      contradiction Hcase.
Qed.

End Details.

Lemma details_fixed_fields_witness :
  getProp (AutoAudit.build_details Json.JSON_stringify (Sample.timed_input 501 []) true)
    "isSlow" = JBool true
  /\ getProp (AutoAudit.build_details Json.JSON_stringify (Sample.timed_input 500 []) true)
       "isSlow" = JUndefined.
Proof.
  destruct (details_fixed_fields Json.JSON_stringify (Sample.timed_input 501 []) true)
    as (_ & _ & _ & _ & _ & [_ Hslow] & _).
  destruct (details_fixed_fields Json.JSON_stringify (Sample.timed_input 500 []) true)
    as (_ & _ & _ & _ & _ & [Hquick _] & [Htrue | Habsent]).
  - split; [apply Hslow; exists 501; split; [reflexivity | lia]|].
    destruct (Hquick Htrue) as (d & Hd & Hlt). injection Hd as <-. lia.
  - split; [apply Hslow; exists 501; split; [reflexivity | lia] | exact Habsent].
Defined.

Lemma slowest_queries_are_kept_witness :
  let qs := [Sample.slow "a" 30; Sample.slow "b" 900; Sample.slow "c" 10;
             Sample.slow "d" 700; Sample.slow "e" 50; Sample.slow "f" 40;
             Sample.slow "g" 20] in
  let input := Sample.timed_input 501 qs in
  exists top rest : list AutoAudit.SlowQueryRecord,
    getProp (AutoAudit.build_details Json.JSON_stringify input true) "slowQueries"
    = JArr (map AutoAudit.slow_query_value top)
    /\ List.length top = 5%nat
    /\ Permutation (top ++ rest) qs.
Proof.
  intros qs input.
  destruct (slowest_queries_are_kept Json.JSON_stringify input true) as [Hkept _].
  destruct (Hkept qs eq_refl) as (top & rest & Hstored & Hperm & Hlen & _).
  - discriminate.
  - exists top, rest. repeat split; assumption.
Defined.

(** ** The scope of the list query *)

Section Scopes.

Import ApiAudit.

Variable table : list UserOrgAssignment.

Lemma where_accepts_one (cond : SqlCondition) (event : AuditRow) :
  ApiAuditQuery.where_accepts table [cond] event = accepts table cond event.
Proof. unfold ApiAuditQuery.where_accepts. cbn. apply andb_true_r. Qed.

Lemma push_new_NoDup (ids : list string) (v : option string) :
  NoDup ids -> NoDup (push_new ids v).
Proof.
  intros Hids. unfold push_new. destruct v as [x|]; [|assumption].
  destruct (JsString.truthy x); cbn [andb]; [|assumption].
  destruct (includes ids x) eqn:Hin; cbn [negb]; [assumption|].
  apply NoDup_rev in Hids. rewrite <- (rev_involutive (ids ++ [x])).
  apply NoDup_rev. rewrite rev_app_distr. cbn.
  constructor; [|assumption].
  rewrite <- in_rev. intros Hx. apply includes_In in Hx. congruence.
Qed.

Lemma collected_NoDup (rows : list UserOrgAssignment) (acc : OrgScopeIds) :
  (forall c, NoDup (Spec.ids_of c acc)) ->
  forall c,
    NoDup (Spec.ids_of c
             (fold_left
                (fun acc r =>
                   {| divisionIds := push_new (divisionIds acc) (divisionId r);
                      departmentIds := push_new (departmentIds acc) (departmentId r);
                      locationIds := push_new (locationIds acc) (locationId r) |})
                rows acc)).
Proof.
  revert acc. induction rows as [|r rows IH]; intros acc Hacc; [exact Hacc|].
  cbn [fold_left]. apply IH.
  intros []; cbn; apply push_new_NoDup;
    [apply (Hacc col_divisionId) | apply (Hacc col_departmentId)
     | apply (Hacc col_locationId)].
Qed.

(** X12.  The ids that scope a caller.  Each of the three lists holds
    exactly the non-empty ids of that kind in the caller's own
    assignments, each id once. *)
Theorem scope_ids_are_the_callers (caller : string) (c : OrgColumn) :
  NoDup (Spec.ids_of c (fetchUserOrgScopeIds table caller))
  /\ forall x : string,
       In x (Spec.ids_of c (fetchUserOrgScopeIds table caller))
       <-> exists a : UserOrgAssignment,
             In a table /\ userKey a = caller /\ column c a = Some x /\ x <> "".
Proof.
  split.
  - unfold fetchUserOrgScopeIds. apply collected_NoDup.
    intros []; constructor.
  - intros x. apply fetched_ids.
Qed.

(** X13.  The four scopes widen.  [none] selects no event and [any]
    selects every event; every event that [own] selects is selected by
    [ldd]; and for a caller with an id, [own] selects exactly the events
    whose actor is the caller. *)
Theorem scopes_widen (caller : string) (event : AuditRow) :
  let selected := fun mode =>
    ApiAuditQuery.where_accepts table (scope_whereParts mode caller table) event in
  selected ScopeMode.none = false
  /\ (selected ScopeMode.own = true -> selected ScopeMode.ldd = true)
  /\ selected ScopeMode.any = true
  /\ (JsString.truthy caller = true ->
      (selected ScopeMode.own = true <-> actorId event = Some caller)).
Proof.
  cbv zeta. split; [reflexivity|]. split; [|split; [reflexivity|]].
  - destruct (JsString.truthy caller) eqn:Hcaller.
    + destruct (ldd_condition table caller Hcaller) as (cond & -> & Hcond).
      cbn [scope_whereParts]. rewrite Hcaller, !where_accepts_one, Hcond.
      intros ->. reflexivity.
    + cbn [scope_whereParts]. rewrite Hcaller. discriminate.
  - intros Hcaller. cbn [scope_whereParts]. rewrite Hcaller, where_accepts_one.
    apply own_condition_accepts.
Qed.

(** X14.  The scope of a request, from its grants.  A caller who is
    granted the [none] key sees no event, whatever else is granted; a
    caller who is granted no key at all sees exactly the events of which
    they are the actor; and a caller who is granted only [any] sees every
    event. *)
Theorem scope_of_a_request
  (check : ScopeMode.PermissionCheck) (caller : string) (event : AuditRow) :
  let granted := fun mode =>
    ScopeMode.ok (check (Spec.scope_key "read" mode)) in
  let seen :=
    ApiAuditQuery.where_accepts table (ApiAuditQuery.GET_scope check caller table) event in
  (granted ScopeMode.none = true -> seen = false)
  /\ (JsString.truthy caller = true ->
      (forall mode, granted mode = false) ->
      (seen = true <-> actorId event = Some caller))
  /\ (granted ScopeMode.none = false -> granted ScopeMode.own = false ->
      granted ScopeMode.ldd = false -> granted ScopeMode.any = true ->
      seen = true).
Proof.
  cbv zeta. unfold ApiAuditQuery.GET_scope, ScopeMode.resolveAuditCoreScopeMode.
  rewrite probe_modes_spec. cbv zeta. cbn [find snd].
  split; [|split].
  - intros ->. reflexivity.
  - intros Hcaller Hnone. rewrite !Hnone. cbn [snd scope_whereParts].
    rewrite Hcaller, where_accepts_one. apply own_condition_accepts.
  - intros -> -> -> ->. reflexivity.
Qed.

End Scopes.

Lemma scope_ids_are_the_callers_witness :
  In "d1" (ApiAudit.divisionIds (ApiAudit.fetchUserOrgScopeIds Fixture.org_table "alice")).
Proof.
  destruct (scope_ids_are_the_callers Fixture.org_table "alice" ApiAudit.col_divisionId)
    as [_ Hin].
  apply (Hin "d1").
  exists (Fixture.assignment "alice" (Some "d1") (Some "sales")).
  repeat split; [now left | discriminate].
Defined.

Lemma scopes_widen_witness :
  ApiAuditQuery.where_accepts Fixture.org_table
    (ApiAudit.scope_whereParts ScopeMode.ldd "alice" Fixture.org_table)
    (Fixture.event_by "alice") = true.
Proof.
  destruct (scopes_widen Fixture.org_table "alice" (Fixture.event_by "alice"))
    as (_ & Hwiden & _ & Hown).
  apply Hwiden. apply (Hown eq_refl). reflexivity.
Defined.

Lemma scope_of_a_request_witness :
  ApiAuditQuery.where_accepts Fixture.org_table
    (ApiAuditQuery.GET_scope
       (Fixture.grants ["audit-core.read.scope.none"; "audit-core.read.scope.any"])
       "alice" Fixture.org_table)
    (Fixture.event_by "alice") = false
  /\ ApiAuditQuery.where_accepts Fixture.org_table
       (ApiAuditQuery.GET_scope (Fixture.grants []) "alice" Fixture.org_table)
       (Fixture.event_by "alice") = true.
Proof.
  split.
  - apply (scope_of_a_request Fixture.org_table
             (Fixture.grants ["audit-core.read.scope.none"; "audit-core.read.scope.any"])
             "alice" (Fixture.event_by "alice")).
    reflexivity.
  - destruct (scope_of_a_request Fixture.org_table (Fixture.grants [])
                "alice" (Fixture.event_by "alice")) as (_ & Hown & _).
    apply (Hown eq_refl); [intros []; reflexivity | reflexivity].
Defined.

(** ** The equality filters of the list query *)

Section Filters.

Import JsString ApiAuditQuery.

Variable get : string -> option string.

Lemma toUpperCase_not_empty (s : string) : s <> "" -> toUpperCase s <> "".
Proof.
  destruct s as [|c s]; [intros H; now contradiction H|].
  intros _. unfold toUpperCase. cbn. discriminate.
Qed.

Lemma push_eq_accepts (c : FilterColumn) (value : string) (row : AuditRow) :
  filters_accept (push_eq c value) row = true
  <-> (value <> "" -> column_text c row = Some value).
Proof.
  unfold push_eq, filters_accept, JsString.truthy.
  destruct (String.eqb_spec value "") as [-> | Hvalue]; cbn.
  - split; [intros _ H; now contradiction H | reflexivity].
  - rewrite andb_true_r.
    destruct (column_text c row) as [x|]; cbn.
    + destruct (String.eqb_spec x value) as [-> | Hx].
      * split; reflexivity.
      * split; [discriminate | intros H; specialize (H Hvalue); congruence].
    + split; [discriminate | intros H; specialize (H Hvalue); discriminate].
Qed.

Lemma filters_accept_app (front back : list FilterCondition) (row : AuditRow) :
  filters_accept (front ++ back) row = true
  <-> filters_accept front row = true /\ filters_accept back row = true.
Proof.
  unfold filters_accept. rewrite forallb_app. apply andb_true_iff.
Qed.

(** The [where] clause of the equality filters, part by part. *)
Lemma equality_whereParts_accept (row : AuditRow) :
  filters_accept (equality_whereParts get) row = true
  <-> forall c : FilterColumn,
        filter_value get c <> "" -> column_text c row = Some (filter_value get c).
Proof.
  unfold equality_whereParts. cbv zeta.
  repeat rewrite filters_accept_app. repeat rewrite push_eq_accepts.
  split.
  - intros H c. destruct c; cbn [filter_value param_key]; tauto.
  - intros H.
    repeat split;
      [ apply (H col_entityKind) | apply (H col_entityId) | apply (H col_action)
      | apply (H col_actorId) | apply (H col_actorType) | apply (H col_correlationId)
      | apply (H col_packName) | apply (H col_method) | apply (H col_eventType)
      | apply (H col_outcome) | apply (H col_targetKind) | apply (H col_targetId)
      | apply (H col_sessionId) ].
Qed.

(** X15.  What the equality filters select.  A row is selected exactly
    when, for every filter parameter that is not blank, the row's column
    is not null and equal to the trimmed parameter (upper-cased, for the
    method); so a query without such parameters selects every row, and a
    row whose column is null is never selected by a filter on it. *)
Theorem equality_filters_select (row : AuditRow) :
  (filters_accept (equality_whereParts get) row = true
   <-> forall c : FilterColumn,
         filter_value get c <> "" -> column_text c row = Some (filter_value get c))
  /\ ((forall c : FilterColumn, text_param get (param_key c) = "") ->
      filters_accept (equality_whereParts get) row = true)
  /\ (forall c : FilterColumn,
        text_param get (param_key c) <> "" ->
        column_text c row = None ->
        filters_accept (equality_whereParts get) row = false).
Proof.
  split; [apply equality_whereParts_accept|]. split.
  - intros Hblank. apply equality_whereParts_accept.
    intros c Hc. contradiction Hc.
    destruct c; cbn [filter_value]; try apply (Hblank _).
    pose proof (Hblank col_method) as Hmethod. cbn [param_key] in Hmethod.
    now rewrite Hmethod.
  - intros c Hc Hnull.
    destruct (filters_accept (equality_whereParts get) row) eqn:Haccept; [|reflexivity].
    rewrite equality_whereParts_accept in Haccept.
    specialize (Haccept c). rewrite Hnull in Haccept.
    assert (Hvalue : filter_value get c <> "")
      by (destruct c; cbn [filter_value]; try assumption;
          now apply toUpperCase_not_empty).
    specialize (Haccept Hvalue). discriminate Haccept.
Qed.

(** X16.  The method filter compares with the upper-cased parameter,
    while rows keep the method as the context gave it: a row whose
    method has a lower-case letter is selected by no method filter. *)
Theorem method_filter_misses_lower_case (row : AuditRow) (m : string) :
  method row = Some m ->
  toUpperCase m <> m ->
  text_param get "method" <> "" ->
  filters_accept (equality_whereParts get) row = false.
Proof.
  intros Hrow Hm Hparam.
  destruct (filters_accept (equality_whereParts get) row) eqn:Haccept; [|reflexivity].
  rewrite equality_whereParts_accept in Haccept.
  specialize (Haccept col_method (toUpperCase_not_empty _ Hparam)).
  cbn [column_text filter_value] in Haccept.
  rewrite Hrow in Haccept. injection Haccept as ->.
  contradiction Hm. apply toUpperCase_idempotent.
Qed.

End Filters.

Lemma equality_filters_select_witness :
  ApiAuditQuery.filters_accept
    (ApiAuditQuery.equality_whereParts (Sample.query [("q", "x"); ("action", "  ")]))
    (Fixture.event_by "alice") = true
  /\ ApiAuditQuery.filters_accept
       (ApiAuditQuery.equality_whereParts (Sample.query [("sessionId", "s-1")]))
       (Fixture.event_by "alice") = false.
Proof.
  split.
  - apply (equality_filters_select (Sample.query [("q", "x"); ("action", "  ")])
             (Fixture.event_by "alice")).
    intros []; reflexivity.
  - destruct (equality_filters_select (Sample.query [("sessionId", "s-1")])
                (Fixture.event_by "alice")) as (_ & _ & Hnull).
    apply (Hnull ApiAuditQuery.col_sessionId); [discriminate | reflexivity].
Defined.

Lemma method_filter_misses_lower_case_witness :
  let derived :=
    match AutoAudit.derive_row Json.JSON_stringify
            (Fixture.ctx_of "post" "/api/crm/contacts") "POST"
            (Fixture.auto_input 201 JUndefined JUndefined) with
    | Normal row => row
    | Throw _ => Fixture.event_by "nobody"
    end in
  method derived = Some "post"
  /\ ApiAuditQuery.filters_accept
       (ApiAuditQuery.equality_whereParts (Sample.query [("method", "post")])) derived
     = false.
Proof.
  intros derived. split; [reflexivity|].
  apply (method_filter_misses_lower_case (Sample.query [("method", "post")])
           derived "post"); [reflexivity | discriminate | discriminate].
Defined.

(** ** The pages of the list query *)

Section Pages.

Import ApiAuditQuery.

Variable Number : string -> option Z.

Lemma ceil_div_bounds (a b : Z) :
  0 < b -> (ceil_div a b - 1) * b < a <= ceil_div a b * b.
Proof.
  intros Hb. unfold ceil_div.
  pose proof (Z.div_mod (- a) b ltac:(lia)) as Hdiv.
  pose proof (Z.mod_pos_bound (- a) b Hb) as Hmod.
  nia.
Qed.

Lemma page_bounds (get : string -> option string) :
  1 <= page_of Number get /\ 1 <= pageSize_of Number get <= 100
  /\ 0 <= offset_of Number get.
Proof.
  unfold offset_of, page_of, pageSize_of.
  repeat split; try lia. nia.
Qed.

Lemma firstn_add {A : Type} (a b : nat) (l : list A) :
  firstn (a + b) l = firstn a l ++ firstn b (skipn a l).
Proof.
  revert l. induction a as [|a IH]; intros l; [reflexivity|].
  destruct l as [|x l]; cbn.
  - now rewrite firstn_nil.
  - now rewrite IH.
Qed.

Lemma pages_concat {A : Type} (size : nat) (l : list A) (n : nat) :
  concat (map (fun k => firstn size (skipn (k * size) l)) (seq 0 n))
  = firstn (n * size) l.
Proof.
  induction n as [|n IH]; [reflexivity|].
  rewrite seq_S, map_app, concat_app, IH. cbn [map concat plus].
  rewrite app_nil_r. replace (S n * size)%nat with (n * size + size)%nat by lia.
  now rewrite firstn_add.
Qed.

(** X17.  The page of a response.  The page is at least 1, the page size
    between 1 and 100 and the offset not negative, whatever the
    parameters; the response never has more rows than the page size;
    [totalPages] is the least number of pages that hold [total] rows; and
    a page has rows exactly when it is not beyond [totalPages]. *)
Theorem page_of_a_response {A : Type} (get : string -> option string) (matching : list A) :
  let response := GET_response Number get matching in
  let shown := pagination response in
  1 <= page shown
  /\ 1 <= pageSize shown <= 100
  /\ 0 <= offset_of Number get
  /\ Z.of_nat (List.length (items response)) <= pageSize shown
  /\ total shown = Z.of_nat (List.length matching)
  /\ (totalPages shown - 1) * pageSize shown < total shown
       <= totalPages shown * pageSize shown
  /\ (items response <> [] <-> page shown <= totalPages shown).
Proof.
  cbv zeta. unfold GET_response. cbn [pagination items page pageSize total totalPages].
  destruct (page_bounds get) as (Hpage & Hsize & Hoffset).
  pose proof (ceil_div_bounds (Z.of_nat (List.length matching))
                (pageSize_of Number get) ltac:(lia)) as Hceil.
  split; [assumption|]. split; [assumption|]. split; [assumption|].
  split; [rewrite length_firstn; lia|].
  split; [reflexivity|]. split; [assumption|].
  pose proof (length_skipn (Z.to_nat (offset_of Number get)) matching) as Hskip.
  assert (Hrows : firstn (Z.to_nat (pageSize_of Number get))
                    (skipn (Z.to_nat (offset_of Number get)) matching) <> []
                  <-> offset_of Number get < Z.of_nat (List.length matching)).
  { destruct (skipn (Z.to_nat (offset_of Number get)) matching) as [|x rest].
    - rewrite firstn_nil. cbn [List.length] in Hskip.
      split; [intros H; now contradiction H | lia].
    - cbn [List.length] in Hskip.
      destruct (Z.to_nat (pageSize_of Number get)) as [|size] eqn:Hsize'; [lia|].
      cbn [firstn]. split; [lia | discriminate]. }
  rewrite Hrows. unfold offset_of in *. nia.
Qed.

(** X18.  Walking the pages.  The rows of the pages 1 to [totalPages] of
    one page size, one after the other, are the matching rows, each once
    and in order. *)
Theorem pages_cover_the_matching_rows {A : Type}
  (gets : nat -> string -> option string) (size : Z) (matching : list A) :
  let pages := Z.to_nat (ceil_div (Z.of_nat (List.length matching)) size) in
  1 <= size ->
  (forall k : nat,
     (k < pages)%nat ->
     page_of Number (gets k) = Z.of_nat k + 1
     /\ pageSize_of Number (gets k) = size) ->
  (forall k : nat,
     (k < pages)%nat ->
     totalPages (pagination (GET_response Number (gets k) matching)) = Z.of_nat pages)
  /\ concat (map (fun k => items (GET_response Number (gets k) matching)) (seq 0 pages))
     = matching.
Proof.
  cbv zeta. intros Hsize Hgets.
  pose proof (ceil_div_bounds (Z.of_nat (List.length matching)) size ltac:(lia)) as Hceil.
  assert (Hpages : 0 <= ceil_div (Z.of_nat (List.length matching)) size) by nia.
  split.
  - intros k Hk. destruct (Hgets k Hk) as [_ Hk_size].
    unfold GET_response. cbn [pagination totalPages].
    rewrite Hk_size. now rewrite Z2Nat.id.
  - rewrite (map_ext_in _
               (fun k => firstn (Z.to_nat size) (skipn (k * Z.to_nat size) matching))).
    + rewrite pages_concat. apply firstn_all2.
      apply Nat2Z.inj_le. rewrite Nat2Z.inj_mul, !Z2Nat.id by lia. lia.
    + intros k Hk. apply in_seq in Hk.
      destruct (Hgets k ltac:(lia)) as [Hk_page Hk_size].
      unfold GET_response, offset_of. cbn [items].
      rewrite Hk_page, Hk_size. f_equal. f_equal.
      replace (Z.of_nat k + 1 - 1) with (Z.of_nat k) by lia.
      rewrite Z2Nat.inj_mul, Nat2Z.id by lia. reflexivity.
Qed.

End Pages.

Lemma pages_cover_the_matching_rows_witness :
  let gets := fun k : nat =>
    Sample.query [("page", nth k ["1"; "2"; "3"] "1"); ("pageSize", "2")] in
  let matching := map Fixture.event_by ["a"; "b"; "c"; "d"; "e"] in
  concat (map (fun k => ApiAuditQuery.items
                          (ApiAuditQuery.GET_response Sample.Number (gets k) matching))
            [0; 1; 2]%nat)
  = matching.
Proof.
  intros gets matching.
  apply (pages_cover_the_matching_rows Sample.Number gets 2 matching); [lia|].
  intros k Hk.
  assert (Hcases : k = 0%nat \/ k = 1%nat \/ k = 2%nat)
    by (change (k < 3)%nat in Hk; lia).
  destruct Hcases as [-> | [-> | ->]]; split; reflexivity.
Defined.

(** ** Who the request is from *)

Section AuthFacts.

Import JsString Auth.

Variable parse_payload : string -> Completion Payload.
Variable now : Z.

Lemma truthy_not_empty (s : string) : JsString.truthy s = true <-> s <> "".
Proof.
  unfold JsString.truthy. destruct (String.eqb_spec s ""); cbn.
  - split; [discriminate | intros H; now contradiction H].
  - split; [now intros _ | reflexivity].
Qed.

(** X19.  The [x-user-id] header is trusted.  A request with a non-empty
    [x-user-id] is from that user, whatever its cookie and its
    [authorization] header hold, also without a token or with an expired
    one; the user has no email and no role, so is no admin, and passes
    the guard of the list query. *)
Theorem trusted_header_authenticates (request : Request) (id : string) :
  header_x_user_id request = Some id ->
  id <> "" ->
  extractUserFromRequest parse_payload now request
  = Some {| sub := id; email := ""; roles := [] |}
  /\ getUserId parse_payload now request = Some id
  /\ isAdmin parse_payload now request = false
  /\ GET_guard parse_payload now request = None.
Proof.
  intros Hheader Hid. apply truthy_not_empty in Hid.
  assert (Huser : extractUserFromRequest parse_payload now request
                  = Some {| sub := id; email := ""; roles := [] |})
    by (unfold extractUserFromRequest; now rewrite Hheader, Hid).
  unfold getUserId, isAdmin, GET_guard. rewrite Huser. cbn [sub roles existsb].
  rewrite Hid. repeat split.
Qed.

(** X20.  Which tokens authenticate.  A user comes out of a token only
    when the token is not empty, has exactly three parts between dots,
    its middle part decodes, and its expiry, if it has one other than 0,
    is not before now. *)
Theorem only_valid_tokens_authenticate (token : option string) (user : User) :
  user_of_token parse_payload now token = Some user ->
  exists (t : string) (payload : Payload),
    token = Some t
    /\ t <> ""
    /\ List.length (split "." t) = 3%nat
    /\ parse_payload (nth 1 (split "." t) "") = Normal payload
    /\ (forall exp : Z, payload_exp payload = Some exp -> exp = 0 \/ now <= exp * 1000)
    /\ roles user = match payload_roles payload with Some r => r | None => [] end.
Proof.
  unfold user_of_token. destruct token as [t|]; [|discriminate].
  destruct (JsString.truthy t) eqn:Ht; cbn [negb]; [|discriminate].
  destruct (Nat.eqb_spec (List.length (split "." t)) 3) as [Hparts|]; cbn [negb];
    [|discriminate].
  destruct (parse_payload (nth 1 (split "." t) "")) as [payload|] eqn:Hpayload;
    [|discriminate].
  destruct (match payload_exp payload with
            | Some exp => negb (exp =? 0) && (exp * 1000 <? now)
            | None => false
            end) eqn:Hexpired; [discriminate|].
  intros Huser. injection Huser as <-.
  exists t, payload. repeat split; try assumption.
  - now apply truthy_not_empty.
  - intros exp Hexp. rewrite Hexp in Hexpired.
    apply andb_false_iff in Hexpired. destruct Hexpired as [Hzero | Hlate].
    + left. apply negb_false_iff in Hzero. now apply Z.eqb_eq.
    + right. now apply Z.ltb_ge.
Qed.

(** X21.  The cookie comes first.  With a non-empty [hit_token] cookie the
    [authorization] header is not looked at: two requests with that
    cookie and the same [x-user-id] are from the same user, also when the
    cookie's token is bad and a header's is good.  Without the cookie, a
    header that does not start with [Bearer ] gives no user. *)
Theorem cookie_shadows_the_header (request other : Request) :
  (forall c : string,
     cookie_hit_token request = Some c ->
     c <> "" ->
     cookie_hit_token other = Some c ->
     header_x_user_id other = header_x_user_id request ->
     extractUserFromRequest parse_payload now other
     = extractUserFromRequest parse_payload now request
     /\ extractUserFromRequest_dist parse_payload now request
        = user_of_token parse_payload now (Some c))
  /\ (forall authHeader : string,
        AutoAudit.some_truthy (cookie_hit_token request) = false ->
        header_authorization request = Some authHeader ->
        startsWith authHeader "Bearer " = false ->
        extractUserFromRequest_dist parse_payload now request = None).
Proof.
  split.
  - intros c Hcookie Hc Hother Hheader. apply truthy_not_empty in Hc.
    assert (Htoken : forall r, cookie_hit_token r = Some c -> bearer_token r = Some c).
    { intros r Hr. unfold bearer_token. rewrite Hr. cbn [AutoAudit.some_truthy].
      now rewrite Hc. }
    unfold extractUserFromRequest, extractUserFromRequest_dist.
    rewrite (Htoken _ Hcookie), (Htoken _ Hother), Hheader. split; reflexivity.
  - intros authHeader Hcookie Hauth Hprefix.
    unfold extractUserFromRequest_dist, bearer_token.
    rewrite Hcookie, Hauth, Hprefix. cbn [negb].
    destruct (cookie_hit_token request) as [c|]; [|reflexivity].
    cbn [AutoAudit.some_truthy] in Hcookie. unfold user_of_token.
    now rewrite Hcookie.
Qed.

(** X22.  The guards of the list query.  The older handler answers 401
    when the request has no user or the user has no id, 403 when the user
    is not an admin, and goes on only for an admin with an id; the newer
    one goes on for every user with an id, so for every request that the
    older one lets through. *)
Theorem guards_of_the_list_query (request : Request) :
  (GET_guard_dist parse_payload now request = None
   <-> exists user : User,
         extractUserFromRequest_dist parse_payload now request = Some user
         /\ sub user <> "" /\ In "admin" (roles user))
  /\ (GET_guard_dist parse_payload now request = Some 401
      <-> forall user : User,
            extractUserFromRequest_dist parse_payload now request = Some user ->
            sub user = "")
  /\ (GET_guard_dist parse_payload now request = None
      \/ GET_guard_dist parse_payload now request = Some 401
      \/ GET_guard_dist parse_payload now request = Some 403)
  /\ (GET_guard parse_payload now request = None
      <-> exists user : User,
            extractUserFromRequest parse_payload now request = Some user
            /\ sub user <> "")
  /\ (GET_guard_dist parse_payload now request = None ->
      GET_guard parse_payload now request = None).
Proof.
  assert (Hadmin : forall rs, existsb (String.eqb "admin") rs = true <-> In "admin" rs).
  { intros rs. rewrite existsb_exists. split.
    - intros (x & Hx & Heq). apply String.eqb_eq in Heq. now subst x.
    - intros Hin. exists "admin". split; [assumption | reflexivity]. }
  unfold GET_guard_dist, getUserId_dist, isAdmin_dist, GET_guard, extractUserFromRequest,
    extractUserFromRequest_dist.
  destruct (user_of_token parse_payload now (bearer_token request)) as [user|].
  - destruct (JsString.truthy (sub user)) eqn:Hsub.
    + pose proof (proj1 (truthy_not_empty _) Hsub) as Hid.
      assert (Hnew : match header_x_user_id request with
                     | Some xUserId =>
                         if JsString.truthy xUserId
                         then Some {| sub := xUserId; email := ""; roles := [] |}
                         else Some user
                     | None => Some user
                     end
                     = Some match header_x_user_id request with
                            | Some xUserId =>
                                if JsString.truthy xUserId
                                then {| sub := xUserId; email := ""; roles := [] |}
                                else user
                            | None => user
                            end)
        by (destruct (header_x_user_id request) as [x|];
            [destruct (JsString.truthy x)|]; reflexivity).
      rewrite Hnew.
      assert (Hnew_id : JsString.truthy
                          (sub match header_x_user_id request with
                               | Some xUserId =>
                                   if JsString.truthy xUserId
                                   then {| sub := xUserId; email := ""; roles := [] |}
                                   else user
                               | None => user
                               end) = true)
        by (destruct (header_x_user_id request) as [x|];
            [destruct (JsString.truthy x) eqn:Hx|]; assumption).
      rewrite Hnew_id.
      destruct (existsb (String.eqb "admin") (roles user)) eqn:Hroles; cbn [negb].
      * apply Hadmin in Hroles.
        split; [split; [intros _; now exists user | reflexivity]|].
        split; [split; [discriminate | intros H; specialize (H user eq_refl); congruence]|].
        split; [now left|].
        split; [|reflexivity].
        split; [intros _; eexists; split; [reflexivity|] | reflexivity].
        now apply truthy_not_empty.
      * split; [split; [discriminate|]|].
        { intros (u & Hu & _ & Hin). injection Hu as <-.
          apply Hadmin in Hin. congruence. }
        split; [split; [discriminate | intros H; specialize (H user eq_refl); congruence]|].
        split; [now right; right|].
        split; [|discriminate].
        split; [intros _; eexists; split; [reflexivity|] | reflexivity].
        now apply truthy_not_empty.
    + assert (Hempty : sub user = "").
      { unfold JsString.truthy in Hsub. apply negb_false_iff in Hsub.
        now apply String.eqb_eq. }
      split; [split; [discriminate|]|].
      { intros (u & Hu & Hne & _). injection Hu as <-. contradiction. }
      split; [split; [intros _ u Hu; now injection Hu as <- | reflexivity]|].
      split; [now right; left|].
      split; [|discriminate].
      destruct (header_x_user_id request) as [x|]; [destruct (JsString.truthy x) eqn:Hx|].
      * cbn [sub]. rewrite Hx. split; [intros _ | reflexivity].
        eexists. split; [reflexivity|]. now apply truthy_not_empty.
      * rewrite Hsub. split; [discriminate|].
        intros (u & Hu & Hne). injection Hu as <-. contradiction.
      * rewrite Hsub. split; [discriminate|].
        intros (u & Hu & Hne). injection Hu as <-. contradiction.
  - split; [split; [discriminate | intros (u & Hu & _); discriminate Hu]|].
    split; [split; [intros _ u Hu; discriminate Hu | reflexivity]|].
    split; [now right; left|].
    split; [|discriminate].
    destruct (header_x_user_id request) as [x|]; [destruct (JsString.truthy x) eqn:Hx|].
    + cbn [sub]. rewrite Hx. split; [intros _ | reflexivity].
      eexists. split; [reflexivity|]. now apply truthy_not_empty.
    + split; [discriminate | intros (u & Hu & _); discriminate Hu].
    + split; [discriminate | intros (u & Hu & _); discriminate Hu].
Qed.

End AuthFacts.

Lemma trusted_header_authenticates_witness :
  Auth.getUserId Sample.parse_payload Sample.now
    (Sample.request (Some "h.old.sig") None (Some "mallory")) = Some "mallory"
  /\ Auth.getUserId_dist Sample.parse_payload Sample.now
       (Sample.request (Some "h.old.sig") None (Some "mallory")) = None.
Proof.
  split; [|reflexivity].
  apply (trusted_header_authenticates Sample.parse_payload Sample.now
           (Sample.request (Some "h.old.sig") None (Some "mallory")) "mallory");
    [reflexivity | discriminate].
Defined.

Lemma only_valid_tokens_authenticate_witness :
  exists payload : Auth.Payload,
    Sample.parse_payload "alice" = Normal payload
    /\ Auth.payload_roles payload = Some ["admin"].
Proof.
  destruct (only_valid_tokens_authenticate Sample.parse_payload Sample.now
              (Some "h.alice.sig")
              {| Auth.sub := "alice"; Auth.email := "alice@example.com";
                 Auth.roles := ["admin"] |} eq_refl)
    as (t & payload & Ht & _ & _ & Hpayload & _ & Hroles).
  injection Ht as <-.
  exists payload. split; [exact Hpayload|].
  vm_compute in Hpayload. injection Hpayload as <-. reflexivity.
Defined.

Lemma cookie_shadows_the_header_witness :
  Auth.extractUserFromRequest Sample.parse_payload Sample.now
    (Sample.request (Some "h.old.sig") (Some "Bearer h.alice.sig") None)
  = None.
Proof.
  destruct (cookie_shadows_the_header Sample.parse_payload Sample.now
              (Sample.request (Some "h.old.sig") None None)
              (Sample.request (Some "h.old.sig") (Some "Bearer h.alice.sig") None))
    as [Hcookie _].
  destruct (Hcookie "h.old.sig" eq_refl) as [Hsame _];
    [discriminate | reflexivity | reflexivity |].
  rewrite Hsame. reflexivity.
Defined.

Lemma guards_of_the_list_query_witness :
  Auth.GET_guard Sample.parse_payload Sample.now
    (Sample.request None (Some "Bearer h.alice.sig") None) = None.
Proof.
  apply (guards_of_the_list_query Sample.parse_payload Sample.now
           (Sample.request None (Some "Bearer h.alice.sig") None)).
  reflexivity.
Defined.

(** ** The two derivers *)

Section TwoDerivers.

Import JsString.

Variable JSON_stringify : JsValue -> Completion (option string).

Lemma write_method_action (method : string) (status : Z) :
  AutoAudit.isWrite method = true ->
  (200 <=? status) && (status <? 300) = true ->
  AutoAudit.derive_action method status = AutoAuditLevel1.methodToAction method.
Proof.
  intros Hwrite Hsuccess. unfold AutoAudit.derive_action. rewrite Hsuccess. cbn [negb].
  unfold AutoAudit.isWrite in Hwrite. cbn [existsb] in Hwrite.
  repeat (apply orb_true_iff in Hwrite; destruct Hwrite as [Hwrite | Hwrite]);
    try discriminate Hwrite; apply String.eqb_eq in Hwrite; subst method; reflexivity.
Qed.

Lemma derive_row_extends
  (ctx : AuditRequestContext) (method : string)
  (basic : AutoAuditLevel1.AutoAuditInput) (input : AutoAudit.AutoAuditInput) :
  AutoAudit.responseStatus input = AutoAuditLevel1.responseStatus basic ->
  AutoAudit.responseBody input = AutoAuditLevel1.responseBody basic ->
  AutoAudit.input_actorId input = AutoAuditLevel1.input_actorId basic ->
  AutoAudit.isWrite method = true ->
  (200 <=? AutoAudit.responseStatus input) && (AutoAudit.responseStatus input <? 300)
  = true ->
  match AutoAudit.derive_row JSON_stringify ctx method input with
  | Normal detailed =>
      AutoAuditLevel1.derive_row ctx method basic = Normal (without_details detailed)
      /\ details detailed <> None
  | Throw e => AutoAuditLevel1.derive_row ctx method basic = Throw e
  end.
Proof.
  intros Hstatus Hbody Hactor Hwrite Hsuccess.
  unfold AutoAuditLevel1.derive_row, AutoAudit.derive_row.
  rewrite (write_method_action _ _ Hwrite Hsuccess), Hsuccess, Hbody, Hactor.
  destruct (ctx_path ctx) as [p|]; [|reflexivity].
  cbn [negb]. rewrite andb_true_r.
  split; [reflexivity | discriminate].
Qed.

(** X23.  The deriver with details extends the basic one.  Whenever the
    basic deriver of src/server/api/audit.ts writes a row, the request
    was a successful write, and the deriver with details, run in the same
    place on the same response, derives that row with details added: it
    stores it, unless the storage rejects the row with its details. *)
Theorem detailed_deriver_extends_the_basic_one
  (app : AppDbModule) (basic : AutoAuditLevel1.AutoAuditInput)
  (input : AutoAudit.AutoAuditInput) (w : World) :
  AutoAudit.responseStatus input = AutoAuditLevel1.responseStatus basic ->
  AutoAudit.responseBody input = AutoAuditLevel1.responseBody basic ->
  AutoAudit.input_actorId input = AutoAuditLevel1.input_actorId basic ->
  fst (AutoAuditLevel1.writeAutoAuditEvent app basic w) = Normal true ->
  exists (row detailed : AuditRow) (db : DbHandle),
    audit_events (snd (AutoAuditLevel1.writeAutoAuditEvent app basic w))
    = audit_events w ++ [row]
    /\ 200 <= AutoAuditLevel1.responseStatus basic < 300
    /\ row = without_details detailed
    /\ details detailed <> None
    /\ getDb app = Normal db
    /\ (insert_rejects db (audit_events w) detailed = None ->
        fst (AutoAudit.writeAutoAuditEvent JSON_stringify app input w) = Normal true
        /\ audit_events (snd (AutoAudit.writeAutoAuditEvent JSON_stringify app input w))
           = audit_events w ++ [detailed])
    /\ (insert_rejects db (audit_events w) detailed <> None ->
        fst (AutoAudit.writeAutoAuditEvent JSON_stringify app input w) = Normal false
        /\ audit_events (snd (AutoAudit.writeAutoAuditEvent JSON_stringify app input w))
           = audit_events w).
Proof.
  intros Hstatus Hbody Hactor.
  unfold AutoAuditLevel1.writeAutoAuditEvent, AutoAudit.writeAutoAuditEvent,
    bind, getAuditContext.
  destruct (AutoAuditLevel1.responseStatus basic <? 200) eqn:Hlow;
    cbn [orb]; [discriminate|].
  destruct (300 <=? AutoAuditLevel1.responseStatus basic) eqn:Hhigh; [discriminate|].
  apply Z.ltb_ge in Hlow. apply Z.leb_gt in Hhigh.
  destruct (als w) as [ctx|] eqn:Hals; [|discriminate].
  destruct (0 <? auditWrites ctx); [discriminate|].
  destruct (ctx_method ctx) as [m|] eqn:Hm; [|discriminate].
  cbn [option_map].
  destruct (JsString.truthy (toUpperCase m)) eqn:Htruthy; cbn [negb orb]; [|discriminate].
  destruct (AutoAudit.isWrite (toUpperCase m)) eqn:Hwrite; cbn [negb andb]; [|discriminate].
  unfold try_catch, bind, lift, console_error, ret.
  destruct (import_db app) as [[]|e]; [|discriminate].
  destruct (getDb app) as [db|e]; [|discriminate].
  assert (Hsuccess : (200 <=? AutoAudit.responseStatus input)
                     && (AutoAudit.responseStatus input <? 300) = true).
  { rewrite Hstatus. apply andb_true_iff. split; [apply Z.leb_le | apply Z.ltb_lt]; lia. }
  pose proof (derive_row_extends ctx (toUpperCase m) basic input
                Hstatus Hbody Hactor Hwrite Hsuccess) as Hrows.
  destruct (AutoAudit.derive_row JSON_stringify ctx (toUpperCase m) input)
    as [detailed|e]; [destruct Hrows as [Hrows Hdetails] |]; rewrite Hrows;
    [|discriminate].
  unfold insert_values. set (row := without_details detailed).
  destruct (insert_rejects db (audit_events w) row) eqn:Hrow; [discriminate|].
  intros _. exists row, detailed, db.
  split; [unfold markAuditWrite; cbn; rewrite Hals; reflexivity|].
  split; [lia|]. split; [reflexivity|]. split; [assumption|]. split; [reflexivity|].
  split.
  - intros ->. unfold markAuditWrite. cbn. rewrite Hals. split; reflexivity.
  - intros Hrejects.
    destruct (insert_rejects db (audit_events w) detailed); [|now contradiction Hrejects].
    split; reflexivity.
Qed.

End TwoDerivers.

Lemma detailed_deriver_extends_the_basic_one_witness :
  fst (AutoAudit.writeAutoAuditEvent Json.JSON_stringify
         (Fixture.app_with Fixture.accepting_db)
         (Fixture.auto_input 201 JUndefined (JObj [("id", JStr "c-9")]))
         (Fixture.inside (Fixture.ctx_of "POST" "/api/crm/contacts")))
  = Normal true.
Proof.
  destruct (detailed_deriver_extends_the_basic_one Json.JSON_stringify
              (Fixture.app_with Fixture.accepting_db)
              {| AutoAuditLevel1.responseStatus := 201;
                 AutoAuditLevel1.responseBody := JObj [("id", JStr "c-9")];
                 AutoAuditLevel1.input_actorId := None |}
              (Fixture.auto_input 201 JUndefined (JObj [("id", JStr "c-9")]))
              (Fixture.inside (Fixture.ctx_of "POST" "/api/crm/contacts"))
              eq_refl eq_refl eq_refl eq_refl)
    as (row & detailed & db & _ & _ & _ & _ & Hdb & Hstored & _).
  injection Hdb as <-.
  apply Hstored. reflexivity.
Defined.
